(** * ytdownloader: filename sanitation, unique paths, naming, batch download

    A shallow embedding of the batch download core of the repository:

    - [utils/file_helpers.py]    : [sanitize_filename], [generate_unique_filename],
                                   [create_directory], [cleanup_temp_files]
    - [app.py]                   : [_generate_custom_titles],
                                   [_perform_download], [_extract_videos], the
                                   end of [run]
    - [services/audio_downloader.py] : [download_audio], [batch_download]
    - [ui/progress_tracking.py]  : [create_download_summary], [_download_worker],
                                   [_update_progress]
    - [models/video_info.py]     : [clean_filename], [get_sanitized_title]
    - [utils/url_validator.py]   : [validate_youtube_url], [is_playlist_url],
                                   [is_channel_url], [extract_video_id],
                                   [sanitize_url]
    - [services/youtube_extractor.py] : [_convert_duration], [get_channel_videos]

    Python [str] values are lists of Unicode code points.  The Unicode
    normalizer ([unicodedata.normalize]), the directory creation of the
    operating system ([os.makedirs], [tempfile.mkdtemp]), the text field of
    the Streamlit page and the yt-dlp / ffmpeg engine are collaborators
    outside the repository: they are Section variables, so every statement
    holds for any behaviour they may have. *)

From Stdlib Require Import ZArith NArith QArith List Ascii String Lia.
From stdpp Require Import base numbers list sets gmap strings pretty.

Open Scope N_scope.

(** ** Python strings *)

(** A [str] is a sequence of code points. *)
Definition pystr : Type := list N.

(** String literals of the source, written as Rocq strings. *)
Definition lit (s : string) : pystr :=
  map N_of_ascii (list_ascii_of_string s).

(** [str(n)] / the [{n}] field of an f-string, for a non-negative [int]. *)
Definition str_of_nat (n : nat) : pystr := lit (pretty n).

(** Truthiness of a [str]: the empty string is falsy. *)
Definition truthy (s : pystr) : bool :=
  match s with [] => false | _ :: _ => true end.

(** Truthiness of an [Optional[str]]: [None] and [""] are falsy. *)
Definition truthy_opt (o : option pystr) : bool :=
  match o with Some s => truthy s | None => false end.

(** [a or b] for an [Optional[str]] on the left. *)
Definition or_else (o : option pystr) (d : pystr) : pystr :=
  match o with
  | Some s => if truthy s then s else d
  | None => d
  end.

(** ** Character classes of the regular expressions (on ASCII text) *)

Definition between (lo hi c : N) : bool := (lo <=? c) && (c <=? hi).

Definition is_digit (c : N) : bool := between 48 57 c.
Definition is_upper (c : N) : bool := between 65 90 c.
Definition is_lower (c : N) : bool := between 97 122 c.

(** [\w] restricted to ASCII, where [sanitize_filename] applies it:
    [[a-zA-Z0-9_]]. *)
Definition re_word (c : N) : bool :=
  is_digit c || is_upper c || is_lower c || (c =? 95).

(** The complement of the class [[^\w\-_\. ]]: the characters kept. *)
Definition re_kept (c : N) : bool :=
  re_word c || (c =? 45) || (c =? 95) || (c =? 46) || (c =? 32).

(** [\s] for a [str] pattern, on ASCII: tab, newline, vertical tab, form
    feed, carriage return, the four separators 0x1c-0x1f, and space. *)
Definition re_space (c : N) : bool :=
  between 9 13 c || between 28 31 c || (c =? 32).

(** ** [FileHelper.sanitize_filename] *)

(** [s.encode('ascii', 'ignore').decode('ascii')]: code points outside
    ASCII are dropped. *)
Definition encode_ascii_ignore (s : pystr) : pystr :=
  List.filter (fun c => c <? 128) s.

(** [re.sub(r'[^\w\-_\. ]', '_', s)]: the pattern matches ONE character, so
    each character outside the class is replaced by its own underscore. *)
Definition sub_problematic (s : pystr) : pystr :=
  map (fun c => if re_kept c then c else 95) s.

(** [re.sub(r'\s+', ' ', s)]: scanning from the left, every maximal run of
    whitespace becomes one space.  [in_run] tells that the previous character
    was whitespace (its run has been replaced already). *)
Fixpoint sub_spaces_from (in_run : bool) (s : pystr) : pystr :=
  match s with
  | [] => []
  | c :: r =>
      if re_space c
      then (if in_run then sub_spaces_from true r
            else 32 :: sub_spaces_from true r)
      else c :: sub_spaces_from false r
  end.

Definition sub_spaces (s : pystr) : pystr := sub_spaces_from false s.

(** The characters of the argument of [strip('. ')]. *)
Definition dot_or_space (c : N) : bool := (c =? 46) || (c =? 32).

Fixpoint lstrip (p : N -> bool) (s : pystr) : pystr :=
  match s with
  | [] => []
  | c :: r => if p c then lstrip p r else s
  end.

Definition rstrip (p : N -> bool) (s : pystr) : pystr :=
  rev (lstrip p (rev s)).

Definition strip (p : N -> bool) (s : pystr) : pystr :=
  rstrip p (lstrip p s).

(** [s[:m]] with Python's slice semantics: a negative [m] counts from the
    end, and the bounds are clipped. *)
Definition slice_to (m : Z) (s : pystr) : pystr :=
  if (0 <=? m)%Z then firstn (Z.to_nat m) s
  else firstn (Z.to_nat (Z.of_nat (length s) + m)) s.

Definition unnamed_file : pystr := lit "unnamed_file".

Section Sanitizer.

(** [unicodedata.normalize('NFKD', _)], from the Python standard library. *)
Variable normalize_NFKD : pystr -> pystr.

Definition sanitize_filename (filename : pystr) (max_length : Z) : pystr :=
  let filename := normalize_NFKD filename in
  let filename := encode_ascii_ignore filename in
  let filename := sub_problematic filename in
  let filename := sub_spaces filename in
  let filename := slice_to max_length (strip dot_or_space filename) in
  if truthy filename then filename else unnamed_file.

End Sanitizer.

(** A stand-in for the normalizer on a fragment of Latin-1: the compatibility
    decompositions of a few accented letters and of the no-break space; the
    identity elsewhere (in particular on ASCII). *)
Definition nfkd_char (c : N) : pystr :=
  if c <? 128 then [c]
  else match c with
       | 160 => [32]            (* NO-BREAK SPACE -> SPACE *)
       | 192 => [65; 768]       (* A grave *)
       | 201 => [69; 769]       (* E acute *)
       | 224 => [97; 768]       (* a grave *)
       | 233 => [101; 769]      (* e acute *)
       | 241 => [110; 771]      (* n tilde *)
       | 252 => [117; 776]      (* u diaeresis *)
       | _ => [c]
       end.

Definition nfkd_latin (s : pystr) : pystr := flat_map nfkd_char s.


(** ** Paths and the directory snapshot *)

(** [os.path.join(a, b)] (POSIX flavour): an absolute [b] discards [a];
    otherwise one separator is put between the two unless [a] is empty or
    already ends with one. *)
Definition starts_with_sep (s : pystr) : bool :=
  match s with c :: _ => c =? 47 | [] => false end.

Definition ends_with_sep (s : pystr) : bool :=
  match rev s with c :: _ => c =? 47 | [] => false end.

Definition os_path_join (a b : pystr) : pystr :=
  if starts_with_sep b then b
  else if negb (truthy a) || ends_with_sep a then a ++ b
  else a ++ lit "/" ++ b.

(** [os.path.exists(p)] against a snapshot: the set of existing entries. *)
Definition os_path_exists (fs : gset pystr) (p : pystr) : bool :=
  bool_decide (p ∈ fs).

(** ** [FileHelper.generate_unique_filename] *)

(** The [while os.path.exists(filepath)] loop, on its two variables
    [filepath] and [counter].  [None] means the loop is still running when
    the fuel is used up. *)
Fixpoint unique_loop (fuel : nat) (fs : gset pystr)
    (base_path clean_filename extension : pystr)
    (filepath : pystr) (counter : nat) : option pystr :=
  match fuel with
  | O => None
  | S fuel' =>
      if os_path_exists fs filepath
      then unique_loop fuel' fs base_path clean_filename extension
             (os_path_join base_path
                (clean_filename ++ lit "_" ++ str_of_nat counter ++ extension))
             (S counter)
      else Some filepath
  end.

Section UniquePath.

Variable normalize_NFKD : pystr -> pystr.

Definition generate_unique_filename_fuel (fuel : nat) (fs : gset pystr)
    (base_path filename extension : pystr) : option pystr :=
  let clean_filename := sanitize_filename normalize_NFKD filename 255 in
  let filepath := os_path_join base_path (clean_filename ++ extension) in
  unique_loop fuel fs base_path clean_filename extension filepath 1.

(** The loop body runs at most [size fs] times, so [size fs + 1] tests of
    the loop condition always reach the exit ([generate_unique_filename_total]
    below); the fallback branch is never taken. *)
Definition generate_unique_filename (fs : gset pystr)
    (base_path filename extension : pystr) : pystr :=
  match generate_unique_filename_fuel (S (size fs)) fs
          base_path filename extension with
  | Some filepath => filepath
  | None => []
  end.

End UniquePath.

(** The candidates in the order the loop forms them: [name.ext] first, then
    [name_1.ext], [name_2.ext], ... *)
Definition candidate (base_path clean_filename extension : pystr) (k : nat)
    : pystr :=
  match k with
  | O => os_path_join base_path (clean_filename ++ extension)
  | S _ => os_path_join base_path
             (clean_filename ++ lit "_" ++ str_of_nat k ++ extension)
  end.

(** ** [models/video_info.py] *)

Record VideoInfo := {
  url : pystr;
  title : pystr;
  playlist_title : option pystr;
  duration : option Z;
  upload_date : option Z;
  view_count : option Z;
  thumbnail_url : option pystr
}.

Definition mk_video (u t : string) : VideoInfo :=
  {| url := lit u; title := lit t; playlist_title := None; duration := None;
     upload_date := None; view_count := None; thumbnail_url := None |}.

(** ** Exceptions and results of calls *)

(** The exception classes that occur; all derive from [Exception], and
    [PermissionError] derives from [OSError]. *)
Inductive exn :=
  | OSError
  | PermissionError
  | ValueError
  | TypeError
  | ZeroDivisionError
  | DownloadError
  | OtherException (name : pystr).

Definition is_OSError (e : exn) : bool :=
  match e with OSError | PermissionError => true | _ => false end.

(** What a call does: it returns a value or raises. *)
Inductive outcome (A : Type) :=
  | Returned (a : A)
  | Raised (e : exn).
Arguments Returned {A} a.
Arguments Raised {A} e.

Definition obind {A B} (o : outcome A) (k : A -> outcome B) : outcome B :=
  match o with Returned a => k a | Raised e => Raised e end.

(** ** [app.py]: [_generate_custom_titles] *)

(** The result is [Some names] for a returned list and [None] for Python's
    [None], which is what a call returns when control reaches the end of the
    body.  The function has no [raise]. *)
Definition _generate_custom_titles (videos : list VideoInfo)
    (naming_method : pystr) (custom_prefix : option pystr)
    : outcome (option (list pystr)) :=
  if decide (naming_method = lit "Original Video Titles")
  then Returned (Some (map title videos))
  else if decide (naming_method = lit "Custom Prefix")
  then let prefix := or_else custom_prefix (lit "audio") in
       Returned (Some (map (fun i => prefix ++ lit "_" ++ str_of_nat (i + 1))
                           (seq 0 (length videos))))
  else if decide (naming_method = lit "Numbered Sequence")
  then Returned (Some (map (fun i => lit "track_" ++ str_of_nat (i + 1))
                           (seq 0 (length videos))))
  else Returned None.

(** ** [ui/progress_tracking.py]: [create_download_summary] *)

Record Summary := {
  total_videos : nat;
  successful_count : nat;
  failed_count : nat;
  success_rate : Q;
  successful_videos : list pystr;
  failed_videos : list pystr
}.

(** [a / b] on [int]s: true division, [ZeroDivisionError] for [b = 0].  The
    quotient is kept exact (a rational) where Python rounds to a float. *)
Definition py_truediv (a b : nat) : outcome Q :=
  if Nat.eqb b 0 then Raised ZeroDivisionError
  else Returned (inject_Z (Z.of_nat a) / inject_Z (Z.of_nat b))%Q.

Definition create_download_summary (successful failed : list VideoInfo)
    : outcome Summary :=
  let total := (length successful + length failed)%nat in
  obind (py_truediv (length successful) (length successful + length failed))
    (fun ratio =>
       Returned {| total_videos := total;
                   successful_count := length successful;
                   failed_count := length failed;
                   success_rate := (ratio * 100)%Q;
                   successful_videos := map title successful;
                   failed_videos := map title failed |}).

(** ** The world of a download: files on disk and engine invocations *)

(** [fs] is the set of existing filesystem entries; [ydl_calls] records, in
    order, every invocation of the engine as (source URL, output template). *)
Record World := {
  fs : gset pystr;
  ydl_calls : list (pystr * pystr)
}.

(** A call that reads and writes the world, and returns or raises. *)
Definition Py (A : Type) : Type := World -> outcome A * World.

Definition ret {A} (a : A) : Py A := fun w => (Returned a, w).

Definition raise {A} (e : exn) : Py A := fun w => (Raised e, w).

Definition bind {A B} (c : Py A) (k : A -> Py B) : Py B :=
  fun w =>
    match c w with
    | (Returned a, w') => k a w'
    | (Raised e, w') => (Raised e, w')
    end.

Notation "'let!' x ':=' c 'in' k" := (bind c (fun x => k))
  (at level 10, x name, c at level 200, k at level 200).

(** [try: body  except <classes matching catches> as e: handler(e)]. *)
Definition try_except {A} (body : Py A) (catches : exn -> bool)
    (handler : exn -> Py A) : Py A :=
  fun w =>
    match body w with
    | (Returned a, w') => (Returned a, w')
    | (Raised e, w') => if catches e then handler e w' else (Raised e, w')
    end.

(** [except Exception]: every class of [exn] derives from [Exception]. *)
Definition any_Exception (e : exn) : bool := true.

Definition get_fs : Py (gset pystr) := fun w => (Returned (fs w), w).

(** [services/audio_downloader.py]: the fields of an [AudioDownloader] that
    the download path reads ([preferredcodec] and [preferredquality] sit in
    [ydl_opts['postprocessors'][0]]). *)
Record AudioDownloader := {
  output_dir : pystr;
  preferredcodec : pystr;
  preferredquality : pystr
}.

Section Downloads.

Variable normalize_NFKD : pystr -> pystr.

(** [os.makedirs(path, exist_ok=True)]: the entries afterwards, and the
    exception raised, if any. *)
Variable os_makedirs : gset pystr -> pystr -> gset pystr * option exn.

(** [yt_dlp.YoutubeDL(opts).download([url])] with the post-processor set to
    [codec] at [quality] and the output template [outtmpl]: the entries
    afterwards, and the exception raised, if any. *)
Variable ydl_download :
  gset pystr -> pystr -> pystr -> pystr -> pystr -> gset pystr * option exn.

Definition makedirs (path : pystr) : Py unit :=
  fun w =>
    match os_makedirs (fs w) path with
    | (fs', None) => (Returned tt, {| fs := fs'; ydl_calls := ydl_calls w |})
    | (fs', Some e) => (Raised e, {| fs := fs'; ydl_calls := ydl_calls w |})
    end.

(** [FileHelper.create_directory]. *)
Definition create_directory (path : pystr) : Py bool :=
  try_except (let! made := makedirs path in ret true)
             is_OSError
             (fun _ => ret false).

(** The [with yt_dlp.YoutubeDL(self.ydl_opts) as ydl: ydl.download([url])]
    block, [ydl_opts['outtmpl']] having been set to [outtmpl]. *)
Definition YoutubeDL_download (dl : AudioDownloader) (outtmpl source : pystr)
    : Py unit :=
  fun w =>
    let calls := ydl_calls w ++ [(source, outtmpl)] in
    match ydl_download (fs w) (preferredcodec dl) (preferredquality dl)
            outtmpl source with
    | (fs', None) => (Returned tt, {| fs := fs'; ydl_calls := calls |})
    | (fs', Some e) => (Raised e, {| fs := fs'; ydl_calls := calls |})
    end.

(** The directory [download_audio] writes to. *)
Definition target_dir (dl : AudioDownloader) (playlist_folder : option pystr)
    : pystr :=
  match playlist_folder with
  | Some folder =>
      if truthy folder then os_path_join (output_dir dl) folder
      else output_dir dl
  | None => output_dir dl
  end.

(** The body of the [try] of [download_audio]. *)
Definition download_audio_try (dl : AudioDownloader) (video : VideoInfo)
    (custom_title playlist_folder : option pystr) : Py (option pystr) :=
  let output_dir := target_dir dl playlist_folder in
  let! created := create_directory output_dir in
  let filename := or_else custom_title (title video) in
  let sanitized_filename := sanitize_filename normalize_NFKD filename 255 in
  let! snapshot := get_fs in
  let filepath :=
    generate_unique_filename normalize_NFKD snapshot output_dir
      sanitized_filename (lit "." ++ preferredcodec dl) in
  let! finished := YoutubeDL_download dl filepath (url video) in
  let! after := get_fs in
  if os_path_exists after filepath then ret (Some filepath) else ret None.

(** [AudioDownloader.download_audio]; the handler only logs. *)
Definition download_audio (dl : AudioDownloader) (video : VideoInfo)
    (custom_title playlist_folder : option pystr) : Py (option pystr) :=
  try_except (download_audio_try dl video custom_title playlist_folder)
             any_Exception
             (fun _ => ret None).

(** The [for video, title in zip(videos, custom_titles)] loop of
    [batch_download], on the list of pairs. *)
Fixpoint batch_download_loop (dl : AudioDownloader)
    (pairs : list (VideoInfo * pystr)) (playlist_folder : option pystr)
    (downloaded_files : list pystr) : Py (list pystr) :=
  match pairs with
  | [] => ret downloaded_files
  | (video, title) :: rest =>
      let! filepath := download_audio dl video (Some title) playlist_folder in
      batch_download_loop dl rest playlist_folder
        (match filepath with
         | Some p => if truthy p then downloaded_files ++ [p]
                     else downloaded_files
         | None => downloaded_files
         end)
  end.

(** [AudioDownloader.batch_download]. *)
Definition batch_download (dl : AudioDownloader) (videos : list VideoInfo)
    (custom_titles : option (list pystr)) (playlist_folder : option pystr)
    : Py (list pystr) :=
  let custom_titles :=
    match custom_titles with
    | Some (t :: ts) => t :: ts
    | _ => map title videos
    end in
  let custom_titles := firstn (length videos) custom_titles in
  batch_download_loop dl (combine videos custom_titles) playlist_folder [].

(** *** What a call of [download_audio] goes through *)

(** The entries after [create_directory], and whether [os.makedirs] raised
    something that [create_directory] does not catch. *)
Definition entries_after_makedirs (dl : AudioDownloader)
    (playlist_folder : option pystr) (w : World) : gset pystr :=
  fst (os_makedirs (fs w) (target_dir dl playlist_folder)).

Definition makedirs_escapes (dl : AudioDownloader)
    (playlist_folder : option pystr) (w : World) : bool :=
  match snd (os_makedirs (fs w) (target_dir dl playlist_folder)) with
  | Some e => negb (is_OSError e)
  | None => false
  end.

(** The path resolved for the item: the expected output file. *)
Definition expected_path (dl : AudioDownloader) (video : VideoInfo)
    (custom_title playlist_folder : option pystr) (w : World) : pystr :=
  generate_unique_filename normalize_NFKD
    (entries_after_makedirs dl playlist_folder w)
    (target_dir dl playlist_folder)
    (sanitize_filename normalize_NFKD (or_else custom_title (title video)) 255)
    (lit "." ++ preferredcodec dl).

(** The exception the engine raises on that path, if any. *)
Definition engine_error (dl : AudioDownloader) (video : VideoInfo)
    (custom_title playlist_folder : option pystr) (w : World) : option exn :=
  snd (ydl_download (entries_after_makedirs dl playlist_folder w)
         (preferredcodec dl) (preferredquality dl)
         (expected_path dl video custom_title playlist_folder w) (url video)).

(** [downloader.download_audio(video, custom_title=title)], as [app.py]
    calls it: [playlist_folder] takes its default. *)
Definition download_audio_titled (dl : AudioDownloader) (video : VideoInfo)
    (custom_title : option pystr) : Py (option pystr) :=
  download_audio dl video custom_title None.

End Downloads.

(** ** [app.py]: the download loop of [_perform_download] *)

Section PerformDownload.

(** [downloader.download_audio(video, custom_title=title)]: the loop is
    written against whatever the downloader object does, raising
    included. *)
Variable downloader_download_audio :
  VideoInfo -> option pystr -> Py (option pystr).

(** The [for video, title in zip(videos, custom_titles)] loop, on the list
    of pairs, with its two accumulators. *)
Fixpoint perform_download_loop (pairs : list (VideoInfo * pystr))
    (successful_videos failed_videos : list VideoInfo)
    : Py (list VideoInfo * list VideoInfo) :=
  match pairs with
  | [] => ret (successful_videos, failed_videos)
  | (video, title) :: rest =>
      let! ok := try_except
              (let! download_result := downloader_download_audio video (Some title) in
               ret (truthy_opt download_result))
              any_Exception
              (fun _ => ret false) in
      if ok : bool
      then perform_download_loop rest (successful_videos ++ [video]) failed_videos
      else perform_download_loop rest successful_videos (failed_videos ++ [video])
  end.

(** [zip(videos, custom_titles)]: [None] is not iterable. *)
Definition zip_titles (videos : list VideoInfo)
    (custom_titles : option (list pystr)) : Py (list (VideoInfo * pystr)) :=
  match custom_titles with
  | Some titles => ret (combine videos titles)
  | None => raise TypeError
  end.

End PerformDownload.

(** ** Sample collaborators for the worked examples *)

(** A directory creation that always succeeds. *)
Definition makedirs_ok (fs : gset pystr) (path : pystr)
    : gset pystr * option exn :=
  (fs ∪ {[ path ]}, None).

(** An engine that writes the output file and reports no error. *)
Definition engine_ok (fs : gset pystr) (codec quality outtmpl source : pystr)
    : gset pystr * option exn :=
  (fs ∪ {[ outtmpl ]}, None).

(** An engine that writes the output file and then raises (a post-processing
    fault after the file is on disk). *)
Definition engine_late_fault (fs : gset pystr)
    (codec quality outtmpl source : pystr) : gset pystr * option exn :=
  (fs ∪ {[ outtmpl ]}, Some DownloadError).

(** An engine that fails on one source URL and succeeds on the others. *)
Definition engine_failing_on (bad : pystr) (fs : gset pystr)
    (codec quality outtmpl source : pystr) : gset pystr * option exn :=
  if decide (source = bad) then (fs, Some DownloadError)
  else (fs ∪ {[ outtmpl ]}, None).

(** An engine that reports no error and writes nothing. *)
Definition engine_silent (fs : gset pystr)
    (codec quality outtmpl source : pystr) : gset pystr * option exn :=
  (fs, None).

Definition mp3_downloader : AudioDownloader :=
  {| output_dir := lit "out"; preferredcodec := lit "mp3";
     preferredquality := lit "192" |}.

Definition empty_world : World := {| fs := ∅; ydl_calls := [] |}.

Definition three_videos : list VideoInfo :=
  [mk_video "u1" "one"; mk_video "u2" "two"; mk_video "u3" "three"].

(** ** Predicates used in the statements *)

(** A downloader whose [download_audio] lets an exception escape for one
    source URL and returns the title as path for the others. *)
Definition raising_downloader (bad : pystr) (video : VideoInfo)
    (custom_title : option pystr) : Py (option pystr) :=
  fun w =>
    if decide (url video = bad) then (Raised DownloadError, w)
    else (Returned (Some (or_else custom_title (title video))), w).

(** The items of [videos] whose outcome flag is [b], in order. *)
Definition picked (b : bool) (flags : list bool) (videos : list VideoInfo)
    : list VideoInfo :=
  map fst (List.filter (fun p => Bool.eqb (snd p) b) (combine videos flags)).

(** The titles [batch_download] pairs with the items: the given ones, or the
    items' own titles when none are given. *)
Definition effective_titles (videos : list VideoInfo)
    (custom_titles : option (list pystr)) : list pystr :=
  match custom_titles with
  | Some (t :: ts) => t :: ts
  | _ => map title videos
  end.

(** [os.makedirs] fails with [OSError] (or a subclass) only. *)
Definition makedirs_OSError_only
    (os_makedirs : gset pystr -> pystr -> gset pystr * option exn) : Prop :=
  forall fs path e, snd (os_makedirs fs path) = Some e -> is_OSError e = true.


(** What [os.path.join] puts in front of a relative name. *)
Definition join_prefix (a : pystr) : pystr :=
  if negb (truthy a) || ends_with_sep a then a else a ++ lit "/".

(** The text after the substitutions and the strip of [sanitize_filename],
    before the truncation. *)
Definition transformed (normalize_NFKD : pystr -> pystr) (filename : pystr)
    : pystr :=
  strip dot_or_space
    (sub_spaces (sub_problematic (encode_ascii_ignore (normalize_NFKD filename)))).

(** The safe character set: letters, digits, hyphen, underscore, period,
    space. *)
Definition safe_char (c : N) : bool :=
  is_upper c || is_lower c || is_digit c
  || (c =? 45) || (c =? 95) || (c =? 46) || (c =? 32).

(** An ASCII character that the substitution replaces. *)
Definition problematic (c : N) : bool := (c <? 128) && negb (re_kept c).

(** No whitespace other than single spaces; [prev_space] tells that the
    character before was a space. *)
Fixpoint single_spaced (prev_space : bool) (s : pystr) : bool :=
  match s with
  | [] => true
  | c :: r =>
      if re_space c
      then (c =? 32) && negb prev_space && single_spaced true r
      else single_spaced false r
  end.

(** The first character, if any, does not satisfy [p]. *)
Definition head_free (p : N -> bool) (s : pystr) : bool :=
  match s with c :: _ => negb (p c) | [] => true end.

(** The normalizer leaves ASCII text alone (ASCII characters have no
    decomposition). *)
Definition NFKD_fixes_ascii (normalize_NFKD : pystr -> pystr) : Prop :=
  forall s, Forall (fun c => c < 128) s -> normalize_NFKD s = s.

(** Collaborators that never remove an entry. *)
Definition makedirs_keeps_entries
    (os_makedirs : gset pystr -> pystr -> gset pystr * option exn) : Prop :=
  forall fs path, fs ⊆ fst (os_makedirs fs path).

Definition engine_keeps_entries
    (ydl_download : gset pystr -> pystr -> pystr -> pystr -> pystr
                    -> gset pystr * option exn) : Prop :=
  forall fs codec quality outtmpl source,
    fs ⊆ fst (ydl_download fs codec quality outtmpl source).

(** The collision suffix of the [k]-th candidate. *)
Definition collision_suffix (k : nat) : pystr :=
  match k with O => [] | S _ => lit "_" ++ str_of_nat k end.

(** ** [models/video_info.py]: [clean_filename], [get_sanitized_title] *)

(** [\s] for a [str] pattern on arbitrary text: the code points Python
    counts as whitespace. *)
Definition unicode_space (c : N) : bool :=
  between 9 13 c || between 28 32 c || (c =? 133) || (c =? 160)
  || (c =? 5760) || between 8192 8202 c || (c =? 8232) || (c =? 8233)
  || (c =? 8239) || (c =? 8287) || (c =? 12288).

(** The class of the first substitution in [clean_filename]: backslash,
    slash, asterisk, question mark, colon, double quote, the two angle
    brackets, bar. *)
Definition invalid_filename_char (c : N) : bool :=
  (c =? 92) || (c =? 47) || (c =? 42) || (c =? 63) || (c =? 58)
  || (c =? 34) || (c =? 60) || (c =? 62) || (c =? 124).

(** [re.sub(<class>, "", s)] for a one-character class. *)
Definition remove_chars (p : N -> bool) (s : pystr) : pystr :=
  List.filter (fun c => negb (p c)) s.

(** [re.sub(<class>+, <rep>, s)]: every maximal run of characters of the
    class becomes one [rep]. *)
Fixpoint sub_runs_from (p : N -> bool) (rep : N) (in_run : bool) (s : pystr)
    : pystr :=
  match s with
  | [] => []
  | c :: r =>
      if p c
      then (if in_run then sub_runs_from p rep true r
            else rep :: sub_runs_from p rep true r)
      else c :: sub_runs_from p rep false r
  end.

Definition sub_runs (p : N -> bool) (rep : N) (s : pystr) : pystr :=
  sub_runs_from p rep false s.

Definition unnamed_video : pystr := lit "unnamed_video".

(** [VideoInfo.clean_filename]: here the truncation comes before the
    strip. *)
Definition clean_filename (title : pystr) (max_length : Z) : pystr :=
  let cleaned_title := remove_chars invalid_filename_char title in
  let cleaned_title := sub_runs unicode_space 95 cleaned_title in
  let cleaned_title := slice_to max_length cleaned_title in
  let cleaned_title := strip dot_or_space cleaned_title in
  if truthy cleaned_title then cleaned_title else unnamed_video.

Definition is_underscore (c : N) : bool := c =? 95.

(** [VideoInfo.get_sanitized_title]. *)
Definition get_sanitized_title (video : VideoInfo) (prefix suffix : pystr)
    : pystr :=
  let base_title := clean_filename (title video) 255 in
  let full_title :=
    strip is_underscore (prefix ++ lit "_" ++ base_title ++ lit "_" ++ suffix) in
  clean_filename full_title 255.

(** ** [services/youtube_extractor.py]: [_convert_duration] *)

(** [str(z)] / the [{z}] field of an f-string, for an [int]. *)
Definition str_of_int (z : Z) : pystr := lit (pretty z).

(** [sep.join(parts)]. *)
Fixpoint str_join (sep : pystr) (parts : list pystr) : pystr :=
  match parts with
  | [] => []
  | [p] => p
  | p :: rest => p ++ sep ++ str_join sep rest
  end.

(** [parts.append(f"{value}{unit}")] under [if value > 0]. *)
Definition append_part (parts : list pystr) (value : Z) (unit : string)
    : list pystr :=
  if (0 <? value)%Z then parts ++ [str_of_int value ++ lit unit] else parts.

(** [divmod] is floor division and its remainder, as [Z.div] and [Z.modulo]
    are for a positive divisor. *)
Definition _convert_duration (duration : option Z) : option pystr :=
  match duration with
  | None => None
  | Some d =>
      if (d =? 0)%Z then None
      else
        let hours := (d / 3600)%Z in
        let remainder := (d mod 3600)%Z in
        let minutes := (remainder / 60)%Z in
        let seconds := (remainder mod 60)%Z in
        let parts := [] in
        let parts := append_part parts hours "h" in
        let parts := append_part parts minutes "m" in
        let parts := append_part parts seconds "s" in
        Some (match parts with
              | [] => lit "0s"
              | _ :: _ => str_join (lit " ") parts
              end)
  end.

(** ** [utils/url_validator.py] *)

(** Whether the character [c] matches the pattern character [l] (a lower
    case letter or a punctuation mark) under [re.IGNORECASE] in a [str]
    pattern: [c] is [l], or its upper case, or one of the letters the engine
    treats as the same letter: dotted capital I (U+0130) and dotless i
    (U+0131) for [i], long s (U+017F) for [s], the Kelvin sign (U+212A) for
    [k]. *)
Definition ci_match (l c : N) : bool :=
  (c =? l) || (is_lower l && (c =? l - 32))
  || ((l =? 105) && ((c =? 304) || (c =? 305)))
  || ((l =? 115) && (c =? 383))
  || ((l =? 107) && (c =? 8490)).

(** A sequence of pattern characters matched at the start of [s]: the rest
    of [s] after the match. *)
Fixpoint match_chars (eq : N -> N -> bool) (pat s : pystr) : option pystr :=
  match pat with
  | [] => Some s
  | l :: pat' =>
      match s with
      | c :: s' => if eq l c then match_chars eq pat' s' else None
      | [] => None
      end
  end.

(** [https?\:\/\/] at the start of [s]: the optional [s] is tried first. *)
Definition match_scheme (s : pystr) : option pystr :=
  match match_chars ci_match (lit "http") s with
  | None => None
  | Some r =>
      match (match r with
             | c :: r' =>
                 if ci_match 115 c then match_chars ci_match (lit "://") r'
                 else None
             | [] => None
             end) with
      | Some rest => Some rest
      | None => match_chars ci_match (lit "://") r
      end
  end.

(** The second and third group of a pattern, at the start of [s]: the
    literal, then at least one character outside the excluded set. *)
Definition match_tail (literal : pystr) (excluded : N -> bool) (s : pystr)
    : bool :=
  match match_chars ci_match literal s with
  | Some (c :: _) => negb (excluded c)
  | _ => false
  end.

(** [re.match(pattern, url, re.IGNORECASE)] as a truth value, for a pattern
    [^(https?\:\/\/)?(<literal>)([^<excluded>]+)]: with the scheme, or,
    failing that, without. *)
Definition re_match_url (literal : pystr) (excluded : N -> bool) (url : pystr)
    : bool :=
  match match_scheme url with
  | Some rest => match_tail literal excluded rest
  | None => false
  end
  || match_tail literal excluded url.

Definition is_amp (c : N) : bool := c =? 38.
Definition is_amp_or_question (c : N) : bool := (c =? 38) || (c =? 63).
Definition is_amp_or_slash (c : N) : bool := (c =? 38) || (c =? 47).

(** [YOUTUBE_PATTERNS], in the order of the dict. *)
Definition YOUTUBE_PATTERNS : list (string * (pystr * (N -> bool))) :=
  [ ("standard_video", (lit "www.youtube.com/watch?v=", is_amp));
    ("shortened_video", (lit "youtu.be/", is_amp_or_question));
    ("playlist", (lit "www.youtube.com/playlist?list=", is_amp));
    ("channel", (lit "www.youtube.com/channel/", is_amp_or_slash)) ].

Definition matches_pattern (pattern : pystr * (N -> bool)) (url : pystr)
    : bool :=
  re_match_url (fst pattern) (snd pattern) url.

Definition validate_youtube_url (url : pystr) : bool :=
  if negb (truthy url) then false
  else existsb (fun entry => matches_pattern (snd entry) url) YOUTUBE_PATTERNS.

Definition is_playlist_url (url : pystr) : bool :=
  matches_pattern (lit "www.youtube.com/playlist?list=", is_amp) url.

Definition is_channel_url (url : pystr) : bool :=
  matches_pattern (lit "www.youtube.com/channel/", is_amp_or_slash) url.

(** The longest prefix of [s] outside [excluded]. *)
Fixpoint take_outside (excluded : N -> bool) (s : pystr) : pystr :=
  match s with
  | [] => []
  | c :: r => if excluded c then [] else c :: take_outside excluded r
  end.

(** [re.search(<pat>([^<excluded>]+), s)]: group 1 of the leftmost match,
    if there is a match (no flag: the characters of [pat] are matched as
    they are). *)
Fixpoint re_search_group (pat : pystr) (excluded : N -> bool) (s : pystr)
    : option pystr :=
  match s with
  | [] => None
  | _ :: r =>
      match match_chars N.eqb pat s with
      | Some (d :: rest) =>
          if excluded d then re_search_group pat excluded r
          else Some (take_outside excluded (d :: rest))
      | _ => re_search_group pat excluded r
      end
  end.

Definition extract_video_id (url : pystr) : option pystr :=
  if negb (validate_youtube_url url) then None
  else
    match re_search_group (lit "v=") is_amp url with
    | Some id => Some id
    | None =>
        match re_search_group (lit "youtu.be/") is_amp_or_question url with
        | Some id => Some id
        | None => re_search_group (lit "embed/") is_amp_or_question url
        end
    end.

(** [re.sub(r'&.*', '', url)]: from every ampersand to the end of its line
    ([.] does not match a newline).  [skipping] tells that an ampersand has
    been seen on the current line. *)
Fixpoint sub_amp_from (skipping : bool) (s : pystr) : pystr :=
  match s with
  | [] => []
  | c :: r =>
      if skipping
      then (if c =? 10 then c :: sub_amp_from false r else sub_amp_from true r)
      else (if c =? 38 then sub_amp_from true r else c :: sub_amp_from false r)
  end.

(** [s.startswith(prefix)]. *)
Definition startswith (prefix s : pystr) : bool :=
  match match_chars N.eqb prefix s with Some _ => true | None => false end.

Definition sanitize_url (url : pystr) : option pystr :=
  if negb (validate_youtube_url url) then None
  else
    let cleaned_url := sub_amp_from false url in
    if negb (startswith (lit "http://") cleaned_url
             || startswith (lit "https://") cleaned_url)
    then Some (lit "https://" ++ cleaned_url)
    else Some cleaned_url.

(** ** [services/youtube_extractor.py] and [app.py]: which videos *)

(** [YouTubeExtractor.get_channel_videos]: both paths return the empty list;
    they differ in what they log. *)
Definition get_channel_videos (channel_url : pystr) : Py (list VideoInfo) :=
  if negb (is_channel_url channel_url) then ret []
  else ret [].

Section ExtractVideos.

(** [extract_playlist_videos] and [extract_video_info] run yt-dlp and read
    its dictionaries; here they are whatever calls they may be. *)
Variable extract_playlist_videos : pystr -> Py (list VideoInfo).
Variable extract_video_info : pystr -> Py (option VideoInfo).

(** [YouTubeAudioDownloaderApp._extract_videos]. *)
Definition _extract_videos (url : pystr) : Py (list VideoInfo) :=
  if is_playlist_url url then extract_playlist_videos url
  else if is_channel_url url then get_channel_videos url
  else
    let! video := extract_video_info url in
    ret (match video with Some v => [v] | None => [] end).

End ExtractVideos.

(** A pattern character: ASCII, not an upper-case letter. *)
Definition pattern_char (l : N) : bool := (l <? 128) && negb (is_upper l).

(** Two pattern texts that differ at some position before either ends. *)
Fixpoint clash (p q : pystr) : bool :=
  match p, q with
  | a :: p', b :: q' =>
      if a =? b then clash p' q' else pattern_char a && pattern_char b
  | _, _ => false
  end.

(** What the statements need of a pattern: no ampersand in the literal, the
    ampersand excluded after it, and a literal that cannot be taken for the
    scheme. *)
Definition pattern_ok (pattern : pystr * (N -> bool)) : bool :=
  forallb (fun l => negb (l =? 38) && pattern_char l) (fst pattern)
  && snd pattern 38
  && clash (lit "http") (fst pattern).

(** ** [ui/progress_tracking.py]: the tracker and its worker *)

(** [queue.Empty], raised by [get(timeout=1)] on a queue that stays empty. *)
Definition queue_Empty : exn := OtherException (lit "queue.Empty").

Definition is_queue_Empty (e : exn) : bool :=
  match e with
  | OtherException name => bool_decide (name = lit "queue.Empty")
  | _ => false
  end.

Module ProgressTracker.

(** The counters and the stop flag of a [DownloadProgressTracker];
    [unfinished_tasks] is the count the queue keeps for [join]: one up for
    every [put], one down for every [task_done]. *)
Record t := {
  total_videos : nat;
  current_video : nat;
  successful_downloads : nat;
  failed_downloads : nat;
  unfinished_tasks : nat;
  stop_event : bool
}.

(** [DownloadProgressTracker(total_videos)]. *)
Definition init (total : nat) : t :=
  {| total_videos := total; current_video := 0; successful_downloads := 0;
     failed_downloads := 0; unfinished_tasks := 0; stop_event := false |}.

Definition step_current (tr : t) : t :=
  {| total_videos := total_videos tr;
     current_video := S (current_video tr);
     successful_downloads := successful_downloads tr;
     failed_downloads := failed_downloads tr;
     unfinished_tasks := unfinished_tasks tr;
     stop_event := stop_event tr |}.

Definition count_success (tr : t) : t :=
  {| total_videos := total_videos tr;
     current_video := current_video tr;
     successful_downloads := S (successful_downloads tr);
     failed_downloads := failed_downloads tr;
     unfinished_tasks := unfinished_tasks tr;
     stop_event := stop_event tr |}.

Definition count_failure (tr : t) : t :=
  {| total_videos := total_videos tr;
     current_video := current_video tr;
     successful_downloads := successful_downloads tr;
     failed_downloads := S (failed_downloads tr);
     unfinished_tasks := unfinished_tasks tr;
     stop_event := stop_event tr |}.

(** [self.download_queue.task_done()]. *)
Definition task_done (tr : t) : t :=
  {| total_videos := total_videos tr;
     current_video := current_video tr;
     successful_downloads := successful_downloads tr;
     failed_downloads := failed_downloads tr;
     unfinished_tasks := pred (unfinished_tasks tr);
     stop_event := stop_event tr |}.

(** [self.stop_event.set()]. *)
Definition set_stop (tr : t) : t :=
  {| total_videos := total_videos tr;
     current_video := current_video tr;
     successful_downloads := successful_downloads tr;
     failed_downloads := failed_downloads tr;
     unfinished_tasks := unfinished_tasks tr;
     stop_event := true |}.

(** [add_download_task]: one [put] on the queue. *)
Definition add_download_task (queue : list (option VideoInfo)) (tr : t)
    (video : option VideoInfo) : list (option VideoInfo) * t :=
  (queue ++ [video],
   {| total_videos := total_videos tr;
      current_video := current_video tr;
      successful_downloads := successful_downloads tr;
      failed_downloads := failed_downloads tr;
      unfinished_tasks := S (unfinished_tasks tr);
      stop_event := stop_event tr |}).

Section Worker.

(** The Streamlit calls of [_update_progress] (progress bar, status text,
    details), given the counter, the total, the title, the success flag and
    the error: the exception they raise, if any. *)
Variable st_update : nat -> nat -> pystr -> bool -> option exn -> option exn.

(** The function handed to [start_download]. *)
Variable download_func : VideoInfo -> Py (option pystr).

(** [_update_progress]: the counter goes up first, then comes the division
    [current_video / total_videos], then the display. *)
Definition _update_progress (tr : t) (video_title : pystr) (success : bool)
    (error : option exn) : outcome unit * t :=
  let tr := step_current tr in
  if Nat.eqb (total_videos tr) 0 then (Raised ZeroDivisionError, tr)
  else
    match st_update (current_video tr) (total_videos tr) video_title success
            error with
    | Some e => (Raised e, tr)
    | None => (Returned tt, tr)
    end.

(** One task of the worker: the inner [try] / [except Exception] /
    [finally]. *)
Definition run_task (video : VideoInfo) (tr : t) (w : World)
    : outcome unit * t * World :=
  let '(result, w1) := download_func video w in
  let '(tried, tr1) :=
    match result with
    | Returned r =>
        if truthy_opt r
        then _update_progress (count_success tr) (title video) true None
        else _update_progress (count_failure tr) (title video) false None
    | Raised e => (Raised e, tr)
    end in
  let '(handled, tr2) :=
    match tried with
    | Returned _ => (Returned tt, tr1)
    | Raised e =>
        _update_progress (count_failure tr1) (title video) false (Some e)
    end in
  (handled, task_done tr2, w1).

(** The [while not self.stop_event.is_set()] loop on a queue that nobody
    fills meanwhile: [get] on the empty queue raises [queue.Empty], the
    [None] entry leaves the loop, an exception escaping a task ends it. *)
Fixpoint worker_loop (download_queue : list (option VideoInfo)) (tr : t)
    (w : World) : outcome unit * (list (option VideoInfo) * t * World) :=
  if stop_event tr then (Returned tt, (download_queue, tr, w))
  else
    match download_queue with
    | [] => (Raised queue_Empty, ([], tr, w))
    | None :: rest => (Returned tt, (rest, tr, w))
    | Some video :: rest =>
        match run_task video tr w with
        | (Returned _, tr', w') => worker_loop rest tr' w'
        | (Raised e, tr', w') => (Raised e, (rest, tr', w'))
        end
    end.

(** [_download_worker]: [queue.Empty] is swallowed, and the stop flag is
    set in any case. *)
Definition _download_worker (download_queue : list (option VideoInfo))
    (tr : t) (w : World)
    : outcome unit * (list (option VideoInfo) * t * World) :=
  match worker_loop download_queue tr w with
  | (res, (queue', tr', w')) =>
      (match res with
       | Raised e => if is_queue_Empty e then Returned tt else Raised e
       | Returned _ => Returned tt
       end,
       (queue', set_stop tr', w'))
  end.

End Worker.

End ProgressTracker.

(** A display that never fails. *)
Definition st_update_ok (current total : nat) (video_title : pystr)
    (success : bool) (error : option exn) : option exn := None.

(** A display that rejects a progress value above 1. *)
Definition st_update_bounded (current total : nat) (video_title : pystr)
    (success : bool) (error : option exn) : option exn :=
  if (total <? current)%nat then Some (OtherException (lit "StreamlitAPIException"))
  else None.

(** The counters of [tr'] continue those of [tr]: the total and the stop
    flag are the same, no counter went down, and the item counter went up
    by as much as successes and failures together. *)
Definition continues (tr tr' : ProgressTracker.t) : Prop :=
  ProgressTracker.total_videos tr' = ProgressTracker.total_videos tr
  /\ ProgressTracker.stop_event tr' = ProgressTracker.stop_event tr
  /\ (ProgressTracker.current_video tr <= ProgressTracker.current_video tr')%nat
  /\ (ProgressTracker.successful_downloads tr <= ProgressTracker.successful_downloads tr')%nat
  /\ (ProgressTracker.failed_downloads tr <= ProgressTracker.failed_downloads tr')%nat
  /\ (ProgressTracker.current_video tr' + ProgressTracker.successful_downloads tr + ProgressTracker.failed_downloads tr
      = ProgressTracker.current_video tr + ProgressTracker.successful_downloads tr' + ProgressTracker.failed_downloads tr')%nat.

(** A download function that raises for the source [u2] and returns the
    title as path for the others. *)
Definition sample_download_func (video : VideoInfo) : Py (option pystr) :=
  raising_downloader (lit "u2") video None.

(** ** [FileHelper.cleanup_temp_files] *)

(** [s.endswith(suffix)]. *)
Definition endswith (suffix s : pystr) : bool :=
  startswith (rev suffix) (rev s).

(** [any(filename.endswith(ext) for ext in file_extensions)]. *)
Definition has_extension (file_extensions : list pystr) (filename : pystr)
    : bool :=
  existsb (fun ext => endswith ext filename) file_extensions.

Section Cleanup.

(** [os.listdir(directory)]: the names, or the exception raised. *)
Variable os_listdir : gset pystr -> pystr -> outcome (list pystr).

(** [os.path.getmtime(path)]: the time of the last change, or the exception
    raised.  Times are exact rationals where Python has floats. *)
Variable os_getmtime : gset pystr -> pystr -> outcome Q.

(** [os.remove(path)]: the exception raised, if any; otherwise the entry is
    gone. *)
Variable os_remove_error : gset pystr -> pystr -> option exn.

(** The [for filename in os.listdir(directory)] loop, with its two counters.
    An exception of [os.path.getmtime] is not caught; one of [os.remove] is
    (the file then does not count as deleted). *)
Fixpoint cleanup_loop (directory : pystr) (current_time : Q)
    (max_age_hours : Z) (file_extensions : list pystr) (names : list pystr)
    (files_checked files_deleted : nat) (fs : gset pystr)
    : outcome (nat * nat) * gset pystr :=
  match names with
  | [] => (Returned (files_checked, files_deleted), fs)
  | filename :: rest =>
      if has_extension file_extensions filename
      then
        let files_checked := S files_checked in
        let filepath := os_path_join directory filename in
        match os_getmtime fs filepath with
        | Raised e => (Raised e, fs)
        | Returned mtime =>
            if Qle_bool (current_time - mtime)
                 (inject_Z (max_age_hours * 3600))
            then cleanup_loop directory current_time max_age_hours
                   file_extensions rest files_checked files_deleted fs
            else
              match os_remove_error fs filepath with
              | None =>
                  cleanup_loop directory current_time max_age_hours
                    file_extensions rest files_checked (S files_deleted)
                    (fs ∖ {[ filepath ]})
              | Some _ =>
                  cleanup_loop directory current_time max_age_hours
                    file_extensions rest files_checked files_deleted fs
              end
        end
      else cleanup_loop directory current_time max_age_hours file_extensions
             rest files_checked files_deleted fs
  end.

(** [FileHelper.cleanup_temp_files]; [current_time] is what [time.time()]
    returned. *)
Definition cleanup_temp_files (directory : pystr) (max_age_hours : Z)
    (file_extensions : list pystr) (current_time : Q) (fs : gset pystr)
    : outcome (nat * nat) * gset pystr :=
  match os_listdir fs directory with
  | Raised e => (Raised e, fs)
  | Returned names =>
      cleanup_loop directory current_time max_age_hours file_extensions
        names 0 0 fs
  end.

End Cleanup.

(** Why an entry may be removed by the cleanup: it is a listed name with one
    of the extensions whose age, at the moment it was looked at, was above
    the limit. *)
Definition removable
    (os_getmtime : gset pystr -> pystr -> outcome Q)
    (directory : pystr) (current_time : Q) (max_age_hours : Z)
    (file_extensions names : list pystr) (p : pystr) : Prop :=
  exists filename fs0 mtime,
    In filename names
    /\ p = os_path_join directory filename
    /\ has_extension file_extensions filename = true
    /\ os_getmtime fs0 p = Returned mtime
    /\ (inject_Z (max_age_hours * 3600) < current_time - mtime)%Q.

(** How many names carry one of the extensions. *)
Definition count_with_extension (file_extensions names : list pystr) : nat :=
  length (List.filter (has_extension file_extensions) names).

(** A directory listing and times for the worked example: the clock reads
    100000; [old.mp3] and [old.txt] were changed at 0, [new.mp3] at 99999. *)
Definition sample_listdir (fs : gset pystr) (directory : pystr)
    : outcome (list pystr) :=
  Returned [lit "old.mp3"; lit "new.mp3"; lit "old.txt"].

Definition sample_getmtime (fs : gset pystr) (path : pystr) : outcome Q :=
  if decide (path = lit "tmp/new.mp3") then Returned (99999 # 1)
  else Returned 0%Q.

Definition sample_remove_ok (fs : gset pystr) (path : pystr) : option exn :=
  None.

Definition sample_directory : gset pystr :=
  {[ lit "tmp/old.mp3"; lit "tmp/new.mp3"; lit "tmp/old.txt" ]}.

(** ** One call for every element, in order *)

(** The calls [call x] made for every element of [xs] in order, each in the
    world the call before has left and whatever that call did (returned or
    raised): what each call did, and the world after the last. *)
Fixpoint call_each {A B : Type} (call : A -> Py B) (xs : list A) (w : World)
    : list (outcome B) * World :=
  match xs with
  | [] => ([], w)
  | x :: rest =>
      let r := call x w in
      let rs := call_each call rest (snd r) in
      (fst r :: fst rs, snd rs)
  end.

(** The call both loops make for a pair: the item under its paired name. *)
Definition download_pair
    (download : VideoInfo -> option pystr -> Py (option pystr))
    (pair : VideoInfo * pystr) : Py (option pystr) :=
  download (fst pair) (Some (snd pair)).

(** A call of the downloader succeeded: it returned a non-empty path. *)
Definition downloaded (r : outcome (option pystr)) : bool :=
  match r with Returned path => truthy_opt path | Raised _ => false end.

(** The non-empty paths among what the calls returned, in order. *)
Definition returned_paths (results : list (outcome (option pystr)))
    : list pystr :=
  flat_map (fun r => match r with
                     | Returned (Some path) =>
                         if truthy path then [path] else []
                     | _ => []
                     end) results.

(** How many of the calls succeeded. *)
Definition count_downloaded (results : list (outcome (option pystr))) : nat :=
  length (List.filter downloaded results).

(** Three videos put on the queue of a fresh tracker, one
    [add_download_task] each. *)
Definition queued_three : list (option VideoInfo) * ProgressTracker.t :=
  fold_left
    (fun q video =>
       ProgressTracker.add_download_task (fst q) (snd q) (Some video))
    three_videos ([], ProgressTracker.init 3).

(** ** [app.py]: [_perform_download] and the end of [run] *)

(** What the code asks the Streamlit page to show, in the order of the
    calls; the calls are taken to display and return.  [st_metric_rate] is
    the metric whose text is the rate formatted with two decimals and a
    percent sign; the rate itself is kept. *)
Inductive Element :=
  | st_error (body : pystr)
  | st_progress (value : nat)
  | st_empty
  | st_expander (label : pystr)
  | st_write (body : pystr)
  | st_metric (label : pystr) (value : nat)
  | st_metric_rate (label : pystr) (rate : Q).

(** The elements that [DownloadProgressTracker.__init__] creates. *)
Definition tracker_elements : list Element :=
  [st_progress 0; st_empty; st_expander (lit "Download Details")].

(** The "Show summary stats" lines of [_perform_download]. *)
Definition summary_elements (summary : Summary) : list Element :=
  [st_write (lit "### Download Summary");
   st_metric (lit "Total Videos") (total_videos summary);
   st_metric (lit "Successful Downloads") (successful_count summary);
   st_metric (lit "Failed Downloads") (failed_count summary);
   st_metric_rate (lit "Success Rate") (success_rate summary)].

Section App.

Variable normalize_NFKD : pystr -> pystr.
Variable os_makedirs : gset pystr -> pystr -> gset pystr * option exn.
Variable ydl_download :
  gset pystr -> pystr -> pystr -> pystr -> pystr -> gset pystr * option exn.

(** [st.text_input(label)]: what the user has typed in the field. *)
Variable st_text_input : pystr -> pystr.

(** [tempfile.mkdtemp()]: the entries afterwards, and the path of the new
    directory or the exception raised. *)
Variable tempfile_mkdtemp : gset pystr -> gset pystr * outcome pystr.

(** [config.TEMP_DOWNLOAD_DIR], a directory made when the module is
    loaded. *)
Variable TEMP_DOWNLOAD_DIR : pystr.

Definition mkdtemp : Py pystr :=
  fun w =>
    (snd (tempfile_mkdtemp (fs w)),
     {| fs := fst (tempfile_mkdtemp (fs w)); ydl_calls := ydl_calls w |}).

(** [_perform_download] from "Initialize downloader" on, [output_dir]
    being determined: the downloader and the tracker are made, the loop
    runs, the summary is computed and shown.  A call returns [None]; what
    it leaves is the page and the world. *)
Definition perform_download_into (output_dir : pystr)
    (videos : list VideoInfo) (custom_titles : option (list pystr))
    (audio_format audio_quality : pystr) (page : list Element) (w : World)
    : outcome unit * (list Element * World) :=
  let downloader :=
    {| output_dir := output_dir; preferredcodec := audio_format;
       preferredquality := audio_quality |} in
  let page := page ++ tracker_elements in
  match (let! pairs := zip_titles videos custom_titles in
         perform_download_loop
           (download_audio_titled normalize_NFKD os_makedirs ydl_download
              downloader) pairs [] []) w with
  | (Raised e, w') => (Raised e, (page, w'))
  | (Returned lists, w') =>
      match create_download_summary (fst lists) (snd lists) with
      | Raised e => (Raised e, (page, w'))
      | Returned summary =>
          (Returned tt, (page ++ summary_elements summary, w'))
      end
  end.

(** [_perform_download]. *)
Definition _perform_download (videos : list VideoInfo)
    (custom_titles : option (list pystr))
    (download_method audio_format audio_quality : pystr)
    (page : list Element) (w : World)
    : outcome unit * (list Element * World) :=
  if decide (download_method = lit "Custom Download Folder")
  then
    let output_dir := st_text_input (lit "Enter download directory path") in
    if negb (truthy output_dir)
    then (Returned tt,
          (page ++ [st_error (lit "Please specify a download directory")], w))
    else perform_download_into output_dir videos custom_titles
           audio_format audio_quality page w
  else
    match (if decide (download_method = lit "Temporary Directory")
           then mkdtemp w else (Returned TEMP_DOWNLOAD_DIR, w)) with
    | (Returned output_dir, w1) =>
        perform_download_into output_dir videos custom_titles
          audio_format audio_quality page w1
    | (Raised e, w1) => (Raised e, (page, w1))
    end.

(** The end of [run], from "Prepare custom titles" on, once
    [confirm_download] has returned [True]: the names are computed and
    handed to [_perform_download]. *)
Definition run_confirmed (selected_videos : list VideoInfo)
    (download_method naming_method : pystr) (custom_prefix : option pystr)
    (audio_format audio_quality : pystr) (page : list Element) (w : World)
    : outcome unit * (list Element * World) :=
  match _generate_custom_titles selected_videos naming_method custom_prefix with
  | Returned custom_titles =>
      _perform_download selected_videos custom_titles download_method
        audio_format audio_quality page w
  | Raised e => (Raised e, (page, w))
  end.

(** [run] is a download of all of [videos] into [output_dir], started in
    the world [w0] and ended with the summary on the page: the downloader
    has been called once for every item under its name, in order, and the
    summary counts the calls that returned a non-empty path as successes
    and the others as failures. *)
Definition finished_download (run : outcome unit * (list Element * World))
    (output_dir : pystr) (videos : list VideoInfo) (titles : list pystr)
    (audio_format audio_quality : pystr) (page : list Element) (w0 : World)
    : Prop :=
  let downloader :=
    {| output_dir := output_dir; preferredcodec := audio_format;
       preferredquality := audio_quality |} in
  let calls :=
    call_each (download_pair
                 (download_audio_titled normalize_NFKD os_makedirs
                    ydl_download downloader))
      (combine videos titles) w0 in
  let ok := count_downloaded (fst calls) in
  exists summary : Summary,
    run = (Returned tt,
           (page ++ tracker_elements ++ summary_elements summary, snd calls))
    /\ total_videos summary = length videos
    /\ successful_count summary = ok
    /\ failed_count summary = (length videos - ok)%nat
    /\ (success_rate summary
        == inject_Z (Z.of_nat ok) / inject_Z (Z.of_nat (length videos)) * 100)%Q
    /\ Permutation (successful_videos summary ++ failed_videos summary)
         (map title videos).

End App.

(** A [tempfile.mkdtemp] that makes [tmp/dl]. *)
Definition mkdtemp_ok (fs : gset pystr) : gset pystr * outcome pystr :=
  (fs ∪ {[ lit "tmp/dl" ]}, Returned (lit "tmp/dl")).

(** A [tempfile.mkdtemp] that fails. *)
Definition mkdtemp_failing (fs : gset pystr) : gset pystr * outcome pystr :=
  (fs, Raised PermissionError).

(** A text field in which nothing was typed, and one holding [music]. *)
Definition text_input_empty (label : pystr) : pystr := [].

Definition text_input_music (label : pystr) : pystr := lit "music".

(** A directory creation that is refused. *)
Definition makedirs_denied (fs : gset pystr) (path : pystr)
    : gset pystr * option exn :=
  (fs, Some PermissionError).

(** * Properties *)

Example sanitize_ex1 :
  sanitize_filename nfkd_latin (lit "a??b") 255 = lit "a__b".
Proof. vm_compute. reflexivity. Qed.

Example sanitize_ex2 :
  sanitize_filename nfkd_latin (lit "  my   song: live!.  ") 255 = lit "my song_ live_".
Proof. vm_compute. reflexivity. Qed.

Example sanitize_ex3 :
  sanitize_filename nfkd_latin (lit "ab cd") 3 = lit "ab ".
Proof. vm_compute. reflexivity. Qed.

Example sanitize_ex4 :
  sanitize_filename nfkd_latin [233; 116; 233] 255 = lit "ete".
Proof. vm_compute. reflexivity. Qed.

Example sanitize_ex5 :
  sanitize_filename nfkd_latin (lit "...") 255 = lit "unnamed_file".
Proof. vm_compute. reflexivity. Qed.

(** ** The sanitizer *)

Lemma re_kept_safe_char c : re_kept c = safe_char c.
Proof.
  unfold re_kept, safe_char, re_word.
  destruct (is_digit c), (is_upper c), (is_lower c),
    (c =? 95), (c =? 45), (c =? 46), (c =? 32); reflexivity.
Qed.

(** Character-class facts reduce to linear arithmetic on the code point. *)
Ltac char_arith :=
  unfold problematic, safe_char, re_kept, re_word, re_space, dot_or_space,
    is_digit, is_upper, is_lower, between in *;
  repeat match goal with
    | H : _ = true |- _ =>
        first [ apply orb_true_iff in H | apply andb_true_iff in H
              | apply N.leb_le in H | apply N.eqb_eq in H
              | apply N.ltb_lt in H | apply negb_true_iff in H ]
    | H : _ = false |- _ =>
        first [ apply orb_false_iff in H | apply andb_false_iff in H
              | apply N.leb_gt in H | apply N.eqb_neq in H
              | apply N.ltb_ge in H | apply negb_false_iff in H ]
    | H : _ /\ _ |- _ => destruct H
    | H : _ \/ _ |- _ => destruct H
    end;
  try lia.

Lemma re_kept_ascii c : re_kept c = true -> c < 128.
Proof. intros H. char_arith. Qed.

Lemma re_kept_space c : re_kept c = true -> re_space c = true -> c = 32.
Proof. intros H1 H2. char_arith. Qed.

Lemma re_word_kept c : re_word c = true -> re_kept c = true.
Proof. intros H. unfold re_kept. rewrite H. reflexivity. Qed.

Lemma re_word_not_space c : re_word c = true -> re_space c = false.
Proof.
  intros H. destruct (re_space c) eqn:E; [exfalso; char_arith | reflexivity].
Qed.

Lemma re_word_not_dot_or_space c : re_word c = true -> dot_or_space c = false.
Proof.
  intros H. destruct (dot_or_space c) eqn:E; [exfalso; char_arith | reflexivity].
Qed.

Lemma problematic_ascii c : problematic c = true -> c < 128.
Proof. intros H. char_arith. Qed.

Lemma sub_problematic_kept s : Forall (fun c => re_kept c = true) (sub_problematic s).
Proof.
  unfold sub_problematic. induction s as [|c r IH]; simpl; constructor; auto.
  destruct (re_kept c) eqn:E; [exact E | reflexivity].
Qed.

Lemma sub_problematic_id s :
  Forall (fun c => re_kept c = true) s -> sub_problematic s = s.
Proof.
  unfold sub_problematic. induction 1 as [|c r Hc _ IH]; simpl; [reflexivity|].
  rewrite Hc. f_equal. exact IH.
Qed.

Lemma sub_problematic_app s t :
  sub_problematic (s ++ t) = sub_problematic s ++ sub_problematic t.
Proof. unfold sub_problematic. apply map_app. Qed.

Lemma sub_problematic_run run :
  Forall (fun c => problematic c = true) run ->
  sub_problematic run = repeat 95 (length run).
Proof.
  unfold sub_problematic, problematic.
  induction 1 as [|c r Hc _ IH]; simpl; [reflexivity|].
  apply andb_true_iff in Hc as [_ Hc]. apply negb_true_iff in Hc.
  rewrite Hc. f_equal. exact IH.
Qed.

Lemma sub_spaces_from_kept b s :
  Forall (fun c => re_kept c = true) s ->
  Forall (fun c => re_kept c = true) (sub_spaces_from b s).
Proof.
  intros H. revert b. induction H as [|c r Hc _ IH]; intros b; simpl.
  - constructor.
  - destruct (re_space c), b; auto.
Qed.

Lemma sub_spaces_from_spaced s : forall b, single_spaced b (sub_spaces_from b s) = true.
Proof.
  induction s as [|c r IH]; intros b; simpl; [reflexivity|].
  destruct (re_space c) eqn:E.
  - destruct b; [apply IH|]. simpl. apply IH.
  - simpl. rewrite E. apply IH.
Qed.

Lemma single_spaced_fix s :
  forall b, single_spaced b s = true -> sub_spaces_from b s = s.
Proof.
  induction s as [|c r IH]; intros b H; simpl in *; [reflexivity|].
  destruct (re_space c).
  - apply andb_true_iff in H as [H Hr]. apply andb_true_iff in H as [Hc Hb].
    apply N.eqb_eq in Hc. destruct b; [discriminate|].
    subst c. f_equal. apply IH, Hr.
  - f_equal. apply IH, H.
Qed.

Lemma single_spaced_weaken s : single_spaced true s = true -> single_spaced false s = true.
Proof.
  destruct s as [|c r]; simpl; [reflexivity|].
  destruct (re_space c); [|trivial].
  rewrite andb_false_r. discriminate.
Qed.

Lemma single_spaced_tail b c r :
  single_spaced b (c :: r) = true -> single_spaced false r = true.
Proof.
  simpl. destruct (re_space c); [|trivial].
  intros H. apply andb_true_iff in H as [_ H]. apply single_spaced_weaken, H.
Qed.

Lemma single_spaced_prefix s t :
  forall b, single_spaced b (s ++ t) = true -> single_spaced b s = true.
Proof.
  induction s as [|c r IH]; intros b H; simpl in *; [reflexivity|].
  destruct (re_space c).
  - apply andb_true_iff in H as [H Hr]. rewrite H. simpl. eapply IH, Hr.
  - eapply IH, H.
Qed.

Lemma lstrip_suffix p s : exists t, s = t ++ lstrip p s.
Proof.
  induction s as [|c r [t IH]]; simpl.
  - exists []. reflexivity.
  - destruct (p c).
    + exists (c :: t). simpl. f_equal. exact IH.
    + exists []. reflexivity.
Qed.

Lemma rstrip_prefix p s : exists t, s = rstrip p s ++ t.
Proof.
  unfold rstrip. destruct (lstrip_suffix p (rev s)) as [t Ht].
  exists (rev t). rewrite <- rev_app_distr, <- Ht, rev_involutive. reflexivity.
Qed.

Lemma lstrip_head_free p s : head_free p (lstrip p s) = true.
Proof.
  induction s as [|c r IH]; simpl; [reflexivity|].
  destruct (p c) eqn:E; [exact IH|]. simpl. rewrite E. reflexivity.
Qed.

Lemma head_free_lstrip p s : head_free p s = true -> lstrip p s = s.
Proof.
  destruct s as [|c r]; simpl; [reflexivity|].
  destruct (p c); [discriminate | reflexivity].
Qed.

Lemma head_free_prefix p s t : head_free p (s ++ t) = true -> head_free p s = true.
Proof. destruct s; simpl; auto. Qed.

Lemma lstrip_spaced p s : single_spaced false s = true -> single_spaced false (lstrip p s) = true.
Proof.
  induction s as [|c r IH]; intros H; simpl; [reflexivity|].
  destruct (p c); [|exact H]. apply IH. eapply single_spaced_tail, H.
Qed.

Lemma strip_spaced p s : single_spaced false s = true -> single_spaced false (strip p s) = true.
Proof.
  intros H. unfold strip. destruct (rstrip_prefix p (lstrip p s)) as [t Ht].
  apply lstrip_spaced with (p := p) in H. rewrite Ht in H.
  eapply single_spaced_prefix, H.
Qed.

Lemma strip_head_free p s : head_free p (strip p s) = true.
Proof.
  unfold strip. destruct (rstrip_prefix p (lstrip p s)) as [t Ht].
  pose proof (lstrip_head_free p s) as H. rewrite Ht in H.
  eapply head_free_prefix, H.
Qed.

Lemma strip_last_free p s : head_free p (rev (strip p s)) = true.
Proof. unfold strip, rstrip. rewrite rev_involutive. apply lstrip_head_free. Qed.

Lemma strip_fix p s :
  head_free p s = true -> head_free p (rev s) = true -> strip p s = s.
Proof.
  intros H1 H2. unfold strip, rstrip.
  rewrite (head_free_lstrip p s H1), (head_free_lstrip p (rev s) H2).
  apply rev_involutive.
Qed.

Lemma Forall_lstrip (P : N -> Prop) p s : Forall P s -> Forall P (lstrip p s).
Proof.
  induction 1 as [|c r Hc Hr IH]; simpl; [constructor|].
  destruct (p c); [exact IH | constructor; assumption].
Qed.

Lemma Forall_strip (P : N -> Prop) p s : Forall P s -> Forall P (strip p s).
Proof.
  intros H. unfold strip. destruct (rstrip_prefix p (lstrip p s)) as [t Ht].
  apply Forall_lstrip with (p := p) in H. rewrite Ht in H.
  apply Forall_app in H. tauto.
Qed.

Lemma Forall_slice_to (P : N -> Prop) m s : Forall P s -> Forall P (slice_to m s).
Proof.
  intros H. unfold slice_to.
  destruct (0 <=? m)%Z; apply Forall_take; exact H.
Qed.

Lemma slice_to_all m s : (Z.of_nat (length s) <= m)%Z -> slice_to m s = s.
Proof.
  intros H. unfold slice_to.
  destruct (0 <=? m)%Z eqn:E; [|lia].
  apply firstn_all2. lia.
Qed.

Lemma slice_to_short m s :
  (Z.of_nat (length (slice_to m s)) < m)%Z -> slice_to m s = s.
Proof.
  unfold slice_to. destruct (0 <=? m)%Z eqn:E; [|lia].
  rewrite length_firstn. intros H. apply firstn_all2. lia.
Qed.

Lemma encode_ascii_ignore_id s :
  Forall (fun c => c < 128) s -> encode_ascii_ignore s = s.
Proof.
  unfold encode_ascii_ignore. induction 1 as [|c r Hc _ IH]; simpl; [reflexivity|].
  apply N.ltb_lt in Hc. rewrite Hc. f_equal. exact IH.
Qed.

Lemma truthy_nonempty s : truthy s = true -> s <> [].
Proof. destruct s; [discriminate | discriminate]. Qed.

Lemma sub_spaces_from_app b s t :
  t <> [] -> head_free re_space t = true ->
  sub_spaces_from b (s ++ t) = sub_spaces_from b s ++ sub_spaces_from false t.
Proof.
  intros Hne Hh. revert b. induction s as [|c r IH]; intros b; simpl.
  - destruct t as [|c t]; [congruence|]. simpl in *.
    apply negb_true_iff in Hh. rewrite Hh. reflexivity.
  - destruct (re_space c); [destruct b|]; rewrite IH; reflexivity.
Qed.

Lemma sub_spaces_from_underscores n u :
  sub_spaces_from false (repeat 95 n ++ u) = repeat 95 n ++ sub_spaces_from false u.
Proof. induction n as [|n IH]; simpl; [reflexivity|]. rewrite IH. reflexivity. Qed.

Lemma lstrip_app p s t :
  t <> [] -> head_free p t = true -> lstrip p (s ++ t) = lstrip p s ++ t.
Proof.
  intros Hne Hh. induction s as [|c r IH]; simpl.
  - apply head_free_lstrip, Hh.
  - destruct (p c); [exact IH | reflexivity].
Qed.

Lemma rstrip_app p s t :
  s <> [] -> head_free p (rev s) = true -> rstrip p (s ++ t) = s ++ rstrip p t.
Proof.
  intros Hne Hh. unfold rstrip. rewrite rev_app_distr, lstrip_app.
  - rewrite rev_app_distr, rev_involutive. reflexivity.
  - intros E. apply Hne. rewrite <- (rev_involutive s), E. reflexivity.
  - exact Hh.
Qed.

(** Around a run of underscores the whitespace step and the strip work on
    the two sides separately. *)
Lemma strip_around_underscores (a b : pystr) (n : nat) :
  strip dot_or_space (sub_spaces (a ++ repeat 95 (S n) ++ b))
  = lstrip dot_or_space (sub_spaces a) ++ repeat 95 (S n)
    ++ rstrip dot_or_space (sub_spaces b).
Proof.
  unfold sub_spaces.
  rewrite sub_spaces_from_app, sub_spaces_from_underscores;
    [|discriminate|reflexivity].
  unfold strip. rewrite lstrip_app; [|discriminate|reflexivity].
  rewrite app_assoc, rstrip_app.
  - rewrite <- app_assoc. reflexivity.
  - intros E. apply app_eq_nil in E as [_ E]. discriminate.
  - change (repeat 95 (S n)) with (95 :: repeat 95 n).
    rewrite repeat_cons, app_assoc, rev_app_distr. reflexivity.
Qed.

Section SanitizerProperties.

Variable normalize_NFKD : pystr -> pystr.

Local Abbreviation sanitize := (sanitize_filename normalize_NFKD).

Local Abbreviation stripped := (transformed normalize_NFKD).

Lemma sanitize_unfold filename m :
  sanitize filename m =
  if truthy (slice_to m (stripped filename))
  then slice_to m (stripped filename) else unnamed_file.
Proof. reflexivity. Qed.

Lemma stripped_kept filename :
  Forall (fun c => re_kept c = true) (stripped filename).
Proof.
  unfold transformed. apply Forall_strip. unfold sub_spaces.
  apply sub_spaces_from_kept, sub_problematic_kept.
Qed.

Lemma unnamed_file_kept : Forall (fun c => re_kept c = true) unnamed_file.
Proof. unfold unnamed_file. vm_compute. repeat constructor. Qed.

(** C6. For every text and every maximal length, [sanitize_filename]
    yields (being a total function, it always yields) a name that is not
    empty and whose characters all lie in the safe set: letters, digits,
    hyphen, underscore, period, space.  The name is the transformed and
    truncated text, or, when that is empty, the literal [unnamed_file]. *)
Theorem sanitize_filename_safe_nonempty (filename : pystr) (max_length : Z) :
  sanitize filename max_length <> []
  /\ Forall (fun c => safe_char c = true) (sanitize filename max_length)
  /\ (sanitize filename max_length = slice_to max_length (stripped filename)
      \/ (slice_to max_length (stripped filename) = []
          /\ sanitize filename max_length = lit "unnamed_file")).
Proof.
  rewrite sanitize_unfold.
  destruct (truthy (slice_to max_length (stripped filename))) eqn:E.
  - split; [apply truthy_nonempty, E|]. split; [|left; reflexivity].
    eapply Forall_impl; [apply Forall_slice_to, stripped_kept|].
    intros c Hc. simpl in Hc. rewrite <- re_kept_safe_char. exact Hc.
  - split; [discriminate|]. split.
    + eapply Forall_impl; [apply unnamed_file_kept|].
      intros c Hc. simpl in Hc. rewrite <- re_kept_safe_char. exact Hc.
    + right. split; [|reflexivity].
      destruct (slice_to max_length (stripped filename)); [reflexivity|discriminate].
Qed.

Hypothesis NFKD_ascii : NFKD_fixes_ascii normalize_NFKD.

(** On ASCII text whose substituted form is already tidy (single spaces,
    no period or space at either end, not empty, short enough) the result
    is that substituted form. *)
Lemma sanitize_tidy (x : pystr) (m : Z) :
  Forall (fun c => c < 128) x ->
  single_spaced false (sub_problematic x) = true ->
  head_free dot_or_space (sub_problematic x) = true ->
  head_free dot_or_space (rev (sub_problematic x)) = true ->
  truthy (sub_problematic x) = true ->
  (Z.of_nat (length (sub_problematic x)) <= m)%Z ->
  sanitize x m = sub_problematic x.
Proof.
  intros Hx Hsp Hh Hl Ht Hm.
  rewrite sanitize_unfold. unfold transformed.
  rewrite (NFKD_ascii x Hx), (encode_ascii_ignore_id x Hx).
  unfold sub_spaces. rewrite (single_spaced_fix _ _ Hsp).
  rewrite (strip_fix _ _ Hh Hl), (slice_to_all _ _ Hm), Ht. reflexivity.
Qed.

Lemma sanitize_fixed (t : pystr) (m : Z) :
  Forall (fun c => re_kept c = true) t ->
  single_spaced false t = true ->
  head_free dot_or_space t = true ->
  head_free dot_or_space (rev t) = true ->
  truthy t = true ->
  (Z.of_nat (length t) <= m)%Z ->
  sanitize t m = t.
Proof.
  intros Hk Hsp Hh Hl Ht Hm.
  pose proof (sub_problematic_id t Hk) as E.
  rewrite <- E at 2. apply sanitize_tidy; rewrite ?E; auto.
  eapply Forall_impl; [exact Hk|]. intros c Hc. apply re_kept_ascii, Hc.
Qed.

(** C10. When the sanitized name is strictly shorter than the maximal
    length, sanitizing it again returns it unchanged. *)
Theorem sanitize_filename_idempotent (filename : pystr) (max_length : Z) :
  (Z.of_nat (length (sanitize filename max_length)) < max_length)%Z ->
  sanitize (sanitize filename max_length) max_length
  = sanitize filename max_length.
Proof.
  rewrite sanitize_unfold.
  destruct (truthy (slice_to max_length (stripped filename))) eqn:E.
  - intros Hlen. pose proof (slice_to_short _ _ Hlen) as Hs.
    rewrite Hs in *. apply sanitize_fixed; auto.
    + apply stripped_kept.
    + unfold transformed. apply strip_spaced. unfold sub_spaces.
      apply sub_spaces_from_spaced.
    + apply strip_head_free.
    + apply strip_last_free.
    + lia.
  - intros Hlen. apply sanitize_fixed; auto.
    + apply unnamed_file_kept.
    + lia.
Qed.

(** Between two words, within the maximal length, the result is the text
    itself with one underscore for each character of the run. *)
Lemma sanitize_filename_run_between_words
    (before run after : pystr) (max_length : Z) :
  before <> [] ->
  Forall (fun c => re_word c = true) before ->
  Forall (fun c => re_word c = true) after ->
  Forall (fun c => problematic c = true) run ->
  (Z.of_nat (length (before ++ run ++ after)) <= max_length)%Z ->
  sanitize (before ++ run ++ after) max_length
  = before ++ repeat 95 (length run) ++ after.
Proof.
  intros Hne Hb Ha Hr Hm.
  assert (Hsub : sub_problematic (before ++ run ++ after)
                 = before ++ repeat 95 (length run) ++ after).
  { rewrite !sub_problematic_app, (sub_problematic_run run Hr).
    rewrite !sub_problematic_id; [reflexivity| |].
    - eapply Forall_impl; [exact Ha|]. intros c Hc. apply re_word_kept, Hc.
    - eapply Forall_impl; [exact Hb|]. intros c Hc. apply re_word_kept, Hc. }
  assert (Hw : Forall (fun c => re_word c = true)
                 (before ++ repeat 95 (length run) ++ after)).
  { rewrite !Forall_app. repeat split; auto.
    clear. induction (length run); simpl; constructor; auto. }
  rewrite <- Hsub. apply sanitize_tidy; rewrite ?Hsub.
  - rewrite !Forall_app. repeat split.
    + eapply Forall_impl; [exact Hb|]. intros c Hc.
      apply re_kept_ascii, re_word_kept, Hc.
    + eapply Forall_impl; [exact Hr|]. intros c Hc.
      apply problematic_ascii, Hc.
    + eapply Forall_impl; [exact Ha|]. intros c Hc.
      apply re_kept_ascii, re_word_kept, Hc.
  - clear -Hw. induction Hw as [|c r Hc _ IH]; simpl; [reflexivity|].
    rewrite (re_word_not_space c Hc). exact IH.
  - destruct before as [|c r]; [congruence|]. simpl.
    apply Forall_inv in Hb. rewrite (re_word_not_dot_or_space c Hb).
    reflexivity.
  - apply Forall_rev in Hw. destruct Hw as [|c r Hc _]; simpl; [reflexivity|].
    rewrite (re_word_not_dot_or_space c Hc). reflexivity.
  - destruct before; [congruence | reflexivity].
  - rewrite <- Hsub. unfold sub_problematic. rewrite length_map. exact Hm.
Qed.

(** C7 (amended). Each disallowed ASCII character is replaced by an
    underscore of its own, never one underscore for a whole run.  For every
    text: wherever the text left by the normalization and the removal of
    non-ASCII characters holds a contiguous run of N (at least one)
    disallowed ASCII characters, the text that is then cut to the maximal
    length holds N contiguous underscores in its place, between what the
    whitespace step and the strip leave of the two sides.  The result is
    that text cut to the maximal length ([unnamed_file] if the cut leaves
    nothing), so all N underscores are in the result whenever the text
    fits within the maximal length. *)
Theorem sanitize_filename_run_underscores
    (filename pre run post : pystr) (max_length : Z) :
  encode_ascii_ignore (normalize_NFKD filename) = pre ++ run ++ post ->
  run <> [] ->
  Forall (fun c => problematic c = true) run ->
  let kept :=
    lstrip dot_or_space (sub_spaces (sub_problematic pre))
    ++ repeat 95 (length run)
    ++ rstrip dot_or_space (sub_spaces (sub_problematic post)) in
  stripped filename = kept
  /\ sanitize filename max_length
     = (if truthy (slice_to max_length kept)
        then slice_to max_length kept else unnamed_file)
  /\ ((Z.of_nat (length kept) <= max_length)%Z ->
      sanitize filename max_length = kept).
Proof.
  intros Hdec Hne Hrun kept.
  assert (Hs : stripped filename = kept).
  { unfold transformed. rewrite Hdec, !sub_problematic_app.
    rewrite (sub_problematic_run run Hrun). subst kept.
    destruct run as [|c r]; [congruence|]. simpl length.
    apply strip_around_underscores. }
  split; [exact Hs|]. split.
  - rewrite sanitize_unfold, Hs. reflexivity.
  - intros Hm. rewrite sanitize_unfold, Hs, (slice_to_all _ _ Hm).
    subst kept. destruct run as [|c r]; [congruence|]. simpl length.
    destruct (lstrip dot_or_space (sub_spaces (sub_problematic pre)));
      reflexivity.
Qed.

End SanitizerProperties.

Lemma nfkd_latin_fixes_ascii : NFKD_fixes_ascii nfkd_latin.
Proof.
  intros s H. unfold nfkd_latin. induction H as [|c r Hc _ IH]; [reflexivity|].
  simpl. rewrite IH. unfold nfkd_char.
  apply N.ltb_lt in Hc. rewrite Hc. reflexivity.
Qed.

Lemma sanitize_filename_idempotent_witness :
  (Z.of_nat (length (sanitize_filename nfkd_latin (lit "  my   song: live!.  ") 255))
   < 255)%Z
  /\ sanitize_filename nfkd_latin
       (sanitize_filename nfkd_latin (lit "  my   song: live!.  ") 255) 255
     = sanitize_filename nfkd_latin (lit "  my   song: live!.  ") 255.
Proof.
  split; [vm_compute; reflexivity|].
  apply (sanitize_filename_idempotent nfkd_latin nfkd_latin_fixes_ascii
           (lit "  my   song: live!.  ") 255).
  vm_compute. reflexivity.
Defined.

Lemma sanitize_filename_run_underscores_witness :
  encode_ascii_ignore (nfkd_latin (lit " .caf" ++ [233] ++ lit "?*/ bar. "))
  = lit " .cafe" ++ lit "?*/" ++ lit " bar. "
  /\ transformed nfkd_latin (lit " .caf" ++ [233] ++ lit "?*/ bar. ")
     = lit "cafe___ bar"
  /\ sanitize_filename nfkd_latin (lit " .caf" ++ [233] ++ lit "?*/ bar. ") 255
     = lit "cafe___ bar"
  /\ sanitize_filename nfkd_latin (lit " .caf" ++ [233] ++ lit "?*/ bar. ") 6
     = lit "cafe__".
Proof.
  pose proof (sanitize_filename_run_underscores nfkd_latin
                (lit " .caf" ++ [233] ++ lit "?*/ bar. ")
                (lit " .cafe") (lit "?*/") (lit " bar. ")) as H.
  split; [vm_compute; reflexivity|].
  split; [|split].
  - destruct (H 255%Z) as [H1 _];
      [vm_compute; reflexivity | vm_compute; discriminate
      | vm_compute; repeat constructor |].
    rewrite H1. vm_compute. reflexivity.
  - destruct (H 255%Z) as (_ & _ & H3);
      [vm_compute; reflexivity | vm_compute; discriminate
      | vm_compute; repeat constructor |].
    rewrite H3; [vm_compute; reflexivity | vm_compute; discriminate].
  - destruct (H 6%Z) as (_ & H2 & _);
      [vm_compute; reflexivity | vm_compute; discriminate
      | vm_compute; repeat constructor |].
    rewrite H2. vm_compute. reflexivity.
Defined.

(** Three hundred question marks: the text before the cut holds three
    hundred underscores; the cut at 255 keeps 255 of them. *)
Example sanitize_filename_long_run :
  transformed nfkd_latin (repeat 63 300) = repeat 95 300
  /\ sanitize_filename nfkd_latin (repeat 63 300) 255 = repeat 95 255.
Proof. split; vm_compute; reflexivity. Qed.

(** C7, as stated, fails: the two problematic characters of [a??b] form
    one run, and the result has two underscores, not one. *)
Lemma sanitize_filename_two_underscores :
  sanitize_filename nfkd_latin (lit "a??b") 255 = lit "a__b"
  /\ sanitize_filename nfkd_latin (lit "a??b") 255 <> lit "a_b".
Proof. split; [vm_compute; reflexivity | vm_compute; discriminate]. Qed.

(** The characters kept by the substitution are what a sanitized name is
    made of, and the name is not empty. *)
Lemma sanitize_filename_kept (normalize_NFKD : pystr -> pystr)
    (filename : pystr) (m : Z) :
  sanitize_filename normalize_NFKD filename m <> []
  /\ Forall (fun c => re_kept c = true)
       (sanitize_filename normalize_NFKD filename m).
Proof.
  rewrite sanitize_unfold.
  destruct (truthy (slice_to m (transformed normalize_NFKD filename))) eqn:E.
  - split; [apply truthy_nonempty, E|]. apply Forall_slice_to, stripped_kept.
  - split; [discriminate | apply unnamed_file_kept].
Qed.

(** ** The unique path resolver *)

Lemma lit_inj s t : lit s = lit t -> s = t.
Proof.
  unfold lit. intros H.
  rewrite <- (string_of_list_ascii_of_string s), <- (string_of_list_ascii_of_string t).
  f_equal. revert H.
  generalize (list_ascii_of_string s) (list_ascii_of_string t).
  intros l. induction l as [|a l IH]; intros [|b l'] H; simpl in H;
    try discriminate; [reflexivity|].
  injection H as Hab Hl. f_equal; [|apply IH, Hl].
  rewrite <- (ascii_N_embedding a), <- (ascii_N_embedding b), Hab. reflexivity.
Qed.

Lemma str_of_nat_inj j k : str_of_nat j = str_of_nat k -> j = k.
Proof. unfold str_of_nat. intros H. apply lit_inj in H. apply (inj pretty), H. Qed.

Lemma os_path_join_relative a b c :
  starts_with_sep b = false -> b <> [] ->
  os_path_join a (b ++ c) = join_prefix a ++ b ++ c.
Proof.
  intros Hs Hb. unfold os_path_join, join_prefix.
  destruct b as [|h b]; [congruence|]. simpl in *. rewrite Hs.
  destruct (negb (truthy a) || ends_with_sep a); [reflexivity|].
  rewrite <- app_assoc. reflexivity.
Qed.

Section Candidates.

Variables base clean ext : pystr.
Hypothesis clean_relative : starts_with_sep clean = false.
Hypothesis clean_nonempty : clean <> [].

Local Abbreviation cand := (candidate base clean ext).

Lemma candidate_0 : cand 0 = join_prefix base ++ clean ++ ext.
Proof. simpl. apply os_path_join_relative; assumption. Qed.

Lemma candidate_S k :
  cand (S k) = join_prefix base ++ clean ++ lit "_" ++ str_of_nat (S k) ++ ext.
Proof. simpl. apply os_path_join_relative; assumption. Qed.

Lemma candidate_inj j k : cand j = cand k -> j = k.
Proof.
  destruct j as [|j], k as [|k]; rewrite ?candidate_0, ?candidate_S; intros H.
  - reflexivity.
  - apply (f_equal (@length N)) in H. rewrite !length_app in H.
    simpl in H. lia.
  - apply (f_equal (@length N)) in H. rewrite !length_app in H.
    simpl in H. lia.
  - do 3 apply app_inv_head in H. apply app_inv_tail in H.
    apply str_of_nat_inj, H.
Qed.

(** Pigeonhole: the first [m] candidates are distinct, so a snapshot that
    holds all of them has at least [m] entries. *)
Lemma candidates_bound (m : nat) : forall X : gset pystr,
  (forall j, (j < m)%nat -> cand j ∈ X) -> (m <= size X)%nat.
Proof.
  induction m as [|m IH]; intros X H; [lia|].
  assert (Hm : cand m ∈ X) by (apply H; lia).
  rewrite (union_difference_singleton_L _ _ Hm).
  rewrite size_union by (apply disjoint_difference_r1; reflexivity).
  rewrite size_singleton.
  assert ((m <= size (X ∖ {[cand m]}))%nat); [|lia].
  apply IH. intros j Hj. apply elem_of_difference. split; [apply H; lia|].
  rewrite elem_of_singleton. intros E. apply candidate_inj in E. lia.
Qed.

(** The loop started at candidate [k] stops at the first later candidate
    that is free, given fuel for the steps in between. *)
Lemma unique_loop_stops (fs : gset pystr) (n : nat) : forall k fuel,
  (forall j, (k <= j < k + n)%nat -> cand j ∈ fs) ->
  cand (k + n) ∉ fs ->
  (n < fuel)%nat ->
  unique_loop fuel fs base clean ext (cand k) (S k) = Some (cand (k + n)).
Proof.
  induction n as [|n IH]; intros k fuel Hin Hout Hfuel;
    (destruct fuel as [|fuel]; [lia|]); simpl; unfold os_path_exists.
  - rewrite Nat.add_0_r in Hout. rewrite bool_decide_eq_false_2 by exact Hout.
    rewrite Nat.add_0_r. reflexivity.
  - rewrite bool_decide_eq_true_2 by (apply Hin; lia).
    replace (k + S n)%nat with (S k + n)%nat in * by lia.
    apply (IH (S k)); [|exact Hout|lia].
    intros j Hj. apply Hin. lia.
Qed.

(** Some candidate among the first [size fs + 1] is free; take the first. *)
Lemma first_free_candidate (fs : gset pystr) :
  exists n, (n <= size fs)%nat /\ (cand n ∉ fs)
            /\ forall j, (j < n)%nat -> cand j ∈ fs.
Proof.
  assert (H : forall m, (exists n, (n < m)%nat /\ (cand n ∉ fs)
                               /\ forall j, (j < n)%nat -> cand j ∈ fs)
                   \/ (forall j, (j < m)%nat -> cand j ∈ fs)).
  { induction m as [|m [IH|IH]].
    - right. intros j Hj. lia.
    - left. destruct IH as (n & Hn & Hrest). exists n. split; [lia | exact Hrest].
    - destruct (decide (cand m ∈ fs)) as [Hm|Hm].
      + right. intros j Hj. destruct (decide (j = m)) as [->|]; [exact Hm|].
        apply IH. lia.
      + left. exists m. split; [lia|]. split; assumption. }
  destruct (H (S (size fs))) as [(n & Hn & Hrest)|Hall].
  - exists n. split; [lia | exact Hrest].
  - apply candidates_bound in Hall. lia.
Qed.

Lemma unique_loop_first_free (fs : gset pystr) (n : nat) :
  cand n ∉ fs -> (forall j, (j < n)%nat -> cand j ∈ fs) ->
  unique_loop (S (size fs)) fs base clean ext (cand 0) 1 = Some (cand n).
Proof.
  intros Hout Hin.
  apply (unique_loop_stops fs n 0); [intros j Hj; apply Hin; lia | exact Hout |].
  apply candidates_bound in Hin. lia.
Qed.

End Candidates.

Section UniquePathProperties.

Variable normalize_NFKD : pystr -> pystr.

Local Abbreviation sanitize := (sanitize_filename normalize_NFKD).
Local Abbreviation resolve := (generate_unique_filename normalize_NFKD).

Lemma sanitize_relative filename m :
  starts_with_sep (sanitize filename m) = false /\ sanitize filename m <> [].
Proof.
  destruct (sanitize_filename_kept normalize_NFKD filename m) as (Hne & Hkept).
  split; [|exact Hne].
  destruct Hkept as [|c r Hc _]; [reflexivity|]. simpl.
  apply N.eqb_neq. intros ->. vm_compute in Hc. discriminate.
Qed.

Lemma generate_unique_filename_first_free fs base filename ext n :
  candidate base (sanitize filename 255) ext n ∉ fs ->
  (forall j, (j < n)%nat -> candidate base (sanitize filename 255) ext j ∈ fs) ->
  resolve fs base filename ext = candidate base (sanitize filename 255) ext n.
Proof.
  intros Hout Hin. unfold generate_unique_filename, generate_unique_filename_fuel.
  destruct (sanitize_relative filename 255) as [Hrel Hne].
  change (os_path_join base (sanitize filename 255 ++ ext))
    with (candidate base (sanitize filename 255) ext 0).
  rewrite (unique_loop_first_free _ _ _ Hrel Hne fs n Hout Hin). reflexivity.
Qed.

(** Enough fuel: within [size fs + 1] tests the loop has returned. *)
Lemma generate_unique_filename_total fs base filename ext :
  generate_unique_filename_fuel normalize_NFKD (S (size fs)) fs base filename ext
  = Some (resolve fs base filename ext).
Proof.
  destruct (sanitize_relative filename 255) as [Hrel Hne].
  destruct (first_free_candidate base _ ext Hrel Hne fs) as (n & _ & Hout & Hin).
  rewrite (generate_unique_filename_first_free _ _ _ _ n Hout Hin).
  unfold generate_unique_filename_fuel.
  change (os_path_join base (sanitize filename 255 ++ ext))
    with (candidate base (sanitize filename 255) ext 0).
  apply (unique_loop_first_free _ _ _ Hrel Hne fs n Hout Hin).
Qed.

(** C8. For every snapshot, base name and extension the resolver returns
    a path that is not in the snapshot; the path is the first free one in
    the order name.ext, name_1.ext, name_2.ext, ... (every earlier candidate
    exists), hence a function of the snapshot alone; and in a directory that
    holds neither name.ext nor name_1.ext, resolving twice in succession,
    the first result having been created, yields name.ext and then
    name_1.ext. *)
Theorem generate_unique_filename_correct
    (fs : gset pystr) (base filename ext : pystr) :
  let cand := candidate base (sanitize filename 255) ext in
  (resolve fs base filename ext ∉ fs)
  /\ (exists k, resolve fs base filename ext = cand k
                /\ forall j, (j < k)%nat -> cand j ∈ fs)
  /\ (forall k, cand k ∉ fs -> (forall j, (j < k)%nat -> cand j ∈ fs) ->
                resolve fs base filename ext = cand k)
  /\ (cand 0%nat ∉ fs -> cand 1%nat ∉ fs ->
      resolve fs base filename ext = cand 0%nat
      /\ resolve (fs ∪ {[ cand 0%nat ]}) base filename ext = cand 1%nat).
Proof.
  intros cand. destruct (sanitize_relative filename 255) as [Hrel Hne].
  destruct (first_free_candidate base _ ext Hrel Hne fs) as (n & _ & Hout & Hin).
  pose proof (generate_unique_filename_first_free fs base filename ext n Hout Hin)
    as Hres.
  split; [rewrite Hres; exact Hout|].
  split; [exists n; split; [exact Hres | exact Hin]|].
  split; [intros k Hk Hbelow; apply generate_unique_filename_first_free; assumption|].
  intros H0 H1. split.
  - apply generate_unique_filename_first_free; [exact H0|]. intros j Hj. lia.
  - apply generate_unique_filename_first_free.
    + rewrite elem_of_union, elem_of_singleton. intros [H|H]; [exact (H1 H)|].
      apply (candidate_inj _ _ _ Hrel Hne) in H. discriminate.
    + intros j Hj. assert (j = 0%nat) as -> by lia.
      apply elem_of_union_r, elem_of_singleton. reflexivity.
Qed.

End UniquePathProperties.

(** The resolved path is not in the snapshot it was resolved against. *)
Lemma generate_unique_filename_fresh (normalize_NFKD : pystr -> pystr)
    (fs : gset pystr) (base filename ext : pystr) :
  generate_unique_filename normalize_NFKD fs base filename ext ∉ fs.
Proof.
  destruct (sanitize_relative normalize_NFKD filename 255) as [Hrel Hne].
  destruct (first_free_candidate base _ ext Hrel Hne fs) as (n & _ & Hout & Hin).
  rewrite (generate_unique_filename_first_free normalize_NFKD fs base filename
             ext n Hout Hin).
  exact Hout.
Qed.

Lemma generate_unique_filename_correct_witness :
  (lit "out/song.mp3" ∉ (∅ : gset pystr))
  /\ generate_unique_filename nfkd_latin ∅ (lit "out") (lit "song") (lit ".mp3")
     = lit "out/song.mp3"
  /\ generate_unique_filename nfkd_latin (∅ ∪ {[ lit "out/song.mp3" ]})
       (lit "out") (lit "song") (lit ".mp3")
     = lit "out/song_1.mp3".
Proof.
  split; [apply not_elem_of_empty|].
  destruct (generate_unique_filename_correct nfkd_latin ∅
              (lit "out") (lit "song") (lit ".mp3")) as (_ & _ & _ & H).
  apply H; apply not_elem_of_empty.
Defined.

Example resolve_in_empty_directory :
  generate_unique_filename nfkd_latin ∅ (lit "out") (lit "song") (lit ".mp3")
  = lit "out/song.mp3".
Proof. vm_compute. reflexivity. Qed.

Example resolve_after_two_collisions :
  generate_unique_filename nfkd_latin
    {[ lit "out/song.mp3"; lit "out/song_1.mp3"; lit "out/song_3.mp3" ]}
    (lit "out") (lit "song") (lit ".mp3")
  = lit "out/song_2.mp3".
Proof. vm_compute. reflexivity. Qed.

(** ** The naming strategy *)

Lemma lookup_map_seq {A} (f : nat -> A) (n i : nat) :
  map f (seq 0 n) !! i = if decide (i < n)%nat then Some (f i) else None.
Proof.
  change (map f (seq 0 n)) with (f <$> seq 0 n).
  rewrite list_lookup_fmap. destruct (decide (i < n)%nat) as [H|H].
  - rewrite (lookup_seq_lt 0 n i H). reflexivity.
  - rewrite (lookup_seq_ge 0 n i) by lia. reflexivity.
Qed.

Lemma lookup_numbered {A} (f : nat -> pystr) (l : list A) (i : nat) :
  map f (seq 0 (length l)) !! i = (fun _ => f i) <$> (l !! i).
Proof.
  rewrite lookup_map_seq. destruct (decide (i < length l)%nat) as [H|H].
  - destruct (lookup_lt_is_Some_2 l i H) as [x Hx]. rewrite Hx. reflexivity.
  - rewrite (lookup_ge_None_2 l i) by lia. reflexivity.
Qed.

(** C9. With one of the three recognized selectors the naming function
    returns a list that has, at every index, an entry exactly where the item
    list has one (same length, same order): the item's title verbatim under
    "Original Video Titles"; the prefix (the literal [audio] when the prefix
    is absent or empty), an underscore and the 1-based index under "Custom
    Prefix"; [track_] and the 1-based index under "Numbered Sequence". *)
Theorem generate_custom_titles_names
    (videos : list VideoInfo) (custom_prefix : option pystr) :
  (exists names,
      _generate_custom_titles videos (lit "Original Video Titles") custom_prefix
      = Returned (Some names)
      /\ length names = length videos
      /\ forall i : nat, names !! i = title <$> (videos !! i))
  /\ (exists names,
      _generate_custom_titles videos (lit "Custom Prefix") custom_prefix
      = Returned (Some names)
      /\ length names = length videos
      /\ forall i : nat,
           names !! i
           = (fun _ => match custom_prefix with
                       | Some (c :: p) => c :: p
                       | _ => lit "audio"
                       end ++ lit "_" ++ str_of_nat (S i)) <$> (videos !! i))
  /\ (exists names,
      _generate_custom_titles videos (lit "Numbered Sequence") custom_prefix
      = Returned (Some names)
      /\ length names = length videos
      /\ forall i : nat,
           names !! i
           = (fun _ => lit "track_" ++ str_of_nat (S i)) <$> (videos !! i)).
Proof.
  repeat split.
  - eexists. split; [reflexivity|]. split; [apply length_map|].
    intros i. apply list_lookup_fmap.
  - eexists. split; [reflexivity|]. split; [rewrite length_map; apply length_seq|].
    intros i. rewrite lookup_numbered.
    destruct (videos !! i); [|reflexivity]. simpl.
    rewrite Nat.add_1_r. destruct custom_prefix as [[|c p]|]; reflexivity.
  - eexists. split; [reflexivity|]. split; [rewrite length_map; apply length_seq|].
    intros i. rewrite lookup_numbered.
    destruct (videos !! i); [|reflexivity]. simpl.
    rewrite Nat.add_1_r. reflexivity.
Qed.

Example names_original :
  _generate_custom_titles three_videos (lit "Original Video Titles") None
  = Returned (Some [lit "one"; lit "two"; lit "three"]).
Proof. vm_compute. reflexivity. Qed.

Example names_prefix :
  _generate_custom_titles three_videos (lit "Custom Prefix") (Some (lit "mix"))
  = Returned (Some [lit "mix_1"; lit "mix_2"; lit "mix_3"]).
Proof. vm_compute. reflexivity. Qed.

Example names_prefix_default :
  _generate_custom_titles three_videos (lit "Custom Prefix") (Some [])
  = Returned (Some [lit "audio_1"; lit "audio_2"; lit "audio_3"]).
Proof. vm_compute. reflexivity. Qed.

Example names_numbered :
  _generate_custom_titles three_videos (lit "Numbered Sequence") None
  = Returned (Some [lit "track_1"; lit "track_2"; lit "track_3"]).
Proof. vm_compute. reflexivity. Qed.

(** C3 (amended). With a selector that is none of the three recognized
    strings the naming function raises nothing and returns [None]: no list of
    names, for any item list and prefix. *)
Theorem generate_custom_titles_unrecognized
    (videos : list VideoInfo) (naming_method : pystr)
    (custom_prefix : option pystr) :
  naming_method <> lit "Original Video Titles" ->
  naming_method <> lit "Custom Prefix" ->
  naming_method <> lit "Numbered Sequence" ->
  _generate_custom_titles videos naming_method custom_prefix = Returned None.
Proof.
  intros H1 H2 H3. unfold _generate_custom_titles.
  destruct (decide (naming_method = lit "Original Video Titles")); [contradiction|].
  destruct (decide (naming_method = lit "Custom Prefix")); [contradiction|].
  destruct (decide (naming_method = lit "Numbered Sequence")); [contradiction|].
  reflexivity.
Qed.

Lemma generate_custom_titles_unrecognized_witness :
  lit "Shuffle" <> lit "Original Video Titles"
  /\ _generate_custom_titles three_videos (lit "Shuffle") (Some (lit "mix"))
     = Returned None.
Proof.
  split; [vm_compute; discriminate|].
  apply (generate_custom_titles_unrecognized three_videos (lit "Shuffle"));
    vm_compute; discriminate.
Defined.

(** C3, as stated, fails: for the selector "Shuffle" the call raises no
    error; it returns [None]. *)
Lemma generate_custom_titles_no_error :
  _generate_custom_titles three_videos (lit "Shuffle") None = Returned None
  /\ ~ exists e, _generate_custom_titles three_videos (lit "Shuffle") None
                 = Raised e.
Proof.
  split; [vm_compute; reflexivity|].
  intros [e He]. vm_compute in He. discriminate.
Qed.

(** ** The summary *)

(** For lists that are not both empty: the counts, and the rate
    100 * successes / (successes + failures). *)
Lemma create_download_summary_counts (successful failed : list VideoInfo) :
  (0 < length successful + length failed)%nat ->
  exists s, create_download_summary successful failed = Returned s
    /\ total_videos s = (length successful + length failed)%nat
    /\ successful_count s = length successful
    /\ failed_count s = length failed
    /\ (success_rate s ==
        100 * inject_Z (Z.of_nat (length successful))
        / inject_Z (Z.of_nat (length successful + length failed)))%Q
    /\ successful_videos s = map title successful
    /\ failed_videos s = map title failed.
Proof.
  intros Hpos. unfold create_download_summary, py_truediv.
  destruct (Nat.eqb_spec (length successful + length failed) 0) as [E|E]; [lia|].
  simpl. eexists. split; [reflexivity|]. simpl. repeat split.
  field. intros H. apply E.
  unfold inject_Z, Qeq in H. simpl in H. lia.
Qed.

(** C1, at the input the claim singles out: with both lists empty the
    summary is not built; the division raises [ZeroDivisionError]. *)
Theorem create_download_summary_empty_faults :
  create_download_summary [] [] = Raised ZeroDivisionError.
Proof. reflexivity. Qed.

Example summary_two_of_three :
  exists s,
    create_download_summary [mk_video "u1" "a"; mk_video "u2" "b"] [mk_video "u3" "c"]
    = Returned s
    /\ total_videos s = 3%nat /\ successful_count s = 2%nat
    /\ failed_count s = 1%nat /\ (success_rate s == 200 # 3)%Q.
Proof. eexists. split; [reflexivity|]. repeat split. Qed.

(** ** The single-item downloader *)

Lemma os_path_exists_elem (fs : gset pystr) (p : pystr) :
  os_path_exists fs p = true -> p ∈ fs.
Proof. unfold os_path_exists. apply bool_decide_eq_true_1. Qed.

Section DownloadProperties.

Variable normalize_NFKD : pystr -> pystr.
Variable os_makedirs : gset pystr -> pystr -> gset pystr * option exn.
Variable ydl_download :
  gset pystr -> pystr -> pystr -> pystr -> pystr -> gset pystr * option exn.

Local Abbreviation download :=
  (download_audio normalize_NFKD os_makedirs ydl_download).
Local Abbreviation expected :=
  (expected_path normalize_NFKD os_makedirs).
Local Abbreviation engine_err :=
  (engine_error normalize_NFKD os_makedirs ydl_download).

(** [download_audio] as one case distinction: an exception escaping
    [create_directory] ends the call before the engine runs; otherwise the
    engine runs once on the expected path. *)
Lemma download_audio_cases dl video custom_title playlist_folder w :
  let fs1 := entries_after_makedirs os_makedirs dl playlist_folder w in
  let filepath := expected dl video custom_title playlist_folder w in
  download dl video custom_title playlist_folder w =
  if makedirs_escapes os_makedirs dl playlist_folder w
  then (Returned None, {| fs := fs1; ydl_calls := ydl_calls w |})
  else
    let fs2 := fst (ydl_download fs1 (preferredcodec dl) (preferredquality dl)
                      filepath (url video)) in
    (Returned
       (match engine_err dl video custom_title playlist_folder w with
        | None => if os_path_exists fs2 filepath then Some filepath else None
        | Some _ => None
        end),
     {| fs := fs2; ydl_calls := ydl_calls w ++ [(url video, filepath)] |}).
Proof.
  unfold download_audio, download_audio_try, create_directory, try_except, bind,
    makedirs, YoutubeDL_download, get_fs, ret, engine_error, expected_path,
    makedirs_escapes, entries_after_makedirs, any_Exception.
  simpl.
  destruct (os_makedirs (fs w) (target_dir dl playlist_folder)) as [fs1 [e1|]];
    simpl.
  - destruct (is_OSError e1); simpl; [|reflexivity].
    destruct (ydl_download fs1 _ _ _ _) as [fs2 [e2|]]; simpl; [reflexivity|].
    destruct (os_path_exists fs2 _); reflexivity.
  - destruct (ydl_download fs1 _ _ _ _) as [fs2 [e2|]]; simpl; [reflexivity|].
    destruct (os_path_exists fs2 _); reflexivity.
Qed.

Lemma expected_path_fresh dl video custom_title playlist_folder w :
  expected dl video custom_title playlist_folder w
  ∉ entries_after_makedirs os_makedirs dl playlist_folder w.
Proof.
  unfold expected_path. apply generate_unique_filename_fresh.
Qed.


(** The engine that leaves no file and reports no error: a failure. *)
Lemma download_audio_missing_output dl video custom_title playlist_folder w :
  makedirs_escapes os_makedirs dl playlist_folder w = false ->
  expected dl video custom_title playlist_folder w
    ∉ fst (ydl_download
             (entries_after_makedirs os_makedirs dl playlist_folder w)
             (preferredcodec dl) (preferredquality dl)
             (expected dl video custom_title playlist_folder w) (url video)) ->
  fst (download dl video custom_title playlist_folder w) = Returned None.
Proof.
  intros Hesc Hout. rewrite download_audio_cases, Hesc. cbv zeta. simpl.
  destruct (engine_err dl video custom_title playlist_folder w); [reflexivity|].
  unfold os_path_exists. rewrite bool_decide_eq_false_2 by exact Hout.
  reflexivity.
Qed.

Lemma download_audio_returns dl video custom_title playlist_folder w :
  exists r w', download dl video custom_title playlist_folder w = (Returned r, w').
Proof.
  rewrite download_audio_cases.
  destruct (makedirs_escapes os_makedirs dl playlist_folder w);
    eexists _, _; reflexivity.
Qed.

(** When directory creation fails with [OSError] only, each call of
    [download_audio] is one invocation of the engine on the item's URL. *)
Lemma download_audio_invokes_engine dl video custom_title playlist_folder w :
  makedirs_OSError_only os_makedirs ->
  exists r w' path,
    download dl video custom_title playlist_folder w = (Returned r, w')
    /\ ydl_calls w' = ydl_calls w ++ [(url video, path)].
Proof.
  intros Hos. rewrite download_audio_cases.
  assert (makedirs_escapes os_makedirs dl playlist_folder w = false) as ->.
  { unfold makedirs_escapes.
    destruct (snd (os_makedirs (fs w) (target_dir dl playlist_folder))) eqn:E;
      [|reflexivity].
    rewrite (Hos _ _ _ E). reflexivity. }
  cbv zeta. eexists _, _, _. split; reflexivity.
Qed.

End DownloadProperties.


Example download_audio_ok :
  fst (download_audio nfkd_latin makedirs_ok engine_ok mp3_downloader
         (mk_video "u1" "one") None None empty_world)
  = Returned (Some (lit "out/one.mp3")).
Proof. vm_compute. reflexivity. Qed.

Example download_audio_silent_engine :
  fst (download_audio nfkd_latin makedirs_ok engine_silent mp3_downloader
         (mk_video "u1" "one") None None empty_world)
  = Returned None.
Proof. vm_compute. reflexivity. Qed.

(** ** The batch loops *)

Lemma call_each_cons {A B : Type} (call : A -> Py B) (x : A) (rest : list A)
    (w : World) :
  call_each call (x :: rest) w
  = (fst (call x w) :: fst (call_each call rest (snd (call x w))),
     snd (call_each call rest (snd (call x w)))).
Proof. reflexivity. Qed.

Lemma returned_paths_cons (r : outcome (option pystr))
    (rs : list (outcome (option pystr))) :
  returned_paths (r :: rs)
  = match r with
    | Returned (Some path) => if truthy path then [path] else []
    | _ => []
    end ++ returned_paths rs.
Proof. reflexivity. Qed.

Lemma count_downloaded_cons r results :
  count_downloaded (r :: results)
  = (count_downloaded [r] + count_downloaded results)%nat.
Proof. unfold count_downloaded. simpl. destruct (downloaded r); reflexivity. Qed.

Lemma count_downloaded_bound results :
  (count_downloaded results <= length results)%nat.
Proof.
  unfold count_downloaded. induction results as [|r rs IH]; simpl; [lia|].
  destruct (downloaded r); simpl; lia.
Qed.

Lemma picked_nil b : picked b [] [] = [].
Proof. reflexivity. Qed.

Lemma picked_cons b flag flags v videos :
  picked b (flag :: flags) (v :: videos)
  = (if Bool.eqb flag b then [v] else []) ++ picked b flags videos.
Proof. unfold picked. simpl. destruct (Bool.eqb flag b); reflexivity. Qed.

Lemma picked_permutation (flags : list bool) : forall videos : list VideoInfo,
  length flags = length videos ->
  Permutation (picked true flags videos ++ picked false flags videos) videos.
Proof.
  induction flags as [|flag flags IH]; intros [|v videos] Hl; simpl in Hl;
    try discriminate; [constructor|].
  injection Hl as Hl. rewrite !picked_cons. specialize (IH videos Hl).
  destruct flag; simpl.
  - constructor. exact IH.
  - symmetry. apply Permutation_cons_app. symmetry. exact IH.
Qed.

Lemma picked_lengths (flags : list bool) : forall videos : list VideoInfo,
  length flags = length videos ->
  (length (picked true flags videos) + length (picked false flags videos)
   = length videos)%nat.
Proof.
  intros videos Hl. rewrite <- length_app.
  apply Permutation_length, picked_permutation, Hl.
Qed.

Lemma map_fst_combine {A B} (l : list A) (k : list B) :
  map fst (combine l k) = firstn (length k) l.
Proof.
  revert k. induction l as [|a l IH]; intros [|b k]; simpl; try reflexivity.
  f_equal. apply IH.
Qed.

Lemma combine_firstn_length {A B} (l : list A) (k : list B) :
  combine l (firstn (length l) k) = combine l k.
Proof.
  revert k. induction l as [|a l IH]; intros [|b k]; simpl; try reflexivity.
  f_equal. apply IH.
Qed.

Section PerformDownloadProperties.

Variable downloader_download_audio :
  VideoInfo -> option pystr -> Py (option pystr).

Local Abbreviation loop := (perform_download_loop downloader_download_audio).

(** The loop over the pairs: it returns, whatever the downloader does, and
    each pair has put its item at the end of one of the two lists. *)
Lemma perform_download_loop_outcomes (pairs : list (VideoInfo * pystr)) :
  forall successful failed w,
  exists flags w',
    loop pairs successful failed w
    = (Returned (successful ++ picked true flags (map fst pairs),
                 failed ++ picked false flags (map fst pairs)), w')
    /\ length flags = length pairs.
Proof.
  induction pairs as [|[video title] rest IH]; intros successful failed w.
  - exists [], w. simpl. rewrite picked_nil, !app_nil_r. split; reflexivity.
  - simpl. unfold bind at 1. unfold try_except, bind, ret, any_Exception.
    destruct (downloader_download_audio video (Some title) w) as [[r|e] w1].
    + destruct (truthy_opt r).
      * destruct (IH (successful ++ [video]) failed w1) as (flags & w' & H & Hl).
        exists (true :: flags), w'. rewrite H, !picked_cons. simpl.
        rewrite <- app_assoc. split; [reflexivity | congruence].
      * destruct (IH successful (failed ++ [video]) w1) as (flags & w' & H & Hl).
        exists (false :: flags), w'. rewrite H, !picked_cons. simpl.
        rewrite <- app_assoc. split; [reflexivity | congruence].
    + destruct (IH successful (failed ++ [video]) w1) as (flags & w' & H & Hl).
      exists (false :: flags), w'. rewrite H, !picked_cons. simpl.
      rewrite <- app_assoc. split; [reflexivity | congruence].
Qed.

(** The loop over the pairs is one call of the downloader for every pair
    in order: an item goes to the successes when its call returned a
    non-empty path, and to the failures otherwise. *)
Lemma perform_download_loop_each (pairs : list (VideoInfo * pystr)) :
  forall successful failed w,
    let run := call_each (download_pair downloader_download_audio) pairs w in
    let flags := map downloaded (fst run) in
    loop pairs successful failed w
    = (Returned (successful ++ picked true flags (map fst pairs),
                 failed ++ picked false flags (map fst pairs)), snd run).
Proof.
  induction pairs as [|[video title] rest IH]; intros successful failed w;
    cbv zeta.
  - simpl. rewrite picked_nil, !app_nil_r. reflexivity.
  - rewrite call_each_cons.
    change (download_pair downloader_download_audio (video, title) w)
      with (downloader_download_audio video (Some title) w).
    cbn [perform_download_loop]. unfold bind at 1.
    unfold try_except, bind, ret, any_Exception.
    destruct (downloader_download_audio video (Some title) w) as [[r|e] w1];
      cbn [fst snd map]; rewrite !picked_cons; cbn [downloaded].
    + destruct (truthy_opt r); rewrite IH; cbv zeta; cbn [Bool.eqb app];
        rewrite <- ?app_assoc; reflexivity.
    + rewrite IH. cbv zeta. cbn [Bool.eqb app]. rewrite <- ?app_assoc.
      reflexivity.
Qed.

End PerformDownloadProperties.

Lemma call_each_length {A B : Type} (call : A -> Py B) (xs : list A) :
  forall w, length (fst (call_each call xs w)) = length xs.
Proof.
  induction xs as [|x rest IH]; intros w; simpl; [reflexivity|].
  rewrite IH. reflexivity.
Qed.

Lemma combine_lookup {A B : Type} (l : list A) (k : list B) :
  forall (i : nat) (a : A) (b : B),
    nth_error l i = Some a -> nth_error k i = Some b ->
    nth_error (combine l k) i = Some (a, b).
Proof.
  revert k. induction l as [|x l IH]; intros [|y k] [|i] a b Ha Hb;
    simpl in *; try discriminate.
  - congruence.
  - apply IH; assumption.
Qed.

Lemma effective_titles_same_length (videos : list VideoInfo)
    (titles : list pystr) :
  length titles = length videos ->
  effective_titles videos (Some titles) = titles.
Proof.
  intros Hlen. destruct titles as [|t ts]; [|reflexivity].
  destruct videos; [reflexivity | discriminate].
Qed.

Section BatchEachProperties.

Variable normalize_NFKD : pystr -> pystr.
Variable os_makedirs : gset pystr -> pystr -> gset pystr * option exn.
Variable ydl_download :
  gset pystr -> pystr -> pystr -> pystr -> pystr -> gset pystr * option exn.

Local Abbreviation download :=
  (download_audio normalize_NFKD os_makedirs ydl_download).
Local Abbreviation batch :=
  (batch_download normalize_NFKD os_makedirs ydl_download).
Local Abbreviation batch_loop :=
  (batch_download_loop normalize_NFKD os_makedirs ydl_download).

(** The loop of [batch_download] is one call of [download_audio] for every
    pair in order; no call raises, and the non-empty paths returned are
    appended to the list. *)
Lemma batch_download_loop_each dl playlist_folder
    (pairs : list (VideoInfo * pystr)) :
  forall files w,
    let run :=
      call_each (download_pair (fun video custom_title =>
                   download dl video custom_title playlist_folder)) pairs w in
    batch_loop dl pairs playlist_folder files w
    = (Returned (files ++ returned_paths (fst run)), snd run)
    /\ Forall (fun r => exists path, r = Returned path) (fst run).
Proof.
  induction pairs as [|[video title] rest IH]; intros files w; cbv zeta.
  - simpl. rewrite app_nil_r. split; [reflexivity | constructor].
  - rewrite call_each_cons.
    change (download_pair _ (video, title) w)
      with (download dl video (Some title) playlist_folder w).
    cbn [batch_download_loop]. unfold bind at 1.
    destruct (download_audio_returns normalize_NFKD os_makedirs ydl_download
                dl video (Some title) playlist_folder w) as (r & w1 & E).
    rewrite E. cbn [fst snd].
    match goal with |- context [batch_download_loop _ _ _ _ _ _ ?fl w1] =>
      destruct (IH fl w1) as [H1 H2] end.
    split; [|constructor; [eexists; reflexivity | exact H2]].
    rewrite H1, returned_paths_cons.
    destruct r as [path|]; [destruct (truthy path)|];
      rewrite <- ?app_assoc; reflexivity.
Qed.

(** [batch_download] on the pairing of the items with the effective
    names. *)
Lemma batch_download_each dl videos custom_titles playlist_folder w :
  let run :=
    call_each (download_pair (fun video custom_title =>
                 download dl video custom_title playlist_folder))
      (combine videos (effective_titles videos custom_titles)) w in
  batch dl videos custom_titles playlist_folder w
  = (Returned (returned_paths (fst run)), snd run)
  /\ Forall (fun r => exists path, r = Returned path) (fst run).
Proof.
  cbv zeta. unfold batch_download.
  change (match custom_titles with
          | Some (t :: ts) => t :: ts | _ => map title videos end)
    with (effective_titles videos custom_titles).
  rewrite combine_firstn_length.
  apply (batch_download_loop_each dl playlist_folder
           (combine videos (effective_titles videos custom_titles)) [] w).
Qed.

End BatchEachProperties.

(** C2 (amended). For every list of items with one name each.  The
    download loop of [_perform_download] calls the downloader once for every
    item, in order, each call made in the world the call before has left and
    whatever that call did, and records exactly one outcome per item: the
    item goes to the successes when its call returned a non-empty path, and
    to the failures when its call returned nothing or raised.  So a failure
    or an exception for one item never stops the items after it.
    [batch_download] likewise calls [download_audio] once for every item, in
    order, and no call raises; but it records the successes only: it returns
    the non-empty paths the calls returned, in order, and nothing for an
    item that failed. *)
Theorem batch_run_downloads_every_item
    (normalize_NFKD : pystr -> pystr)
    (os_makedirs : gset pystr -> pystr -> gset pystr * option exn)
    (ydl_download : gset pystr -> pystr -> pystr -> pystr -> pystr
                    -> gset pystr * option exn)
    (downloader_download_audio : VideoInfo -> option pystr -> Py (option pystr))
    (dl : AudioDownloader) (videos : list VideoInfo) (titles : list pystr)
    (playlist_folder : option pystr) (w : World) :
  length titles = length videos ->
  let app_run :=
    call_each (download_pair downloader_download_audio)
      (combine videos titles) w in
  let flags := map downloaded (fst app_run) in
  let batch_run :=
    call_each (download_pair (fun video custom_title =>
                 download_audio normalize_NFKD os_makedirs ydl_download dl
                   video custom_title playlist_folder))
      (combine videos titles) w in
  (let! pairs := zip_titles videos (Some titles) in
   perform_download_loop downloader_download_audio pairs [] []) w
  = (Returned (picked true flags videos, picked false flags videos),
     snd app_run)
  /\ length flags = length videos
  /\ Permutation (picked true flags videos ++ picked false flags videos) videos
  /\ batch_download normalize_NFKD os_makedirs ydl_download dl videos
       (Some titles) playlist_folder w
     = (Returned (returned_paths (fst batch_run)), snd batch_run)
  /\ length (fst batch_run) = length videos
  /\ Forall (fun r => exists path, r = Returned path) (fst batch_run).
Proof.
  intros Hlen app_run flags batch_run.
  assert (Hpairs : length (combine videos titles) = length videos).
  { rewrite length_combine, Hlen, Nat.min_id. reflexivity. }
  assert (Hflags : length flags = length videos).
  { subst flags app_run. rewrite length_map, call_each_length. exact Hpairs. }
  split.
  { unfold bind, zip_titles, ret.
    rewrite (perform_download_loop_each downloader_download_audio
               (combine videos titles) [] [] w).
    cbv zeta. rewrite map_fst_combine, Hlen, firstn_all. reflexivity. }
  split; [exact Hflags|].
  split; [apply picked_permutation, Hflags|].
  pose proof (batch_download_each normalize_NFKD os_makedirs ydl_download dl
                videos (Some titles) playlist_folder w) as H.
  cbv zeta in H. rewrite (effective_titles_same_length videos titles Hlen) in H.
  destruct H as [H1 H2].
  split; [exact H1|]. split; [|exact H2].
  subst batch_run. rewrite call_each_length. exact Hpairs.
Qed.

Lemma batch_run_downloads_every_item_witness :
  length [lit "a"; lit "b"; lit "c"] = length three_videos
  /\ (let! pairs := zip_titles three_videos (Some [lit "a"; lit "b"; lit "c"]) in
      perform_download_loop (raising_downloader (lit "u2")) pairs [] [])
       empty_world
     = (Returned ([mk_video "u1" "one"; mk_video "u3" "three"],
                  [mk_video "u2" "two"]), empty_world)
  /\ fst (batch_download nfkd_latin makedirs_ok (engine_failing_on (lit "u2"))
            mp3_downloader three_videos (Some [lit "a"; lit "b"; lit "c"])
            None empty_world)
     = Returned [lit "out/a.mp3"; lit "out/c.mp3"].
Proof.
  split; [reflexivity|].
  destruct (batch_run_downloads_every_item nfkd_latin makedirs_ok
              (engine_failing_on (lit "u2")) (raising_downloader (lit "u2"))
              mp3_downloader three_videos [lit "a"; lit "b"; lit "c"] None
              empty_world eq_refl) as (H1 & _ & _ & H4 & _).
  split.
  - rewrite H1. vm_compute. reflexivity.
  - rewrite H4. vm_compute. reflexivity.
Defined.

(** C2, as stated, fails on [batch_download]: three items, the second of
    which fails in the engine.  The engine has been run for all three, and
    the batch returns two paths for the three items: nothing is recorded
    for the second. *)
Lemma batch_download_no_outcome_for_failure :
  let run := batch_download nfkd_latin makedirs_ok
               (engine_failing_on (lit "u2")) mp3_downloader three_videos
               (Some [lit "a"; lit "b"; lit "c"]) None empty_world in
  fst run = Returned [lit "out/a.mp3"; lit "out/c.mp3"]
  /\ map fst (ydl_calls (snd run)) = [lit "u1"; lit "u2"; lit "u3"]
  /\ length [lit "out/a.mp3"; lit "out/c.mp3"] <> length three_videos.
Proof.
  cbv zeta. split; [vm_compute; reflexivity|].
  split; [vm_compute; reflexivity | vm_compute; discriminate].
Qed.

(** Three items, the second of which fails in the engine: two successes and
    one failure, in order, and the engine has been run for all three. *)
Example perform_download_second_fails :
  let run :=
    (let! pairs := zip_titles three_videos (Some [lit "a"; lit "b"; lit "c"]) in
     perform_download_loop
       (download_audio_titled nfkd_latin makedirs_ok
          (engine_failing_on (lit "u2")) mp3_downloader) pairs [] [])
      empty_world in
  fst run = Returned ([mk_video "u1" "one"; mk_video "u3" "three"],
                      [mk_video "u2" "two"])
  /\ map fst (ydl_calls (snd run)) = [lit "u1"; lit "u2"; lit "u3"].
Proof. cbv zeta. split; vm_compute; reflexivity. Qed.

(** The same with a downloader that lets the exception escape: the loop
    catches it and goes on. *)
Example perform_download_second_raises :
  fst ((let! pairs := zip_titles three_videos (Some [lit "a"; lit "b"; lit "c"]) in
        perform_download_loop (raising_downloader (lit "u2")) pairs [] [])
         empty_world)
  = Returned ([mk_video "u1" "one"; mk_video "u3" "three"], [mk_video "u2" "two"]).
Proof. vm_compute. reflexivity. Qed.

Section BatchDownloadProperties.

Variable normalize_NFKD : pystr -> pystr.
Variable os_makedirs : gset pystr -> pystr -> gset pystr * option exn.
Variable ydl_download :
  gset pystr -> pystr -> pystr -> pystr -> pystr -> gset pystr * option exn.

Local Abbreviation batch :=
  (batch_download normalize_NFKD os_makedirs ydl_download).
Local Abbreviation batch_loop :=
  (batch_download_loop normalize_NFKD os_makedirs ydl_download).

Hypothesis makedirs_OSError : makedirs_OSError_only os_makedirs.

Lemma batch_download_loop_calls dl playlist_folder
    (pairs : list (VideoInfo * pystr)) :
  forall files w,
  exists files' w' calls,
    batch_loop dl pairs playlist_folder files w = (Returned files', w')
    /\ ydl_calls w' = ydl_calls w ++ calls
    /\ map fst calls = map url (map fst pairs)
    /\ (length files' <= length files + length pairs)%nat.
Proof.
  induction pairs as [|[video title] rest IH]; intros files w.
  - exists files, w, []. simpl. rewrite app_nil_r. repeat split. lia.
  - simpl. unfold bind at 1.
    destruct (download_audio_invokes_engine normalize_NFKD os_makedirs
                ydl_download dl video (Some title) playlist_folder w
                makedirs_OSError) as (r & w1 & path & -> & Hcalls).
    match goal with |- context [batch_download_loop _ _ _ _ _ _ ?fl w1] =>
      destruct (IH fl w1) as (files' & w' & calls & H & Hc & Hu & Hlen);
      assert (Hfl : (length fl <= S (length files))%nat)
    end.
    { destruct r as [p|]; [|lia]. destruct (truthy p); [|lia].
      rewrite length_app. simpl. lia. }
    exists files', w', ((url video, path) :: calls).
    split; [exact H|]. split; [rewrite Hc, Hcalls, <- app_assoc; reflexivity|].
    split; [simpl; f_equal; exact Hu | simpl; lia].
Qed.

(** When directory creation fails with [OSError] only, [batch_download]
    runs the engine once for each of the first min(|items|, |names|) items,
    in order, and returns at most one path for each of them. *)
Lemma batch_download_engine_calls
    (dl : AudioDownloader) (videos : list VideoInfo)
    (custom_titles : option (list pystr)) (playlist_folder : option pystr)
    (w : World) :
  let titles := effective_titles videos custom_titles in
  let n := Nat.min (length videos) (length titles) in
  exists (files : list pystr) (w' : World) (calls : list (pystr * pystr)),
    batch dl videos custom_titles playlist_folder w = (Returned files, w')
    /\ ydl_calls w' = ydl_calls w ++ calls
    /\ map fst calls = map url (firstn n videos)
    /\ (length files <= n)%nat.
Proof.
  intros titles n. unfold batch_download.
  change (match custom_titles with Some (t :: ts) => t :: ts | _ => map title videos end)
    with titles.
  rewrite combine_firstn_length.
  destruct (batch_download_loop_calls dl playlist_folder (combine videos titles) [] w)
    as (files & w' & calls & H & Hc & Hu & Hlen).
  exists files, w', calls. split; [exact H|]. split; [exact Hc|].
  rewrite map_fst_combine in Hu. rewrite length_combine in Hlen. simpl in Hlen.
  split; [|exact Hlen].
  rewrite Hu. f_equal. subst n.
  destruct (Nat.le_gt_cases (length videos) (length titles)) as [Hle|Hgt].
  - rewrite Nat.min_l by exact Hle.
    rewrite !firstn_all2 by lia. reflexivity.
  - rewrite Nat.min_r by lia. reflexivity.
Qed.

End BatchDownloadProperties.

Section AppDownloadProperties.

Variable normalize_NFKD : pystr -> pystr.
Variable os_makedirs : gset pystr -> pystr -> gset pystr * option exn.
Variable ydl_download :
  gset pystr -> pystr -> pystr -> pystr -> pystr -> gset pystr * option exn.
Variable dl : AudioDownloader.

Hypothesis makedirs_OSError : makedirs_OSError_only os_makedirs.

Local Abbreviation app_loop :=
  (perform_download_loop
     (download_audio_titled normalize_NFKD os_makedirs ydl_download dl)).

(** With the repository's own downloader the loop of [_perform_download]
    runs the engine once for every pair, in order, whatever the engine does
    on the single items. *)
Lemma perform_download_loop_calls (pairs : list (VideoInfo * pystr)) :
  forall successful failed w,
  exists lists w' calls,
    app_loop pairs successful failed w = (Returned lists, w')
    /\ ydl_calls w' = ydl_calls w ++ calls
    /\ map fst calls = map url (map fst pairs).
Proof.
  induction pairs as [|[video title] rest IH]; intros successful failed w.
  - exists (successful, failed), w, []. simpl. rewrite app_nil_r. repeat split.
  - simpl. unfold bind at 1. unfold try_except, bind, ret, download_audio_titled.
    destruct (download_audio_invokes_engine normalize_NFKD os_makedirs
                ydl_download dl video (Some title) None w makedirs_OSError)
      as (r & w1 & path & -> & Hcalls).
    destruct (truthy_opt r);
      [destruct (IH (successful ++ [video]) failed w1)
         as (lists & w' & calls & H & Hc & Hu)
      |destruct (IH successful (failed ++ [video]) w1)
         as (lists & w' & calls & H & Hc & Hu)];
      exists lists, w', ((url video, path) :: calls);
      (split; [exact H|]);
      (split; [rewrite Hc, Hcalls, <- app_assoc; reflexivity|]);
      simpl; f_equal; exact Hu.
Qed.

End AppDownloadProperties.

Lemma makedirs_ok_OSError_only : makedirs_OSError_only makedirs_ok.
Proof. intros fs0 path e H. discriminate. Qed.

(** C4 (amended). [batch_download] does not fail on names and items of
    different lengths, and it raises nothing.  With the names given, or the
    items' own titles when the names are absent or empty, it pairs items
    and names by position (the item at an index with the name at that
    index), cut to the shorter of the two sequences, and calls
    [download_audio] once for each pair, in order, for the item under its
    paired name, each call made in the world the call before has left.  No
    call raises, and the batch returns the non-empty paths the calls
    returned, in order. *)
Theorem batch_download_truncated_pairing
    (normalize_NFKD : pystr -> pystr)
    (os_makedirs : gset pystr -> pystr -> gset pystr * option exn)
    (ydl_download : gset pystr -> pystr -> pystr -> pystr -> pystr
                    -> gset pystr * option exn)
    (dl : AudioDownloader) (videos : list VideoInfo)
    (custom_titles : option (list pystr)) (playlist_folder : option pystr)
    (w : World) :
  let titles := effective_titles videos custom_titles in
  let n := Nat.min (length videos) (length titles) in
  let pairs := combine videos titles in
  let run :=
    call_each (download_pair (fun video custom_title =>
                 download_audio normalize_NFKD os_makedirs ydl_download dl
                   video custom_title playlist_folder)) pairs w in
  batch_download normalize_NFKD os_makedirs ydl_download dl videos
    custom_titles playlist_folder w
  = (Returned (returned_paths (fst run)), snd run)
  /\ length pairs = n
  /\ (forall (i : nat) (video : VideoInfo) (name : pystr),
        nth_error videos i = Some video -> nth_error titles i = Some name ->
        nth_error pairs i = Some (video, name))
  /\ length (fst run) = n
  /\ Forall (fun r => exists path, r = Returned path) (fst run).
Proof.
  intros titles n pairs run.
  destruct (batch_download_each normalize_NFKD os_makedirs ydl_download dl
              videos custom_titles playlist_folder w) as [H1 H2].
  split; [exact H1|].
  assert (Hn : length pairs = n) by apply length_combine.
  split; [exact Hn|].
  split; [intros i video name; apply combine_lookup|].
  split; [|exact H2].
  subst run. rewrite call_each_length. exact Hn.
Qed.

(** Three items and one name: one call, for the first item under the one
    name; the second and third items are not downloaded. *)
Example batch_download_one_name :
  fst (call_each (download_pair (fun video custom_title =>
         download_audio nfkd_latin makedirs_ok engine_ok mp3_downloader
           video custom_title None))
         (combine three_videos (effective_titles three_videos (Some [lit "a"])))
         empty_world)
  = [Returned (Some (lit "out/a.mp3"))].
Proof. vm_compute. reflexivity. Qed.

(** C4, as stated, fails: three items and one name.  The batch returns (no
    batch-level error), the first item has been downloaded under the one
    name, and the engine has been run once. *)
Lemma batch_download_mismatch_runs :
  let run := batch_download nfkd_latin makedirs_ok engine_ok mp3_downloader
               three_videos (Some [lit "a"]) None empty_world in
  fst run = Returned [lit "out/a.mp3"]
  /\ ydl_calls (snd run) = [(lit "u1", lit "out/a.mp3")].
Proof. cbv zeta. split; vm_compute; reflexivity. Qed.

(** * Further properties of the modelled code *)

(** ** More on the sanitizer and the resolver *)

Lemma firstn_prefix {A} (n : nat) (l : list A) : exists t, l = firstn n l ++ t.
Proof. exists (skipn n l). symmetry. apply firstn_skipn. Qed.

Lemma slice_to_prefix m s : exists t, s = slice_to m s ++ t.
Proof. unfold slice_to. destruct (0 <=? m)%Z; apply firstn_prefix. Qed.

(** X1. A sanitized name never starts with a period or a space, and its
    only whitespace is single spaces, never two in a row.  (The end is not
    covered: the truncation comes after the strip.) *)
Theorem sanitize_filename_shape (normalize_NFKD : pystr -> pystr)
    (filename : pystr) (max_length : Z) :
  head_free dot_or_space (sanitize_filename normalize_NFKD filename max_length)
  = true
  /\ single_spaced false (sanitize_filename normalize_NFKD filename max_length)
     = true.
Proof.
  rewrite sanitize_unfold.
  destruct (truthy (slice_to max_length (transformed normalize_NFKD filename)));
    [|split; reflexivity].
  destruct (slice_to_prefix max_length (transformed normalize_NFKD filename))
    as [t Ht].
  split.
  - apply head_free_prefix with (t := t). rewrite <- Ht.
    apply strip_head_free.
  - apply single_spaced_prefix with (t := t). rewrite <- Ht.
    unfold transformed, sub_spaces. apply strip_spaced, sub_spaces_from_spaced.
Qed.

Example sanitize_trailing_space_after_truncation :
  sanitize_filename nfkd_latin (lit "ab cd") 3 = lit "ab ".
Proof. vm_compute. reflexivity. Qed.

(** X2. With a maximal length of at least 12 (the length of the fallback
    literal) the sanitized name is never longer than the maximal length. *)
Theorem sanitize_filename_length (normalize_NFKD : pystr -> pystr)
    (filename : pystr) (max_length : Z) :
  (12 <= max_length)%Z ->
  (Z.of_nat (length (sanitize_filename normalize_NFKD filename max_length))
   <= max_length)%Z.
Proof.
  intros Hm. rewrite sanitize_unfold.
  destruct (truthy (slice_to max_length (transformed normalize_NFKD filename))).
  - unfold slice_to. destruct (0 <=? max_length)%Z eqn:E; [|lia].
    rewrite length_firstn. lia.
  - change (length unnamed_file) with 12%nat. lia.
Qed.

Lemma sanitize_filename_length_witness :
  (12 <= 12)%Z
  /\ (Z.of_nat (length (sanitize_filename nfkd_latin
                          (lit "a very long title indeed") 12)) <= 12)%Z.
Proof.
  split; [lia|].
  apply (sanitize_filename_length nfkd_latin (lit "a very long title indeed") 12).
  lia.
Defined.

(** The fallback literal is longer than a small maximal length. *)
Example sanitize_fallback_exceeds_max :
  sanitize_filename nfkd_latin (lit "???") 0 = lit "unnamed_file".
Proof. vm_compute. reflexivity. Qed.

(** X3. The resolved path is the directory prefix, the sanitized name, a
    collision suffix and the extension, and the number in the suffix is at
    most the number of entries of the snapshot: the loop needs no more
    rounds than there are existing entries. *)
Theorem generate_unique_filename_bounded (normalize_NFKD : pystr -> pystr)
    (fs : gset pystr) (base filename ext : pystr) :
  exists k : nat,
    (k <= size fs)%nat
    /\ generate_unique_filename normalize_NFKD fs base filename ext
       = join_prefix base ++ sanitize_filename normalize_NFKD filename 255
         ++ collision_suffix k ++ ext.
Proof.
  destruct (sanitize_relative normalize_NFKD filename 255) as [Hrel Hne].
  destruct (first_free_candidate base _ ext Hrel Hne fs) as (n & Hn & Hout & Hin).
  exists n. split; [exact Hn|].
  rewrite (generate_unique_filename_first_free normalize_NFKD fs base filename
             ext n Hout Hin).
  destruct n as [|n].
  - rewrite (candidate_0 _ _ _ Hrel Hne). reflexivity.
  - rewrite (candidate_S _ _ _ Hrel Hne). unfold collision_suffix.
    rewrite <- !app_assoc. reflexivity.
Qed.

(** ** Directory creation and the single download *)

Section MoreDownloadProperties.

Variable normalize_NFKD : pystr -> pystr.
Variable os_makedirs : gset pystr -> pystr -> gset pystr * option exn.
Variable ydl_download :
  gset pystr -> pystr -> pystr -> pystr -> pystr -> gset pystr * option exn.

Local Abbreviation download :=
  (download_audio normalize_NFKD os_makedirs ydl_download).
Local Abbreviation batch_loop :=
  (batch_download_loop normalize_NFKD os_makedirs ydl_download).

(** [create_directory] by what [os.makedirs] did. *)
Lemma create_directory_result (path : pystr) (w : World) :
  exists (res : outcome bool) (w' : World),
    create_directory os_makedirs path w = (res, w')
    /\ fs w' = fst (os_makedirs (fs w) path)
    /\ ydl_calls w' = ydl_calls w
    /\ (res = Returned true <-> snd (os_makedirs (fs w) path) = None)
    /\ (res = Returned false <->
        exists e, snd (os_makedirs (fs w) path) = Some e /\ is_OSError e = true)
    /\ (forall e, res = Raised e <->
        snd (os_makedirs (fs w) path) = Some e /\ is_OSError e = false).
Proof.
  unfold create_directory, try_except, bind, makedirs, ret.
  destruct (os_makedirs (fs w) path) as [fs' [e|]]; simpl.
  - destruct (is_OSError e) eqn:E; eexists _, _;
      (split; [reflexivity|]); simpl;
      (split; [reflexivity|]); (split; [reflexivity|]).
    + split; [split; discriminate|]. split.
      * split; [intros _; exists e; split; [reflexivity | exact E]|reflexivity].
      * intros e'. split; [discriminate|]. intros [H H']. congruence.
    + split; [split; discriminate|]. split.
      * split; [discriminate|]. intros (e' & H & H'). congruence.
      * intros e'. split.
        -- intros H. injection H as ->. split; [reflexivity | exact E].
        -- intros [H _]. congruence.
  - eexists _, _. split; [reflexivity|]. simpl.
    split; [reflexivity|]. split; [reflexivity|].
    split; [split; reflexivity|]. split.
    + split; [discriminate|]. intros (e' & H & _). discriminate.
    + intros e'. split; [discriminate|]. intros [H _]. discriminate.
Qed.

(** X4. [download_audio] does not act on what [create_directory]
    returns.  When [os.makedirs] raises [OSError] or [PermissionError],
    [create_directory] returns [False], and [download_audio] still invokes
    the engine, once, on the item's URL and the path resolved against the
    entries that [os.makedirs] left.  When [os.makedirs] raises an
    exception of another class, it escapes [create_directory], and
    [download_audio] returns [None] without invoking the engine. *)
Theorem download_audio_ignores_create_directory
    (dl : AudioDownloader) (video : VideoInfo)
    (custom_title playlist_folder : option pystr) (w : World) (e : exn) :
  snd (os_makedirs (fs w) (target_dir dl playlist_folder)) = Some e ->
  let made := create_directory os_makedirs (target_dir dl playlist_folder) w in
  let call := download dl video custom_title playlist_folder w in
  if is_OSError e
  then fst made = Returned false
       /\ (exists r, fst call = Returned r)
       /\ ydl_calls (snd call)
          = ydl_calls w
            ++ [(url video,
                 expected_path normalize_NFKD os_makedirs dl video
                   custom_title playlist_folder w)]
  else fst made = Raised e
       /\ call = (Returned None, snd made)
       /\ ydl_calls (snd call) = ydl_calls w.
Proof.
  intros He made call. subst made call. rewrite download_audio_cases.
  unfold makedirs_escapes, create_directory, try_except, bind, makedirs, ret,
    entries_after_makedirs.
  destruct (os_makedirs (fs w) (target_dir dl playlist_folder)) as [fs1 o].
  simpl in He. subst o. cbn [snd fst].
  destruct (is_OSError e); cbn [negb fst snd ydl_calls].
  - split; [reflexivity|]. split; [eexists; reflexivity | reflexivity].
  - repeat split.
Qed.

(** What a returned path tells about the call. *)
Lemma download_audio_returned_path
    (dl : AudioDownloader) (video : VideoInfo)
    (custom_title playlist_folder : option pystr) (w : World) (p : pystr) :
  fst (download dl video custom_title playlist_folder w) = Returned (Some p) ->
  p = expected_path normalize_NFKD os_makedirs dl video custom_title
        playlist_folder w
  /\ os_path_exists
       (fs (snd (download dl video custom_title playlist_folder w))) p = true.
Proof.
  rewrite download_audio_cases.
  destruct (makedirs_escapes os_makedirs dl playlist_folder w); [discriminate|].
  cbv zeta. simpl.
  destruct (engine_error normalize_NFKD os_makedirs ydl_download dl video
              custom_title playlist_folder w); [discriminate|].
  destruct (os_path_exists _ _) eqn:E; [|discriminate].
  intros H. injection H as <-. split; [reflexivity | exact E].
Qed.

(** X5. A path returned by [download_audio] did not exist when the engine
    was started and exists when the call is over: the download never goes to
    an entry that was already there. *)
Theorem download_audio_fresh_path
    (dl : AudioDownloader) (video : VideoInfo)
    (custom_title playlist_folder : option pystr) (w : World) (p : pystr) :
  fst (download dl video custom_title playlist_folder w) = Returned (Some p) ->
  (p ∉ entries_after_makedirs os_makedirs dl playlist_folder w)
  /\ p ∈ fs (snd (download dl video custom_title playlist_folder w)).
Proof.
  intros H. apply download_audio_returned_path in H as [-> H]. split.
  - apply expected_path_fresh.
  - apply os_path_exists_elem, H.
Qed.

Hypothesis makedirs_keeps : makedirs_keeps_entries os_makedirs.
Hypothesis engine_keeps : engine_keeps_entries ydl_download.

Lemma download_audio_keeps_entries dl video custom_title playlist_folder w :
  fs w ⊆ fs (snd (download dl video custom_title playlist_folder w)).
Proof.
  rewrite download_audio_cases.
  pose proof (makedirs_keeps (fs w) (target_dir dl playlist_folder)) as H1.
  destruct (makedirs_escapes os_makedirs dl playlist_folder w); simpl.
  - exact H1.
  - etransitivity; [exact H1|]. apply engine_keeps.
Qed.

Lemma download_audio_path_new dl video custom_title playlist_folder w p :
  fst (download dl video custom_title playlist_folder w) = Returned (Some p) ->
  p ∉ fs w.
Proof.
  intros H. apply download_audio_returned_path in H as [-> _].
  intros Hin.
  apply (expected_path_fresh normalize_NFKD os_makedirs dl video custom_title
           playlist_folder w).
  unfold entries_after_makedirs.
  apply (makedirs_keeps (fs w) (target_dir dl playlist_folder)), Hin.
Qed.

Lemma batch_download_loop_distinct dl playlist_folder
    (pairs : list (VideoInfo * pystr)) :
  forall files w,
    NoDup files -> (forall p, p ∈ files -> p ∈ fs w) ->
    exists files' w',
      batch_loop dl pairs playlist_folder files w = (Returned files', w')
      /\ NoDup files' /\ (forall p, p ∈ files' -> p ∈ fs w')
      /\ (forall p, p ∈ files' -> p ∈ files \/ p ∉ fs w)
      /\ fs w ⊆ fs w'.
Proof.
  induction pairs as [|[video title] rest IH]; intros files w Hnd Hin.
  - exists files, w. split; [reflexivity|]. split; [exact Hnd|].
    split; [exact Hin|]. split; [intros p Hp; left; exact Hp | reflexivity].
  - simpl. unfold bind at 1.
    pose proof (download_audio_keeps_entries dl video (Some title)
                  playlist_folder w) as Hkeep.
    pose proof (download_audio_path_new dl video (Some title)
                  playlist_folder w) as Hnew.
    pose proof (download_audio_returned_path dl video (Some title)
                  playlist_folder w) as Hfresh.
    destruct (download_audio_returns normalize_NFKD os_makedirs ydl_download
                dl video (Some title) playlist_folder w) as (r & w1 & E).
    rewrite E in *. simpl in *.
    assert (Hstep : forall acc,
      NoDup acc -> (forall q, q ∈ acc -> q ∈ fs w1) ->
      (forall q, q ∈ acc -> q ∈ files \/ q ∉ fs w) ->
      exists files' w',
        batch_loop dl rest playlist_folder acc w1 = (Returned files', w')
        /\ NoDup files' /\ (forall q, q ∈ files' -> q ∈ fs w')
        /\ (forall q, q ∈ files' -> q ∈ files \/ q ∉ fs w)
        /\ fs w ⊆ fs w').
    { intros acc Hnd' Hin' Hold.
      destruct (IH acc w1 Hnd' Hin') as (files' & w' & H & H1 & H2 & H3 & H4).
      exists files', w'. split; [exact H|]. split; [exact H1|].
      split; [exact H2|]. split; [|etransitivity; [exact Hkeep | exact H4]].
      intros q Hq. destruct (H3 q Hq) as [Hacc|Hout]; [apply Hold, Hacc|].
      right. intros Hw. apply Hout, Hkeep, Hw. }
    assert (Hsame : forall q, q ∈ files -> q ∈ fs w1)
      by (intros q Hq; apply Hkeep, Hin, Hq).
    destruct r as [p|]; [destruct (truthy p)|]; apply Hstep; try assumption;
      try (intros q Hq; left; exact Hq).
    + apply NoDup_app. split; [exact Hnd|]. split; [|apply NoDup_singleton].
      intros q Hq Hq'. apply list_elem_of_singleton in Hq'. subst q.
      apply (Hnew p eq_refl), Hin, Hq.
    + intros q Hq. apply elem_of_app in Hq as [Hq|Hq]; [apply Hsame, Hq|].
      apply list_elem_of_singleton in Hq. subst q.
      apply os_path_exists_elem, (Hfresh p eq_refl).
    + intros q Hq. apply elem_of_app in Hq as [Hq|Hq]; [left; exact Hq|].
      apply list_elem_of_singleton in Hq. subst q. right. apply (Hnew p eq_refl).
Qed.

(** X6. When neither the directory creation nor the engine removes entries,
    the paths [batch_download] returns are pairwise distinct, none of them
    existed before the batch and all of them exist when it is over: no item
    overwrites the file of another item or a file that was already there. *)
Theorem batch_download_distinct_files
    (dl : AudioDownloader) (videos : list VideoInfo)
    (custom_titles : option (list pystr)) (playlist_folder : option pystr)
    (w : World) :
  exists (files : list pystr) (w' : World),
    batch_download normalize_NFKD os_makedirs ydl_download dl videos
      custom_titles playlist_folder w = (Returned files, w')
    /\ NoDup files
    /\ (forall p, p ∈ files -> (p ∉ fs w) /\ p ∈ fs w')
    /\ fs w ⊆ fs w'.
Proof.
  unfold batch_download.
  destruct (batch_download_loop_distinct dl playlist_folder
              (combine videos
                 (firstn (length videos)
                    match custom_titles with
                    | Some (t :: ts) => t :: ts
                    | _ => map title videos
                    end)) [] w) as (files & w' & H & Hnd & Hin & Hold & Hsub).
  { apply NoDup_nil_2. }
  { intros p Hp. apply elem_of_nil in Hp. contradiction. }
  exists files, w'. split; [exact H|]. split; [exact Hnd|].
  split; [|exact Hsub].
  intros p Hp. split; [|apply Hin, Hp].
  destruct (Hold p Hp) as [Hnil|Hout]; [|exact Hout].
  apply elem_of_nil in Hnil. contradiction.
Qed.

End MoreDownloadProperties.

Lemma download_audio_ignores_create_directory_witness :
  fst (create_directory makedirs_denied (lit "out") empty_world)
  = Returned false
  /\ ydl_calls (snd (download_audio nfkd_latin makedirs_denied engine_ok
                       mp3_downloader (mk_video "u1" "one") None None
                       empty_world))
     = [(lit "u1", lit "out/one.mp3")].
Proof.
  pose proof (download_audio_ignores_create_directory nfkd_latin
                makedirs_denied engine_ok mp3_downloader (mk_video "u1" "one")
                None None empty_world PermissionError eq_refl) as H.
  cbv zeta in H. cbn [is_OSError] in H. destruct H as (H1 & _ & H3).
  split; [exact H1|]. rewrite H3. vm_compute. reflexivity.
Defined.

Lemma download_audio_fresh_path_witness :
  fst (download_audio nfkd_latin makedirs_ok engine_ok mp3_downloader
         (mk_video "u1" "one") None None empty_world)
  = Returned (Some (lit "out/one.mp3"))
  /\ (lit "out/one.mp3"
      ∉ entries_after_makedirs makedirs_ok mp3_downloader None empty_world)
  /\ lit "out/one.mp3"
     ∈ fs (snd (download_audio nfkd_latin makedirs_ok engine_ok mp3_downloader
                  (mk_video "u1" "one") None None empty_world)).
Proof.
  split; [vm_compute; reflexivity|].
  apply (download_audio_fresh_path nfkd_latin makedirs_ok engine_ok
           mp3_downloader (mk_video "u1" "one") None None empty_world).
  vm_compute. reflexivity.
Defined.

Lemma makedirs_ok_keeps_entries : makedirs_keeps_entries makedirs_ok.
Proof. intros fs0 path. unfold makedirs_ok. simpl. apply union_subseteq_l. Qed.

Lemma engine_ok_keeps_entries : engine_keeps_entries engine_ok.
Proof.
  intros fs0 codec quality outtmpl source. unfold engine_ok. simpl.
  apply union_subseteq_l.
Qed.

Lemma batch_download_distinct_files_witness :
  makedirs_keeps_entries makedirs_ok /\ engine_keeps_entries engine_ok
  /\ exists files w',
       batch_download nfkd_latin makedirs_ok engine_ok mp3_downloader
         three_videos (Some [lit "a"; lit "a"; lit "a"]) None empty_world
       = (Returned files, w')
       /\ NoDup files
       /\ (forall p, p ∈ files -> (p ∉ fs empty_world) /\ p ∈ fs w')
       /\ fs empty_world ⊆ fs w'.
Proof.
  split; [exact makedirs_ok_keeps_entries|].
  split; [exact engine_ok_keeps_entries|].
  apply (batch_download_distinct_files nfkd_latin makedirs_ok engine_ok
           makedirs_ok_keeps_entries engine_ok_keeps_entries mp3_downloader
           three_videos (Some [lit "a"; lit "a"; lit "a"]) None empty_world).
Defined.

Example batch_download_same_name_three_times :
  fst (batch_download nfkd_latin makedirs_ok engine_ok mp3_downloader
         three_videos (Some [lit "a"; lit "a"; lit "a"]) None empty_world)
  = Returned [lit "out/a.mp3"; lit "out/a_1.mp3"; lit "out/a_2.mp3"].
Proof. vm_compute. reflexivity. Qed.

(** ** The whole of [_perform_download] and the end of [run] *)

Lemma picked_true_count (results : list (outcome (option pystr))) :
  forall videos : list VideoInfo,
    length results = length videos ->
    length (picked true (map downloaded results) videos)
    = count_downloaded results.
Proof.
  induction results as [|r rs IH]; intros [|v vs] Hl; simpl in Hl;
    try discriminate; [reflexivity|].
  injection Hl as Hl. cbn [map]. rewrite picked_cons, length_app, (IH vs Hl).
  rewrite (count_downloaded_cons r rs). unfold count_downloaded at 2.
  simpl. destruct (downloaded r); reflexivity.
Qed.

Lemma generate_custom_titles_recognized (videos : list VideoInfo)
    (naming_method : pystr) (custom_prefix : option pystr) :
  naming_method = lit "Original Video Titles"
  \/ naming_method = lit "Custom Prefix"
  \/ naming_method = lit "Numbered Sequence" ->
  exists names,
    _generate_custom_titles videos naming_method custom_prefix
    = Returned (Some names)
    /\ length names = length videos.
Proof.
  intros Hrec. unfold _generate_custom_titles.
  destruct Hrec as [ -> | [ -> | -> ] ]; simpl; eexists; (split; [reflexivity|]);
    rewrite length_map, ?length_seq; reflexivity.
Qed.

Lemma generate_custom_titles_other (videos : list VideoInfo)
    (naming_method : pystr) (custom_prefix : option pystr) :
  naming_method <> lit "Original Video Titles" ->
  naming_method <> lit "Custom Prefix" ->
  naming_method <> lit "Numbered Sequence" ->
  _generate_custom_titles videos naming_method custom_prefix = Returned None.
Proof.
  intros H1 H2 H3. unfold _generate_custom_titles.
  destruct (decide (naming_method = lit "Original Video Titles")); [contradiction|].
  destruct (decide (naming_method = lit "Custom Prefix")); [contradiction|].
  destruct (decide (naming_method = lit "Numbered Sequence")); [contradiction|].
  reflexivity.
Qed.

Section WholeDownloadProperties.

Variable normalize_NFKD : pystr -> pystr.
Variable os_makedirs : gset pystr -> pystr -> gset pystr * option exn.
Variable ydl_download :
  gset pystr -> pystr -> pystr -> pystr -> pystr -> gset pystr * option exn.
Variable st_text_input : pystr -> pystr.
Variable tempfile_mkdtemp : gset pystr -> gset pystr * outcome pystr.
Variable TEMP_DOWNLOAD_DIR : pystr.

Local Abbreviation perform_into :=
  (perform_download_into normalize_NFKD os_makedirs ydl_download).
Local Abbreviation perform :=
  (_perform_download normalize_NFKD os_makedirs ydl_download st_text_input
     tempfile_mkdtemp TEMP_DOWNLOAD_DIR).
Local Abbreviation run_end :=
  (run_confirmed normalize_NFKD os_makedirs ydl_download st_text_input
     tempfile_mkdtemp TEMP_DOWNLOAD_DIR).
Local Abbreviation finished :=
  (finished_download normalize_NFKD os_makedirs ydl_download).

(** Once the directory is determined, a non-empty list of items with one
    name each is downloaded to the end and summed up. *)
Lemma perform_download_into_finished (output_dir : pystr)
    (videos : list VideoInfo) (titles : list pystr)
    (audio_format audio_quality : pystr) (page : list Element) (w : World) :
  videos <> [] -> length titles = length videos ->
  finished
    (perform_into output_dir videos (Some titles) audio_format audio_quality
       page w)
    output_dir videos titles audio_format audio_quality page w.
Proof.
  intros Hne Hlen. unfold finished_download, perform_download_into.
  cbv zeta. unfold bind, zip_titles, ret.
  rewrite perform_download_loop_each. cbv zeta.
  rewrite map_fst_combine, Hlen, firstn_all. cbn [app fst snd].
  set (calls := call_each _ (combine videos titles) w).
  set (flags := map downloaded (fst calls)).
  assert (Hc : length (fst calls) = length videos).
  { subst calls. rewrite call_each_length, length_combine, Hlen, Nat.min_id.
    reflexivity. }
  assert (Hf : length flags = length videos)
    by (subst flags; rewrite length_map; exact Hc).
  pose proof (picked_lengths flags videos Hf) as Hsum.
  pose proof (picked_permutation flags videos Hf) as Hperm.
  pose proof (picked_true_count (fst calls) videos Hc) as Hok.
  fold flags in Hok.
  unfold create_download_summary, py_truediv.
  destruct (Nat.eqb_spec
              (length (picked true flags videos)
               + length (picked false flags videos)) 0) as [E|E].
  - rewrite Hsum in E. destruct videos; [congruence | discriminate].
  - cbn [obind]. eexists. split; [rewrite <- app_assoc; reflexivity|].
    cbn [total_videos successful_count failed_count success_rate
         successful_videos failed_videos].
    split; [exact Hsum|]. split; [exact Hok|]. split; [lia|].
    split; [rewrite Hsum, Hok; reflexivity|].
    rewrite <- map_app. apply Permutation_map, Hperm.
Qed.

(** Without a list of names the loop is not entered: [zip] raises
    [TypeError] once the tracker is on the page, and no download is
    made. *)
Lemma perform_download_into_no_titles (output_dir : pystr)
    (videos : list VideoInfo) (audio_format audio_quality : pystr)
    (page : list Element) (w : World) :
  perform_into output_dir videos None audio_format audio_quality page w
  = (Raised TypeError, (page ++ tracker_elements, w)).
Proof. reflexivity. Qed.

(** With no item the summary divides by zero. *)
Lemma perform_download_into_no_videos (output_dir : pystr)
    (titles : list pystr) (audio_format audio_quality : pystr)
    (page : list Element) (w : World) :
  perform_into output_dir [] (Some titles) audio_format audio_quality page w
  = (Raised ZeroDivisionError, (page ++ tracker_elements, w)).
Proof. reflexivity. Qed.



End WholeDownloadProperties.


(** The summary of the run into the temporary directory: three items, two
    successes, one failure. *)
Example perform_download_temporary_directory :
  fst (snd (_perform_download nfkd_latin makedirs_ok
              (engine_failing_on (lit "u2")) text_input_empty mkdtemp_ok
              (lit "downloads") three_videos
              (Some [lit "a"; lit "b"; lit "c"]) (lit "Temporary Directory")
              (lit "mp3") (lit "192") [] empty_world))
  = tracker_elements
    ++ [st_write (lit "### Download Summary");
        st_metric (lit "Total Videos") 3;
        st_metric (lit "Successful Downloads") 2;
        st_metric (lit "Failed Downloads") 1;
        st_metric_rate (lit "Success Rate") ((2 # 3) * 100)%Q].
Proof. vm_compute. reflexivity. Qed.


(** An unrecognized selector with the temporary directory: the directory
    is made, the tracker is shown, and [zip] raises. *)
Example run_confirmed_unrecognized_selector :
  run_confirmed nfkd_latin makedirs_ok engine_ok text_input_music mkdtemp_ok
    (lit "downloads") three_videos (lit "Temporary Directory") (lit "By Date")
    None (lit "mp3") (lit "192") [] empty_world
  = (Raised TypeError,
     (tracker_elements,
      {| fs := fst (mkdtemp_ok ∅); ydl_calls := [] |})).
Proof. reflexivity. Qed.

(** ** [VideoInfo.clean_filename] *)

(** A character that [clean_filename] lets through unchanged. *)
Local Abbreviation plain c :=
  (invalid_filename_char c = false /\ unicode_space c = false).

Lemma remove_chars_free p s : Forall (fun c => p c = false) (remove_chars p s).
Proof.
  unfold remove_chars. induction s as [|c r IH]; simpl; [constructor|].
  destruct (p c) eqn:E; simpl; [exact IH | constructor; assumption].
Qed.

Lemma remove_chars_id p s : Forall (fun c => p c = false) s -> remove_chars p s = s.
Proof.
  unfold remove_chars. induction 1 as [|c r Hc _ IH]; simpl; [reflexivity|].
  rewrite Hc. simpl. f_equal. exact IH.
Qed.

Lemma sub_runs_from_plain s : forall b,
  Forall (fun c => invalid_filename_char c = false) s ->
  Forall (fun c => plain c) (sub_runs_from unicode_space 95 b s).
Proof.
  induction s as [|c r IH]; intros b H; simpl; [constructor|].
  apply Forall_cons in H as [Hc Hr].
  destruct (unicode_space c) eqn:E.
  - destruct b; [apply IH, Hr|]. constructor; [split; reflexivity | apply IH, Hr].
  - constructor; [split; assumption | apply IH, Hr].
Qed.

Lemma sub_runs_from_id p rep s : forall b,
  Forall (fun c => p c = false) s -> sub_runs_from p rep b s = s.
Proof.
  induction s as [|c r IH]; intros b H; simpl; [reflexivity|].
  apply Forall_cons in H as [Hc Hr]. rewrite Hc. f_equal. apply IH, Hr.
Qed.

Lemma lstrip_length p s : (length (lstrip p s) <= length s)%nat.
Proof.
  destruct (lstrip_suffix p s) as [t Ht]. rewrite Ht at 2.
  rewrite length_app. lia.
Qed.

Lemma strip_length p s : (length (strip p s) <= length s)%nat.
Proof.
  unfold strip, rstrip. rewrite length_rev.
  etransitivity; [apply lstrip_length|]. rewrite length_rev. apply lstrip_length.
Qed.

Lemma slice_to_length m s :
  (0 <= m)%Z -> (Z.of_nat (length (slice_to m s)) <= m)%Z.
Proof.
  intros Hm. unfold slice_to. destruct (0 <=? m)%Z eqn:E; [|lia].
  rewrite length_firstn. lia.
Qed.

(** All that holds of a cleaned title. *)
Lemma clean_filename_tidy (title : pystr) (m : Z) :
  truthy (clean_filename title m) = true
  /\ Forall (fun c => plain c) (clean_filename title m)
  /\ head_free dot_or_space (clean_filename title m) = true
  /\ head_free dot_or_space (rev (clean_filename title m)) = true
  /\ ((13 <= m)%Z -> (Z.of_nat (length (clean_filename title m)) <= m)%Z).
Proof.
  unfold clean_filename.
  set (t := slice_to m (sub_runs unicode_space 95
                          (remove_chars invalid_filename_char title))).
  destruct (truthy (strip dot_or_space t)) eqn:E.
  - split; [exact E|]. split; [|split; [apply strip_head_free|]].
    + apply Forall_strip. subst t. apply Forall_slice_to.
      apply sub_runs_from_plain, remove_chars_free.
    + split; [apply strip_last_free|]. intros Hm.
      pose proof (strip_length dot_or_space t).
      pose proof (slice_to_length m
                    (sub_runs unicode_space 95
                       (remove_chars invalid_filename_char title))).
      fold t in H0. lia.
  - split; [reflexivity|]. split; [vm_compute; repeat constructor|].
    split; [reflexivity|]. split; [reflexivity|].
    change (length unnamed_video) with 13%nat. lia.
Qed.

(** A tidy text that fits is left as it is. *)
Lemma clean_filename_fixed (t : pystr) (m : Z) :
  truthy t = true ->
  Forall (fun c => plain c) t ->
  head_free dot_or_space t = true ->
  head_free dot_or_space (rev t) = true ->
  (Z.of_nat (length t) <= m)%Z ->
  clean_filename t m = t.
Proof.
  intros Ht Hp Hh Hl Hm. unfold clean_filename, sub_runs.
  rewrite remove_chars_id
    by (eapply Forall_impl; [exact Hp|]; intros c [H _]; exact H).
  rewrite sub_runs_from_id
    by (eapply Forall_impl; [exact Hp|]; intros c [_ H]; exact H).
  rewrite (slice_to_all _ _ Hm), (strip_fix _ _ Hh Hl), Ht. reflexivity.
Qed.

(** X9. A cleaned title is never empty, contains none of the nine
    characters of the invalid class (backslash, slash, asterisk, question
    mark, colon, double quote, angle brackets, bar) and no whitespace, and
    neither starts nor
    ends with a period or a space, for every title and every maximal
    length. *)
Theorem clean_filename_valid (title : pystr) (max_length : Z) :
  clean_filename title max_length <> []
  /\ Forall (fun c => invalid_filename_char c = false /\ unicode_space c = false)
       (clean_filename title max_length)
  /\ head_free dot_or_space (clean_filename title max_length) = true
  /\ head_free dot_or_space (rev (clean_filename title max_length)) = true.
Proof.
  destruct (clean_filename_tidy title max_length) as (Ht & Hp & Hh & Hl & _).
  split; [apply truthy_nonempty, Ht|]. repeat split; assumption.
Qed.

(** X10. With a maximal length of at least 13 (the length of the fallback
    literal) a cleaned title is at most that long, and cleaning it again
    changes nothing. *)
Theorem clean_filename_idempotent (title : pystr) (max_length : Z) :
  (13 <= max_length)%Z ->
  (Z.of_nat (length (clean_filename title max_length)) <= max_length)%Z
  /\ clean_filename (clean_filename title max_length) max_length
     = clean_filename title max_length.
Proof.
  intros Hm.
  destruct (clean_filename_tidy title max_length) as (Ht & Hp & Hh & Hl & Hlen).
  split; [apply Hlen, Hm|].
  apply clean_filename_fixed; auto.
Qed.

Lemma clean_filename_idempotent_witness :
  (13 <= 255)%Z
  /\ (Z.of_nat (length (clean_filename (lit "What? A <title>: part 1/2.") 255))
      <= 255)%Z
  /\ clean_filename (clean_filename (lit "What? A <title>: part 1/2.") 255) 255
     = clean_filename (lit "What? A <title>: part 1/2.") 255.
Proof.
  split; [lia|].
  apply (clean_filename_idempotent (lit "What? A <title>: part 1/2.") 255). lia.
Defined.

Example clean_filename_ex :
  clean_filename (lit "What? A <title>: part 1/2.") 255 = lit "What_A_title_part_12".
Proof. vm_compute. reflexivity. Qed.

(** Below 13 the fallback literal is cut by the second pass. *)
Example clean_filename_short_max :
  clean_filename (lit "??") 3 = lit "unnamed_video"
  /\ clean_filename (lit "unnamed_video") 3 = lit "unn".
Proof. split; vm_compute; reflexivity. Qed.

(** X11. [get_sanitized_title] without prefix and suffix gives the cleaned
    title itself whenever that neither starts nor ends with an underscore
    (the underscores put around the title are stripped again, together with
    any the title brought along). *)
Theorem get_sanitized_title_default (video : VideoInfo) :
  head_free is_underscore (clean_filename (title video) 255) = true ->
  head_free is_underscore (rev (clean_filename (title video) 255)) = true ->
  get_sanitized_title video [] [] = clean_filename (title video) 255.
Proof.
  intros Hh Hl. unfold get_sanitized_title.
  destruct (clean_filename_tidy (title video) 255) as (Ht & Hp & Hdh & Hdl & Hlen).
  set (base := clean_filename (title video) 255) in *.
  assert (Hstrip : strip is_underscore ([] ++ lit "_" ++ base ++ lit "_" ++ [])
                   = base).
  { change ([] ++ lit "_" ++ base ++ lit "_" ++ []) with (95 :: base ++ [95]).
    unfold strip, rstrip. change (lstrip is_underscore (95 :: base ++ [95]))
      with (lstrip is_underscore (base ++ [95])).
    rewrite (head_free_lstrip is_underscore (base ++ [95])).
    - rewrite rev_app_distr. simpl.
      rewrite (head_free_lstrip _ _ Hl). apply rev_involutive.
    - destruct base; [discriminate | exact Hh]. }
  rewrite Hstrip. apply clean_filename_fixed; auto. apply Hlen. lia.
Qed.

Lemma get_sanitized_title_default_witness :
  head_free is_underscore (clean_filename (title (mk_video "u1" "My: song")) 255)
  = true
  /\ get_sanitized_title (mk_video "u1" "My: song") [] []
     = clean_filename (title (mk_video "u1" "My: song")) 255.
Proof.
  split; [vm_compute; reflexivity|].
  apply (get_sanitized_title_default (mk_video "u1" "My: song"));
    vm_compute; reflexivity.
Defined.

Example get_sanitized_title_strips_underscores :
  get_sanitized_title (mk_video "u1" "_.demo_") [] [] = lit "demo"
  /\ get_sanitized_title (mk_video "u1" "___") [] [] = lit "unnamed_video"
  /\ get_sanitized_title (mk_video "u1" "a b") (lit "x") (lit "y") = lit "x_a_b_y".
Proof. repeat split; vm_compute; reflexivity. Qed.

(** ** [_convert_duration] *)

Lemma str_of_int_inj x y : str_of_int x = str_of_int y -> x = y.
Proof. unfold str_of_int. intros H. apply lit_inj in H. apply (inj pretty), H. Qed.

Lemma part_not_zero_seconds (x : Z) (unit : N) :
  (0 < x)%Z -> str_of_int x ++ [unit] <> lit "0s".
Proof.
  intros Hx H. change (lit "0s") with (str_of_int 0 ++ [115]) in H.
  apply app_inj_tail in H as [H _]. apply str_of_int_inj in H. lia.
Qed.

Lemma longer_than_two (a b : pystr) (u v : N) (rest : pystr) :
  a ++ [u] ++ [32] ++ b ++ [v] ++ rest <> lit "0s".
Proof.
  intros H. apply (f_equal (@length N)) in H.
  rewrite !length_app in H. simpl in H. lia.
Qed.

(** X12. [_convert_duration] returns [None] exactly for a duration of 0
    (or none at all), and the text "0s" exactly for a negative multiple of
    3600: there the hours are negative and skipped, minutes and seconds are
    0, and the fallback is taken.  A positive duration never reads "0s". *)
Theorem convert_duration_edges (d : Z) :
  (_convert_duration (Some d) = None <-> d = 0%Z)
  /\ (_convert_duration (Some d) = Some (lit "0s")
      <-> (d < 0 /\ d mod 3600 = 0)%Z).
Proof.
  unfold _convert_duration. destruct (Z.eqb_spec d 0) as [->|Hd].
  - split; [split; reflexivity|]. split; [discriminate | lia].
  - split; [split; [discriminate | contradiction]|].
    unfold append_part.
    pose proof (Z.mod_pos_bound d 3600 eq_refl) as Hr.
    pose proof (Z.div_mod d 3600 ltac:(lia)) as Hdm.
    pose proof (Z.mod_pos_bound (d mod 3600) 60 eq_refl) as Hs.
    pose proof (Z.div_mod (d mod 3600) 60 ltac:(lia)) as Hsm.
    assert (Hmin : (0 <= d mod 3600 / 60)%Z) by (apply Z.div_pos; lia).
    destruct (Z.ltb_spec 0 (d / 3600)) as [Hh|Hh];
      destruct (Z.ltb_spec 0 (d mod 3600 / 60)) as [Hm|Hm];
      destruct (Z.ltb_spec 0 (d mod 3600 mod 60)) as [Hsec|Hsec]; simpl.
    8: { split; [intros _; lia | reflexivity]. }
    all: split; [|intros [H1 H2]; exfalso; lia].
    all: intros H; exfalso; apply (f_equal (default [])) in H; simpl in H.
    all: rewrite <- ?app_assoc in H; simpl in H.
    all: first [ exact (part_not_zero_seconds _ _ ltac:(eassumption) H)
               | exact (longer_than_two _ _ _ _ _ H)
               | exact (longer_than_two _ _ _ _ [] H)
               | idtac ].
    all: try (change (lit "0s") with (str_of_int 0 ++ [115]) in H;
              apply app_inj_tail in H as [_ H]; discriminate).
Qed.

Example convert_duration_examples :
  _convert_duration (Some 3725%Z) = Some (lit "1h 2m 5s")
  /\ _convert_duration (Some 60%Z) = Some (lit "1m")
  /\ _convert_duration (Some (-3600)%Z) = Some (lit "0s")
  /\ _convert_duration (Some (-1)%Z) = Some (lit "59m 59s").
Proof. repeat split; vm_compute; reflexivity. Qed.

(** ** The URL validator *)

Lemma match_chars_split eq pat : forall s r,
  match_chars eq pat s = Some r ->
  exists m, s = m ++ r /\ Forall2 (fun l c => eq l c = true) pat m.
Proof.
  induction pat as [|l pat IH]; intros s r H; simpl in H.
  - injection H as ->. exists []. split; [reflexivity | constructor].
  - destruct s as [|c s]; [discriminate|].
    destruct (eq l c) eqn:E; [|discriminate].
    destruct (IH s r H) as (m & -> & Hm).
    exists (c :: m). split; [reflexivity | constructor; assumption].
Qed.

Lemma match_chars_build eq pat : forall m r,
  Forall2 (fun l c => eq l c = true) pat m ->
  match_chars eq pat (m ++ r) = Some r.
Proof.
  intros m r H. induction H as [|l c pat m Hlc _ IH]; simpl; [reflexivity|].
  rewrite Hlc. exact IH.
Qed.

Lemma match_chars_exact pat s r :
  match_chars N.eqb pat s = Some r -> s = pat ++ r.
Proof.
  intros H. apply match_chars_split in H as (m & -> & Hm). f_equal.
  induction Hm as [|l c pat m Hlc _ IH]; [reflexivity|].
  apply N.eqb_eq in Hlc. subst c. f_equal. exact IH.
Qed.

Lemma match_chars_exact_refl pat r : match_chars N.eqb pat (pat ++ r) = Some r.
Proof.
  apply match_chars_build. induction pat; constructor; [apply N.eqb_refl | assumption].
Qed.

Ltac ci_arith :=
  unfold ci_match, pattern_char, is_upper, is_lower, between in *;
  repeat match goal with
    | H : _ = true |- _ =>
        first [ apply orb_true_iff in H | apply andb_true_iff in H
              | apply N.leb_le in H | apply N.eqb_eq in H
              | apply N.ltb_lt in H | apply negb_true_iff in H ]
    | H : _ = false |- _ =>
        first [ apply orb_false_iff in H | apply andb_false_iff in H
              | apply N.leb_gt in H | apply N.eqb_neq in H
              | apply N.ltb_ge in H | apply negb_false_iff in H ]
    | H : _ /\ _ |- _ => destruct H
    | H : _ \/ _ |- _ => destruct H
    end;
  try lia.

(** One character cannot match two different pattern characters. *)
Lemma ci_match_disjoint a b c :
  a <> b -> pattern_char a = true -> pattern_char b = true ->
  ci_match a c = true -> ci_match b c = true -> False.
Proof. intros Hab Ha Hb Hac Hbc. ci_arith. Qed.

Lemma ci_match_amp l c :
  ci_match l c = true -> pattern_char l = true -> l <> 38 -> c <> 38.
Proof. intros H Hl Hne Hc. subst c. ci_arith. Qed.

Lemma clash_sound p : forall q s r1 r2,
  clash p q = true ->
  match_chars ci_match p s = Some r1 ->
  match_chars ci_match q s = Some r2 -> False.
Proof.
  induction p as [|a p IH]; intros [|b q] s r1 r2 Hc H1 H2; simpl in Hc;
    try discriminate.
  simpl in H1, H2. destruct s as [|c s]; [discriminate|].
  destruct (ci_match a c) eqn:Ea; [|discriminate].
  destruct (ci_match b c) eqn:Eb; [|discriminate].
  destruct (N.eqb_spec a b) as [->|Hab].
  - exact (IH q s r1 r2 Hc H1 H2).
  - apply andb_true_iff in Hc as [Ha Hb].
    exact (ci_match_disjoint a b c Hab Ha Hb Ea Eb).
Qed.

Lemma match_scheme_http s r :
  match_scheme s = Some r -> exists r', match_chars ci_match (lit "http") s = Some r'.
Proof.
  unfold match_scheme. destruct (match_chars ci_match (lit "http") s) as [r'|];
    [|discriminate].
  intros _. exists r'. reflexivity.
Qed.

Lemma match_tail_literal literal excluded s :
  match_tail literal excluded s = true ->
  exists c r, match_chars ci_match literal s = Some (c :: r) /\ excluded c = false.
Proof.
  unfold match_tail. destruct (match_chars ci_match literal s) as [[|c r]|];
    try discriminate.
  intros H. exists c, r. split; [reflexivity|]. apply negb_true_iff, H.
Qed.

(** Two patterns whose literals clash, and clash with the scheme, never
    match the same text. *)
Lemma re_match_url_exclusive lit1 ex1 lit2 ex2 url :
  clash lit1 lit2 = true ->
  clash (lit "http") lit1 = true -> clash (lit "http") lit2 = true ->
  re_match_url lit1 ex1 url = true -> re_match_url lit2 ex2 url = true -> False.
Proof.
  intros Hc H1 H2 M1 M2. unfold re_match_url in M1, M2.
  apply orb_true_iff in M1, M2.
  destruct (match_scheme url) as [rest|] eqn:Es.
  - destruct (match_scheme_http _ _ Es) as [r' Hh].
    destruct M1 as [M1|M1]; apply match_tail_literal in M1 as (c1 & r1 & M1 & _);
      destruct M2 as [M2|M2]; apply match_tail_literal in M2 as (c2 & r2 & M2 & _).
    + exact (clash_sound _ _ _ _ _ Hc M1 M2).
    + exact (clash_sound _ _ _ _ _ H2 Hh M2).
    + exact (clash_sound _ _ _ _ _ H1 Hh M1).
    + exact (clash_sound _ _ _ _ _ Hc M1 M2).
  - destruct M1 as [M1|M1]; [discriminate|].
    destruct M2 as [M2|M2]; [discriminate|].
    apply match_tail_literal in M1 as (c1 & r1 & M1 & _).
    apply match_tail_literal in M2 as (c2 & r2 & M2 & _).
    exact (clash_sound _ _ _ _ _ Hc M1 M2).
Qed.

Lemma re_match_url_nonempty literal excluded url :
  re_match_url literal excluded url = true -> truthy url = true.
Proof.
  unfold re_match_url. intros H. apply orb_true_iff in H as [H|H].
  - destruct (match_scheme url) as [rest|] eqn:Es; [|discriminate].
    apply match_scheme_http in Es as [r' Hh]. destruct url; [discriminate|reflexivity].
  - apply match_tail_literal in H as (c & r & H & _).
    apply match_chars_split in H as (m & -> & _).
    destruct m; reflexivity.
Qed.

(** X13. A URL that [is_playlist_url] or [is_channel_url] accepts is a
    valid YouTube URL for [validate_youtube_url]. *)
Theorem playlist_or_channel_is_valid (url : pystr) :
  is_playlist_url url = true \/ is_channel_url url = true ->
  validate_youtube_url url = true.
Proof.
  unfold is_playlist_url, is_channel_url, validate_youtube_url, matches_pattern.
  intros [H|H]; rewrite (re_match_url_nonempty _ _ _ H); simpl in *;
    rewrite H, ?orb_true_r; reflexivity.
Qed.

Lemma playlist_or_channel_is_valid_witness :
  is_channel_url (lit "https://www.youtube.com/channel/UC123") = true
  /\ validate_youtube_url (lit "https://www.youtube.com/channel/UC123") = true.
Proof.
  split; [vm_compute; reflexivity|].
  apply (playlist_or_channel_is_valid (lit "https://www.youtube.com/channel/UC123")).
  right. vm_compute. reflexivity.
Defined.

(** X14. No text matches two of the four patterns of [YOUTUBE_PATTERNS]:
    a URL is at most one of standard video, shortened video, playlist,
    channel, upper and lower case and the optional scheme included. *)
Theorem youtube_patterns_exclusive (url : pystr) (i j : nat)
    (entry1 entry2 : string * (pystr * (N -> bool))) :
  i <> j ->
  YOUTUBE_PATTERNS !! i = Some entry1 ->
  YOUTUBE_PATTERNS !! j = Some entry2 ->
  matches_pattern (snd entry1) url = true ->
  matches_pattern (snd entry2) url = true ->
  False.
Proof.
  intros Hij H1 H2 M1 M2. unfold matches_pattern in *.
  repeat (destruct i as [|i]; simpl in H1; try discriminate);
    repeat (destruct j as [|j]; simpl in H2; try discriminate);
    try congruence;
    injection H1 as <-; injection H2 as <-; simpl in M1, M2;
    (eapply re_match_url_exclusive; [| | |exact M1|exact M2]);
    vm_compute; reflexivity.
Qed.

Lemma youtube_patterns_exclusive_witness :
  matches_pattern (lit "www.youtube.com/playlist?list=", is_amp)
    (lit "www.youtube.com/playlist?list=PL1") = true
  /\ matches_pattern (lit "www.youtube.com/watch?v=", is_amp)
       (lit "www.youtube.com/playlist?list=PL1") <> true.
Proof.
  split; [vm_compute; reflexivity|].
  intros H.
  apply (youtube_patterns_exclusive (lit "www.youtube.com/playlist?list=PL1")
           0 2 ("standard_video", (lit "www.youtube.com/watch?v=", is_amp))
           ("playlist", (lit "www.youtube.com/playlist?list=", is_amp)));
    [discriminate | reflexivity | reflexivity | exact H | vm_compute; reflexivity].
Defined.

Section ExtractVideosProperties.

Variable extract_playlist_videos : pystr -> Py (list VideoInfo).
Variable extract_video_info : pystr -> Py (option VideoInfo).

(** X15. For every channel URL [_extract_videos] returns the empty list
    and touches nothing, whatever the playlist and single-video extraction
    would do: the channel branch is taken (a channel URL is no playlist URL)
    and [get_channel_videos] returns no video. *)
Theorem extract_videos_channel_empty (url : pystr) (w : World) :
  is_channel_url url = true ->
  _extract_videos extract_playlist_videos extract_video_info url w
  = (Returned [], w).
Proof.
  intros Hc. unfold _extract_videos.
  destruct (is_playlist_url url) eqn:Hp.
  - exfalso. unfold is_playlist_url, is_channel_url, matches_pattern in *.
    simpl in Hp, Hc.
    (eapply re_match_url_exclusive; [| | |exact Hp|exact Hc]);
      vm_compute; reflexivity.
  - rewrite Hc. unfold get_channel_videos. rewrite Hc. reflexivity.
Qed.

End ExtractVideosProperties.

Lemma extract_videos_channel_empty_witness :
  is_channel_url (lit "https://www.youtube.com/channel/UC123") = true
  /\ _extract_videos (fun _ => raise DownloadError) (fun _ => raise DownloadError)
       (lit "https://www.youtube.com/channel/UC123") empty_world
     = (Returned [], empty_world).
Proof.
  split; [vm_compute; reflexivity|].
  apply (extract_videos_channel_empty (fun _ => raise DownloadError)
           (fun _ => raise DownloadError)
           (lit "https://www.youtube.com/channel/UC123") empty_world).
  vm_compute. reflexivity.
Defined.

(** *** [sanitize_url] *)

Lemma sub_amp_from_no_amp s : forall b, Forall (fun c => c <> 38) (sub_amp_from b s).
Proof.
  induction s as [|c r IH]; intros b; simpl; [constructor|].
  destruct b.
  - destruct (N.eqb_spec c 10) as [->|_]; [constructor; [discriminate|]|]; apply IH.
  - destruct (N.eqb_spec c 38) as [_|Hc]; [apply IH|]. constructor; [exact Hc | apply IH].
Qed.

Lemma sub_amp_from_app m r :
  Forall (fun c => c <> 38) m ->
  sub_amp_from false (m ++ r) = m ++ sub_amp_from false r.
Proof.
  induction 1 as [|c m Hc _ IH]; simpl; [reflexivity|].
  apply N.eqb_neq in Hc. rewrite Hc. f_equal. exact IH.
Qed.

Lemma sub_amp_from_id s :
  Forall (fun c => c <> 38) s -> sub_amp_from false s = s.
Proof.
  intros H. rewrite <- (app_nil_r s) at 1.
  rewrite (sub_amp_from_app s [] H). simpl. apply app_nil_r.
Qed.

Lemma matched_no_amp pat m :
  forallb (fun l => negb (l =? 38) && pattern_char l) pat = true ->
  Forall2 (fun l c => ci_match l c = true) pat m ->
  Forall (fun c => c <> 38) m.
Proof.
  intros Hp H. induction H as [|l c pat m Hlc _ IH]; [constructor|].
  simpl in Hp. apply andb_true_iff in Hp as [Hl Hp].
  apply andb_true_iff in Hl as [Hl1 Hl2].
  constructor; [|apply IH, Hp].
  apply (ci_match_amp l c Hlc Hl2). apply N.eqb_neq, negb_true_iff, Hl1.
Qed.

Lemma match_tail_clean literal excluded s :
  forallb (fun l => negb (l =? 38) && pattern_char l) literal = true ->
  excluded 38 = true ->
  match_tail literal excluded s = true ->
  match_tail literal excluded (sub_amp_from false s) = true.
Proof.
  intros Hlit Hex H. apply match_tail_literal in H as (c & r & H & Hc).
  apply match_chars_split in H as (m & -> & Hm).
  assert (c <> 38) by (intros ->; congruence).
  rewrite (sub_amp_from_app m (c :: r) (matched_no_amp _ _ Hlit Hm)). simpl.
  replace (c =? 38) with false by (symmetry; apply N.eqb_neq; assumption).
  unfold match_tail. rewrite (match_chars_build _ _ _ _ Hm), Hc. reflexivity.
Qed.

(** The scheme, when it matches, is a prefix without ampersand that matches
    in front of any other text as well. *)
Lemma match_scheme_split s r :
  match_scheme s = Some r ->
  exists m, s = m ++ r /\ Forall (fun c => c <> 38) m
            /\ forall r', match_scheme (m ++ r') = Some r'.
Proof.
  unfold match_scheme.
  destruct (match_chars ci_match (lit "http") s) as [t|] eqn:Eh; [|discriminate].
  apply match_chars_split in Eh as (h & -> & Hh).
  assert (Hhn : Forall (fun c => c <> 38) h)
    by (apply (matched_no_amp (lit "http")); [reflexivity | exact Hh]).
  destruct t as [|c t'].
  - simpl. discriminate.
  - destruct (ci_match 115 c) eqn:Es.
    + destruct (match_chars ci_match (lit "://") t') as [rest|] eqn:Et.
      * intros H. injection H as <-.
        apply match_chars_split in Et as (x & -> & Hx).
        exists (h ++ c :: x). split; [rewrite <- app_assoc; reflexivity|].
        split.
        { apply Forall_app. split; [exact Hhn|]. constructor.
          - apply (ci_match_amp 115 c Es); [reflexivity | discriminate].
          - apply (matched_no_amp (lit "://")); [reflexivity | exact Hx]. }
        intros r'. rewrite <- app_assoc. rewrite (match_chars_build _ _ _ _ Hh).
        change ((c :: x) ++ r') with (c :: (x ++ r')). cbv iota beta.
        rewrite Es. rewrite (match_chars_build _ _ _ _ Hx). reflexivity.
      * intros H. exfalso.
        apply match_chars_split in H as (x & Hx & Hxm).
        inversion Hxm as [|l0 c0 pat0 x0 Ec _ Hl Hc0]. subst x.
        injection Hx as <- _. clear -Es Ec. ci_arith.
    + intros H.
      apply match_chars_split in H as (x & Hx & Hxm).
      exists (h ++ x). rewrite Hx. split; [rewrite <- app_assoc; reflexivity|].
      split.
      { apply Forall_app. split; [exact Hhn|].
        apply (matched_no_amp (lit "://")); [reflexivity | exact Hxm]. }
      intros r'. rewrite <- app_assoc. rewrite (match_chars_build _ _ _ _ Hh).
      destruct x as [|c0 x0]; [inversion Hxm|].
      injection Hx as <- _.
      change ((c :: x0) ++ r') with (c :: (x0 ++ r')). cbv iota beta.
      rewrite Es.
      exact (match_chars_build _ _ _ r' Hxm).
Qed.

Lemma re_match_url_clean literal excluded url :
  forallb (fun l => negb (l =? 38) && pattern_char l) literal = true ->
  excluded 38 = true ->
  re_match_url literal excluded url = true ->
  re_match_url literal excluded (sub_amp_from false url) = true.
Proof.
  intros Hlit Hex H. unfold re_match_url in *.
  apply orb_true_iff in H as [H|H]; apply orb_true_iff.
  - destruct (match_scheme url) as [rest|] eqn:Es; [|discriminate].
    apply match_scheme_split in Es as (m & -> & Hm & Hany).
    left. rewrite (sub_amp_from_app m rest Hm), Hany.
    apply match_tail_clean; assumption.
  - right. apply match_tail_clean; assumption.
Qed.

Lemma youtube_patterns_ok entry :
  In entry YOUTUBE_PATTERNS -> pattern_ok (snd entry) = true.
Proof.
  assert (H : forallb (fun e => pattern_ok (snd e)) YOUTUBE_PATTERNS = true)
    by (vm_compute; reflexivity).
  rewrite forallb_forall in H. apply H.
Qed.

Lemma pattern_ok_parts pattern :
  pattern_ok pattern = true ->
  forallb (fun l => negb (l =? 38) && pattern_char l) (fst pattern) = true
  /\ snd pattern 38 = true
  /\ clash (lit "http") (fst pattern) = true.
Proof.
  unfold pattern_ok. intros H. apply andb_true_iff in H as [H H3].
  apply andb_true_iff in H as [H1 H2]. repeat split; assumption.
Qed.

Lemma validate_matches url :
  validate_youtube_url url = true ->
  exists entry, In entry YOUTUBE_PATTERNS
                /\ matches_pattern (snd entry) url = true.
Proof.
  unfold validate_youtube_url. destruct (truthy url); [|discriminate].
  simpl negb. cbv iota. intros H. apply existsb_exists in H. exact H.
Qed.

Lemma matches_validate url entry :
  In entry YOUTUBE_PATTERNS -> matches_pattern (snd entry) url = true ->
  validate_youtube_url url = true.
Proof.
  intros Hin Hm. unfold validate_youtube_url.
  rewrite (re_match_url_nonempty _ _ _ Hm). simpl negb. cbv iota.
  apply existsb_exists. exists entry. split; assumption.
Qed.

Lemma validate_clean url :
  validate_youtube_url url = true ->
  validate_youtube_url (sub_amp_from false url) = true.
Proof.
  intros H. apply validate_matches in H as (entry & Hin & Hm).
  apply (matches_validate _ entry Hin). unfold matches_pattern in *.
  destruct (pattern_ok_parts _ (youtube_patterns_ok entry Hin)) as (H1 & H2 & _).
  apply re_match_url_clean; assumption.
Qed.

Lemma startswith_split prefix s :
  startswith prefix s = true -> exists r, s = prefix ++ r.
Proof.
  unfold startswith. destruct (match_chars N.eqb prefix s) as [r|] eqn:E;
    [|discriminate].
  intros _. exists r. apply match_chars_exact, E.
Qed.

Lemma startswith_app prefix r : startswith prefix (prefix ++ r) = true.
Proof. unfold startswith. rewrite match_chars_exact_refl. reflexivity. Qed.

(** X16. [sanitize_url] returns [None] exactly for the URLs that
    [validate_youtube_url] rejects.  A URL it returns contains no ampersand
    and starts with [http://] or [https://] in lower case. *)
Theorem sanitize_url_result (url : pystr) :
  (sanitize_url url = None <-> validate_youtube_url url = false)
  /\ forall r, sanitize_url url = Some r ->
       Forall (fun c => c <> 38) r
       /\ (startswith (lit "http://") r = true
           \/ startswith (lit "https://") r = true).
Proof.
  unfold sanitize_url. destruct (validate_youtube_url url);
    cbn [negb]; cbv zeta.
  - destruct (startswith (lit "http://") (sub_amp_from false url)) eqn:E1;
      [|destruct (startswith (lit "https://") (sub_amp_from false url)) eqn:E2];
      cbn [negb orb].
    + split; [split; discriminate|]. intros r H. apply (inj Some) in H. subst r.
      split; [apply sub_amp_from_no_amp | left; exact E1].
    + split; [split; discriminate|]. intros r H. apply (inj Some) in H. subst r.
      split; [apply sub_amp_from_no_amp | right; exact E2].
    + split; [split; discriminate|]. intros r H. apply (inj Some) in H. subst r.
      split; [|right; apply startswith_app].
      apply Forall_app. split; [|apply sub_amp_from_no_amp].
      vm_compute. repeat constructor; discriminate.
  - split; [split; reflexivity | discriminate].
Qed.

(** X17. For a URL whose scheme is absent or written in lower case, what
    [sanitize_url] returns is again a valid YouTube URL, and sanitizing it
    once more returns it unchanged. *)
Theorem sanitize_url_stable (url r : pystr) :
  sanitize_url url = Some r ->
  startswith (lit "http://") url = true
  \/ startswith (lit "https://") url = true
  \/ match_scheme url = None ->
  validate_youtube_url r = true /\ sanitize_url r = Some r.
Proof.
  unfold sanitize_url at 1.
  destruct (validate_youtube_url url) eqn:Hv; [|discriminate].
  cbn [negb]; cbv zeta.
  pose proof (validate_clean url Hv) as Hvc.
  pose proof (sub_amp_from_no_amp url false) as Hna.
  set (cleaned := sub_amp_from false url) in *.
  assert (Hfix : forall t, validate_youtube_url t = true ->
                           Forall (fun c => c <> 38) t ->
                           startswith (lit "http://") t
                           || startswith (lit "https://") t = true ->
                           sanitize_url t = Some t).
  { intros t Ht Hamp Hst. unfold sanitize_url.
    rewrite Ht, (sub_amp_from_id t Hamp), Hst. reflexivity. }
  destruct (startswith (lit "http://") cleaned
            || startswith (lit "https://") cleaned) eqn:Hst; cbn [negb];
    intros H Hscheme; apply (inj Some) in H; subst r.
  - split; [exact Hvc | apply Hfix; assumption].
  - assert (Hnone : match_scheme url = None).
    { destruct Hscheme as [Hs|[Hs|Hs]]; [| |exact Hs]; exfalso;
        apply startswith_split in Hs as [u' ->]; subst cleaned;
        rewrite sub_amp_from_app in Hst
          by (vm_compute; repeat constructor; discriminate);
        rewrite startswith_app, ?orb_true_r in Hst; discriminate. }
    apply validate_matches in Hv as (entry & Hin & Hm).
    destruct (pattern_ok_parts _ (youtube_patterns_ok entry Hin)) as (H1 & H2 & _).
    unfold matches_pattern, re_match_url in Hm. rewrite Hnone in Hm. simpl in Hm.
    pose proof (match_tail_clean _ _ _ H1 H2 Hm) as Htail. fold cleaned in Htail.
    assert (Hvr : validate_youtube_url (lit "https://" ++ cleaned) = true).
    { apply (matches_validate _ entry Hin). unfold matches_pattern, re_match_url.
      change (match_scheme (lit "https://" ++ cleaned)) with (Some cleaned).
      cbv iota beta. rewrite Htail. reflexivity. }
    split; [exact Hvr|]. apply Hfix; [exact Hvr| |].
    + apply Forall_app. split; [|exact Hna].
      vm_compute. repeat constructor; discriminate.
    + rewrite (startswith_app (lit "https://") cleaned). apply orb_true_r.
Qed.

Lemma sanitize_url_stable_witness :
  sanitize_url (lit "www.youtube.com/watch?v=abc&t=1")
  = Some (lit "https://www.youtube.com/watch?v=abc")
  /\ validate_youtube_url (lit "https://www.youtube.com/watch?v=abc") = true
  /\ sanitize_url (lit "https://www.youtube.com/watch?v=abc")
     = Some (lit "https://www.youtube.com/watch?v=abc").
Proof.
  split; [vm_compute; reflexivity|].
  apply (sanitize_url_stable (lit "www.youtube.com/watch?v=abc&t=1")
           (lit "https://www.youtube.com/watch?v=abc")).
  - vm_compute. reflexivity.
  - right. right. vm_compute. reflexivity.
Defined.

(** An upper-case scheme is accepted by the validator and then prefixed
    once more: the result is no valid URL. *)
Example sanitize_url_upper_case_scheme :
  sanitize_url (lit "HTTP://www.youtube.com/watch?v=abc&t=1")
  = Some (lit "https://HTTP://www.youtube.com/watch?v=abc")
  /\ validate_youtube_url (lit "https://HTTP://www.youtube.com/watch?v=abc")
     = false.
Proof. split; vm_compute; reflexivity. Qed.

(** *** [extract_video_id] *)

Lemma take_outside_split excluded s :
  exists post, s = take_outside excluded s ++ post
               /\ Forall (fun c => excluded c = false) (take_outside excluded s).
Proof.
  induction s as [|c r (post & IH & IHf)]; simpl.
  - exists []. split; [reflexivity | constructor].
  - destruct (excluded c) eqn:E.
    + exists (c :: r). split; [reflexivity | constructor].
    + exists post. split; [simpl; f_equal; exact IH | constructor; assumption].
Qed.

Lemma re_search_group_found pat excluded s : forall id,
  re_search_group pat excluded s = Some id ->
  id <> [] /\ Forall (fun c => excluded c = false) id
  /\ exists pre post, s = pre ++ pat ++ id ++ post.
Proof.
  induction s as [|c r IH]; intros id H; [discriminate|].
  assert (Hrec : re_search_group pat excluded r = Some id ->
                 id <> [] /\ Forall (fun c => excluded c = false) id
                 /\ exists pre post, c :: r = pre ++ pat ++ id ++ post).
  { intros Hr. destruct (IH id Hr) as (H1 & H2 & pre & post & ->).
    split; [exact H1|]. split; [exact H2|]. exists (c :: pre), post. reflexivity. }
  cbn [re_search_group] in H.
  destruct (match_chars N.eqb pat (c :: r)) as [[|d rest]|] eqn:E;
    try (apply Hrec, H).
  destruct (excluded d) eqn:Ed; [apply Hrec, H|].
  injection H as <-. apply match_chars_exact in E.
  destruct (take_outside_split excluded (d :: rest)) as (post & Hpost & Hf).
  split; [simpl; rewrite Ed; discriminate|]. split; [exact Hf|].
  exists [], post. simpl. rewrite E. f_equal. exact Hpost.
Qed.

(** X18. When [extract_video_id] returns an identifier, the URL is valid,
    the identifier is not empty, contains no ampersand, and is a piece of
    the URL itself; for a URL the validator rejects it returns [None]. *)
Theorem extract_video_id_result (url : pystr) :
  (validate_youtube_url url = false -> extract_video_id url = None)
  /\ forall id, extract_video_id url = Some id ->
       validate_youtube_url url = true
       /\ id <> []
       /\ Forall (fun c => c <> 38) id
       /\ exists pre post, url = pre ++ id ++ post.
Proof.
  unfold extract_video_id. destruct (validate_youtube_url url); simpl.
  - split; [discriminate|]. intros id H. split; [reflexivity|].
    assert (Hfound : exists pat excluded,
               re_search_group pat excluded url = Some id
               /\ excluded 38 = true).
    { destruct (re_search_group (lit "v=") is_amp url) eqn:E1.
      - injection H as <-. exists (lit "v="), is_amp. split; [exact E1 | reflexivity].
      - destruct (re_search_group (lit "youtu.be/") is_amp_or_question url) eqn:E2.
        + injection H as <-. exists (lit "youtu.be/"), is_amp_or_question.
          split; [exact E2 | reflexivity].
        + exists (lit "embed/"), is_amp_or_question. split; [exact H | reflexivity]. }
    destruct Hfound as (pat & excluded & Hs & Hex).
    apply re_search_group_found in Hs as (Hne & Hf & pre & post & ->).
    split; [exact Hne|]. split.
    + eapply Forall_impl; [exact Hf|]. intros c Hc -> . simpl in Hc. congruence.
    + exists (pre ++ pat), post. rewrite <- !app_assoc. reflexivity.
  - split; [reflexivity | discriminate].
Qed.

Lemma extract_video_id_result_witness :
  extract_video_id (lit "https://www.youtube.com/watch?v=abc&t=1") = Some (lit "abc")
  /\ validate_youtube_url (lit "https://www.youtube.com/watch?v=abc&t=1") = true
  /\ lit "abc" <> [].
Proof.
  split; [vm_compute; reflexivity|].
  destruct (extract_video_id_result (lit "https://www.youtube.com/watch?v=abc&t=1"))
    as [_ H].
  destruct (H (lit "abc")) as (H1 & H2 & _); [vm_compute; reflexivity|].
  split; assumption.
Defined.

(** The validator ignores case, the search for [v=] does not. *)
Example extract_video_id_upper_case :
  validate_youtube_url (lit "https://WWW.YOUTUBE.COM/WATCH?V=abc") = true
  /\ extract_video_id (lit "https://WWW.YOUTUBE.COM/WATCH?V=abc") = None.
Proof. split; vm_compute; reflexivity. Qed.

(** ** The progress tracker's worker *)

Section WorkerProperties.

Import ProgressTracker.

Variable st_update : nat -> nat -> pystr -> bool -> option exn -> option exn.
Variable download_func : VideoInfo -> Py (option pystr).

Local Abbreviation update := (_update_progress st_update).
Local Abbreviation task := (run_task st_update download_func).
Local Abbreviation loop := (worker_loop st_update download_func).
Local Abbreviation worker := (_download_worker st_update download_func).

Lemma update_progress_counters tr video_title success error :
  let tr' := snd (update tr video_title success error) in
  total_videos tr' = total_videos tr
  /\ stop_event tr' = stop_event tr
  /\ current_video tr' = S (current_video tr)
  /\ successful_downloads tr' = successful_downloads tr
  /\ failed_downloads tr' = failed_downloads tr
  /\ unfinished_tasks tr' = unfinished_tasks tr.
Proof.
  unfold _update_progress. simpl.
  destruct (Nat.eqb (total_videos tr) 0); [simpl; repeat split|].
  destruct (st_update _ _ _ _ _); simpl; repeat split.
Qed.

Ltac counters :=
  repeat match goal with
    | H : _ /\ _ |- _ => destruct H
    end;
  repeat split; try congruence; try lia.

Lemma run_task_continues video tr w :
  continues tr (snd (fst (task video tr w))).
Proof.
  unfold run_task, continues.
  destruct (download_func video w) as [[r|e] w1].
  - destruct (truthy_opt r).
    + pose proof (update_progress_counters (count_success tr) (title video)
                    true None) as H.
      destruct (update (count_success tr) (title video) true None)
        as [[u|e] tr1]; simpl in *.
      * counters.
      * pose proof (update_progress_counters (count_failure tr1) (title video)
                      false (Some e)) as H'.
        destruct (update (count_failure tr1) (title video) false (Some e))
          as [res tr2]; simpl in *. counters.
    + pose proof (update_progress_counters (count_failure tr) (title video)
                    false None) as H.
      destruct (update (count_failure tr) (title video) false None)
        as [[u|e] tr1]; simpl in *.
      * counters.
      * pose proof (update_progress_counters (count_failure tr1) (title video)
                      false (Some e)) as H'.
        destruct (update (count_failure tr1) (title video) false (Some e))
          as [res tr2]; simpl in *. counters.
  - pose proof (update_progress_counters (count_failure tr) (title video)
                  false (Some e)) as H.
    destruct (update (count_failure tr) (title video) false (Some e))
      as [res tr2]; simpl in *. counters.
Qed.

Lemma continues_refl tr : continues tr tr.
Proof. unfold continues. counters. Qed.

Lemma continues_trans tr1 tr2 tr3 :
  continues tr1 tr2 -> continues tr2 tr3 -> continues tr1 tr3.
Proof. unfold continues. intros H1 H2. counters. Qed.

Lemma worker_loop_continues queue : forall tr w,
  continues tr (snd (fst (snd (loop queue tr w)))).
Proof.
  induction queue as [|[video|] rest IH]; intros tr w; simpl;
    destruct (stop_event tr); simpl; try apply continues_refl.
  pose proof (run_task_continues video tr w) as H.
  destruct (task video tr w) as [[[u|e] tr'] w']; simpl in *.
  - eapply continues_trans; [exact H | apply IH].
  - exact H.
Qed.

(** X19. Whatever the download function and the display do (return,
    raise), and whatever is queued, when [_download_worker] ends the stop
    flag is set, the total is unchanged, no counter has gone down, and the
    item counter has grown by exactly as much as the successes and the
    failures together. *)
Theorem download_worker_counters
    (queue : list (option VideoInfo)) (tr : t) (w : World) :
  let tr' := snd (fst (snd (worker queue tr w))) in
  stop_event tr' = true
  /\ total_videos tr' = total_videos tr
  /\ (current_video tr <= current_video tr')%nat
  /\ (successful_downloads tr <= successful_downloads tr')%nat
  /\ (failed_downloads tr <= failed_downloads tr')%nat
  /\ (current_video tr' + successful_downloads tr + failed_downloads tr
      = current_video tr + successful_downloads tr' + failed_downloads tr')%nat.
Proof.
  unfold _download_worker.
  pose proof (worker_loop_continues queue tr w) as H.
  destruct (loop queue tr w) as [res [[queue' tr'] w']]. simpl in *.
  unfold continues in H. counters.
Qed.

(** One task under a display that never fails and a total that is not 0:
    the task ends normally, the item counter goes up by one, and so does
    exactly one of the two result counters. *)
Lemma run_task_good video tr w :
  total_videos tr <> 0%nat ->
  (forall c n s b e, st_update c n s b e = None) ->
  exists tr' w',
    task video tr w = (Returned tt, tr', w')
    /\ total_videos tr' = total_videos tr
    /\ stop_event tr' = stop_event tr
    /\ current_video tr' = S (current_video tr)
    /\ (successful_downloads tr' + failed_downloads tr'
        = S (successful_downloads tr + failed_downloads tr))%nat
    /\ unfinished_tasks tr' = pred (unfinished_tasks tr).
Proof.
  intros Htot Hui. unfold run_task, _update_progress.
  destruct (download_func video w) as [[r|e] w1].
  - destruct (truthy_opt r); simpl;
      (destruct (Nat.eqb_spec (total_videos tr) 0) as [E|_]; [contradiction|]);
      rewrite Hui; simpl; eexists _, _; (split; [reflexivity|]); simpl;
      counters.
  - simpl. destruct (Nat.eqb_spec (total_videos tr) 0) as [E|_]; [contradiction|].
    rewrite Hui. simpl. eexists _, _. split; [reflexivity|]. simpl.
    counters.
Qed.

Lemma worker_loop_good (videos : list VideoInfo) tail : forall tr w,
  total_videos tr <> 0%nat ->
  (forall c n s b e, st_update c n s b e = None) ->
  stop_event tr = false ->
  exists tr' w',
    loop (map Some videos ++ tail) tr w = loop tail tr' w'
    /\ total_videos tr' = total_videos tr
    /\ stop_event tr' = false
    /\ current_video tr' = (current_video tr + length videos)%nat
    /\ (successful_downloads tr' + failed_downloads tr'
        = successful_downloads tr + failed_downloads tr + length videos)%nat
    /\ unfinished_tasks tr' = (unfinished_tasks tr - length videos)%nat.
Proof.
  induction videos as [|video rest IH]; intros tr w Htot Hui Hstop.
  - exists tr, w. simpl. counters.
  - simpl. rewrite Hstop.
    destruct (run_task_good video tr w Htot Hui)
      as (tr1 & w1 & -> & H1 & H2 & H3 & H4 & H5).
    destruct (IH tr1 w1) as (tr' & w' & -> & G1 & G2 & G3 & G4 & G5);
      [congruence | exact Hui | congruence |].
    exists tr', w'. split; [reflexivity|]. counters.
Qed.

(** One task under a display that never fails and a total that is not 0,
    by what the download function did: a non-empty path counts one
    success, anything else (nothing returned, an exception) one failure. *)
Lemma run_task_counts video tr w :
  total_videos tr <> 0%nat ->
  (forall c n s b e, st_update c n s b e = None) ->
  let call := download_func video w in
  exists tr',
    task video tr w = (Returned tt, tr', snd call)
    /\ total_videos tr' = total_videos tr
    /\ stop_event tr' = stop_event tr
    /\ current_video tr' = S (current_video tr)
    /\ successful_downloads tr'
       = (successful_downloads tr + count_downloaded [fst call])%nat
    /\ (failed_downloads tr' + count_downloaded [fst call]
        = S (failed_downloads tr))%nat
    /\ unfinished_tasks tr' = pred (unfinished_tasks tr).
Proof.
  intros Htot Hui. cbv zeta. unfold run_task, _update_progress, count_downloaded.
  destruct (download_func video w) as [[r|e] w1]; cbn [fst snd List.filter downloaded].
  - destruct (truthy_opt r); simpl;
      (destruct (Nat.eqb_spec (total_videos tr) 0) as [E|_]; [contradiction|]);
      rewrite Hui; simpl; eexists; (split; [reflexivity|]); simpl;
      counters.
  - simpl. destruct (Nat.eqb_spec (total_videos tr) 0) as [E|_]; [contradiction|].
    rewrite Hui. simpl. eexists. split; [reflexivity|]. simpl.
    counters.
Qed.

Lemma worker_loop_counts (videos : list VideoInfo) tail : forall tr w,
  total_videos tr <> 0%nat ->
  (forall c n s b e, st_update c n s b e = None) ->
  stop_event tr = false ->
  let run := call_each download_func videos w in
  exists tr',
    loop (map Some videos ++ tail) tr w = loop tail tr' (snd run)
    /\ total_videos tr' = total_videos tr
    /\ stop_event tr' = false
    /\ current_video tr' = (current_video tr + length videos)%nat
    /\ successful_downloads tr'
       = (successful_downloads tr + count_downloaded (fst run))%nat
    /\ (failed_downloads tr' + count_downloaded (fst run)
        = failed_downloads tr + length videos)%nat
    /\ unfinished_tasks tr' = (unfinished_tasks tr - length videos)%nat.
Proof.
  induction videos as [|video rest IH]; intros tr w Htot Hui Hstop; cbv zeta.
  - exists tr. simpl. unfold count_downloaded. simpl. counters.
  - rewrite call_each_cons. cbn [fst snd map app worker_loop]. rewrite Hstop.
    destruct (run_task_counts video tr w Htot Hui)
      as (tr1 & -> & H1 & H2 & H3 & H4 & H5 & H6).
    destruct (IH tr1 (snd (download_func video w)))
      as (tr' & -> & G1 & G2 & G3 & G4 & G5 & G6);
      [congruence | exact Hui | congruence |].
    exists tr'. split; [reflexivity|].
    rewrite count_downloaded_cons. cbn [length]. counters.
Qed.

(** X20. With a total that is not 0 and a display that never fails, a
    worker started on [n] queued videos, followed by nothing or by the
    [None] entry, calls the download function once for each of the [n], in
    order, and ends normally: the successes are up by the number of calls
    that returned a non-empty path, the failures by the number of the other
    calls (nothing returned, or an exception raised, which does not stop
    the worker), the item counter is up by [n], the [n] tasks are marked
    done, the stop flag is set, and what was queued behind the [None] entry
    is still in the queue. *)
Theorem download_worker_drains (videos : list VideoInfo)
    (behind : option (list (option VideoInfo))) (tr : t) (w : World) :
  total_videos tr <> 0%nat ->
  (forall c n s b e, st_update c n s b e = None) ->
  stop_event tr = false ->
  (length videos <= unfinished_tasks tr)%nat ->
  let run := call_each download_func videos w in
  exists tr',
    worker (map Some videos
              ++ match behind with Some rest => None :: rest | None => [] end)
      tr w
    = (Returned tt,
       (match behind with Some rest => rest | None => [] end, tr', snd run))
    /\ stop_event tr' = true
    /\ current_video tr' = (current_video tr + length videos)%nat
    /\ successful_downloads tr'
       = (successful_downloads tr + count_downloaded (fst run))%nat
    /\ failed_downloads tr'
       = (failed_downloads tr
          + (length videos - count_downloaded (fst run)))%nat
    /\ (unfinished_tasks tr' + length videos = unfinished_tasks tr)%nat.
Proof.
  intros Htot Hui Hstop Hq run. unfold _download_worker.
  destruct (worker_loop_counts videos
              match behind with Some rest => None :: rest | None => [] end
              tr w Htot Hui Hstop)
    as (tr1 & -> & H1 & H2 & H3 & H4 & H5 & H6).
  fold run in H4, H5 |- *.
  pose proof (count_downloaded_bound (fst run)) as Hb.
  assert (Hl : length (fst run) = length videos)
    by (subst run; apply call_each_length).
  destruct behind as [rest|]; simpl; rewrite H2; simpl;
    exists (set_stop tr1); (split; [reflexivity|]); simpl; repeat split;
    try assumption; lia.
Qed.


End WorkerProperties.

Lemma download_worker_drains_witness :
  fst queued_three = map Some three_videos ++ []
  /\ ProgressTracker.unfinished_tasks (snd queued_three) = 3%nat
  /\ exists tr',
       ProgressTracker._download_worker st_update_ok sample_download_func
         (fst queued_three) (snd queued_three) empty_world
       = (Returned tt, ([], tr', empty_world))
       /\ ProgressTracker.stop_event tr' = true
       /\ ProgressTracker.current_video tr' = 3%nat
       /\ ProgressTracker.successful_downloads tr' = 2%nat
       /\ ProgressTracker.failed_downloads tr' = 1%nat
       /\ ProgressTracker.unfinished_tasks tr' = 0%nat.
Proof.
  split; [reflexivity|]. split; [reflexivity|].
  destruct (download_worker_drains st_update_ok sample_download_func
              three_videos None (snd queued_three) empty_world)
    as (tr' & H & H1 & H2 & H3 & H4 & H5);
    [discriminate | reflexivity | reflexivity | vm_compute; lia |].
  exists tr'. split; [exact H|]. split; [exact H1|].
  split; [exact H2|]. split; [exact H3|]. split; [exact H4|].
  change (ProgressTracker.unfinished_tasks (snd queued_three)) with 3%nat in H5.
  change (length three_videos) with 3%nat in H5. lia.
Defined.


(** Three queued videos, the second of which makes the download function
    raise: two successes, one failure, the worker goes on. *)
Example download_worker_second_raises :
  let tr := snd (fst (snd (ProgressTracker._download_worker st_update_ok
                             sample_download_func
                             (map Some three_videos) (ProgressTracker.init 3)
                             empty_world))) in
  ProgressTracker.successful_downloads tr = 2%nat
  /\ ProgressTracker.failed_downloads tr = 1%nat
  /\ ProgressTracker.current_video tr = 3%nat.
Proof. cbv zeta. repeat split. Qed.

(** ** The cleanup of temporary files *)

Section CleanupProperties.

Variable os_listdir : gset pystr -> pystr -> outcome (list pystr).
Variable os_getmtime : gset pystr -> pystr -> outcome Q.
Variable os_remove_error : gset pystr -> pystr -> option exn.

Local Abbreviation loop := (cleanup_loop os_getmtime os_remove_error).

Lemma cleanup_loop_safe directory current_time max_age_hours file_extensions
    (names : list pystr) :
  forall files_checked files_deleted fs,
    let result := loop directory current_time max_age_hours file_extensions
                    names files_checked files_deleted fs in
    snd result ⊆ fs
    /\ (forall p, p ∈ fs -> p ∉ snd result ->
          removable os_getmtime directory current_time max_age_hours
            file_extensions names p)
    /\ (forall c d, fst result = Returned (c, d) ->
          c = (files_checked + count_with_extension file_extensions names)%nat
          /\ (files_deleted <= d)%nat
          /\ (d + files_checked <= files_deleted + c)%nat).
Proof.
  unfold count_with_extension.
  induction names as [|filename rest IH]; intros checked deleted fs0; simpl.
  - split; [reflexivity|]. split; [intros p Hp Hn; contradiction|].
    intros c d H. injection H as <- <-. lia.
  - assert (Hweak : forall p,
              removable os_getmtime directory current_time max_age_hours
                file_extensions rest p ->
              removable os_getmtime directory current_time max_age_hours
                file_extensions (filename :: rest) p).
    { intros p (f & fs1 & m & Hin & Hrest). exists f, fs1, m.
      split; [right; exact Hin | exact Hrest]. }
    destruct (has_extension file_extensions filename) eqn:Hext; simpl.
    + destruct (os_getmtime fs0 (os_path_join directory filename))
        as [mtime|e] eqn:Hm; simpl.
      * destruct (Qle_bool (current_time - mtime)
                    (inject_Z (max_age_hours * 3600))) eqn:Hage.
        -- destruct (IH (S checked) deleted fs0) as (H1 & H2 & H3).
           split; [exact H1|]. split; [intros p Hp Hn; apply Hweak, H2; assumption|].
           intros c d H. destruct (H3 c d H) as (-> & ? & ?). lia.
        -- destruct (os_remove_error fs0 (os_path_join directory filename)).
           ++ destruct (IH (S checked) deleted fs0) as (H1 & H2 & H3).
              split; [exact H1|].
              split; [intros p Hp Hn; apply Hweak, H2; assumption|].
              intros c d H. destruct (H3 c d H) as (-> & ? & ?). lia.
           ++ destruct (IH (S checked) (S deleted)
                          (fs0 ∖ {[os_path_join directory filename]}))
                as (H1 & H2 & H3).
              split; [etransitivity; [exact H1 | apply subseteq_difference_l; reflexivity]|].
              split.
              ** intros p Hp Hn.
                 destruct (decide (p = os_path_join directory filename)) as [->|Hne].
                 { exists filename, fs0, mtime. split; [left; reflexivity|].
                   split; [reflexivity|]. split; [exact Hext|].
                   split; [exact Hm|].
                   apply Qnot_le_lt. intros Hle.
                   apply Qle_bool_iff in Hle. congruence. }
                 apply Hweak, H2; [|exact Hn].
                 apply elem_of_difference. split; [exact Hp|].
                 rewrite elem_of_singleton. exact Hne.
              ** intros c d H. destruct (H3 c d H) as (-> & ? & ?). lia.
      * split; [reflexivity|]. split; [intros p Hp Hn; contradiction | discriminate].
    + destruct (IH checked deleted fs0) as (H1 & H2 & H3).
      split; [exact H1|]. split; [intros p Hp Hn; apply Hweak, H2; assumption|].
      exact H3.
Qed.

(** X22. [cleanup_temp_files] removes only what it is meant to remove: an
    entry that is gone afterwards was a listed name with one of the
    extensions whose age was above the limit when it was looked at, and
    nothing is added.  When the call returns, the first count is the number
    of listed names with one of the extensions and the second count is at
    most the first.  (An exception of [os.listdir] or [os.path.getmtime]
    ends the call; what was removed before stays removed.) *)
Theorem cleanup_temp_files_safe (directory : pystr) (max_age_hours : Z)
    (file_extensions : list pystr) (current_time : Q) (fs : gset pystr) :
  let result :=
    cleanup_temp_files os_listdir os_getmtime os_remove_error directory
      max_age_hours file_extensions current_time fs in
  snd result ⊆ fs
  /\ (forall p, p ∈ fs -> p ∉ snd result ->
        exists names, os_listdir fs directory = Returned names
          /\ removable os_getmtime directory current_time max_age_hours
               file_extensions names p)
  /\ (forall c d, fst result = Returned (c, d) ->
        (d <= c)%nat
        /\ exists names, os_listdir fs directory = Returned names
             /\ c = count_with_extension file_extensions names).
Proof.
  unfold cleanup_temp_files.
  destruct (os_listdir fs directory) as [names|e]; simpl.
  - destruct (cleanup_loop_safe directory current_time max_age_hours
                file_extensions names 0 0 fs) as (H1 & H2 & H3).
    split; [exact H1|]. split.
    + intros p Hp Hn. exists names. split; [reflexivity | apply H2; assumption].
    + intros c d H. destruct (H3 c d H) as (Hc & _ & Hd).
      split; [lia|]. exists names. split; [reflexivity | exact Hc].
  - split; [reflexivity|]. split; [intros p Hp Hn; contradiction | discriminate].
Qed.

End CleanupProperties.

Example cleanup_temp_files_sample :
  let result :=
    cleanup_temp_files sample_listdir sample_getmtime sample_remove_ok
      (lit "tmp") 24 [lit ".mp3"; lit ".zip"] (100000 # 1) sample_directory in
  fst result = Returned (2%nat, 1%nat)
  /\ snd result = {[ lit "tmp/new.mp3"; lit "tmp/old.txt" ]}.
Proof.
  cbv zeta. split; [vm_compute; reflexivity|].
  apply set_eq. intros p.
  unfold cleanup_temp_files, sample_listdir, cleanup_loop.
  set_solver.
Qed.

(** ** The two batch loops side by side *)

Section TwoBatchLoops.

Variable normalize_NFKD : pystr -> pystr.
Variable os_makedirs : gset pystr -> pystr -> gset pystr * option exn.
Variable ydl_download :
  gset pystr -> pystr -> pystr -> pystr -> pystr -> gset pystr * option exn.
Variable dl : AudioDownloader.

Local Abbreviation batch_loop :=
  (batch_download_loop normalize_NFKD os_makedirs ydl_download dl).
Local Abbreviation app_loop :=
  (perform_download_loop
     (download_audio_titled normalize_NFKD os_makedirs ydl_download dl)).

Lemma batch_loops_agree (pairs : list (VideoInfo * pystr)) :
  forall files successful failed w,
  exists files' successful' failed' w',
    batch_loop pairs None files w = (Returned files', w')
    /\ app_loop pairs successful failed w
       = (Returned (successful', failed'), w')
    /\ (length files' + length successful
        = length files + length successful')%nat
    /\ (length successful' + length failed'
        = length successful + length failed + length pairs)%nat.
Proof.
  induction pairs as [|[video title] rest IH]; intros files successful failed w.
  - exists files, successful, failed, w. simpl. repeat split; lia.
  - simpl. unfold bind at 1 3. unfold try_except, bind, ret, download_audio_titled.
    destruct (download_audio_returns normalize_NFKD os_makedirs ydl_download
                dl video (Some title) None w) as (r & w1 & ->).
    destruct r as [p|]; [destruct (truthy p) eqn:Ep|]; simpl; try rewrite Ep.
    + destruct (IH (files ++ [p]) (successful ++ [video]) failed w1)
        as (files' & s' & f' & w' & H1 & H2 & H3 & H4).
      exists files', s', f', w'. rewrite !length_app in *. simpl in *.
      repeat split; try assumption; lia.
    + destruct (IH files successful (failed ++ [video]) w1)
        as (files' & s' & f' & w' & H1 & H2 & H3 & H4).
      exists files', s', f', w'. rewrite !length_app in *. simpl in *.
      repeat split; try assumption; lia.
    + destruct (IH files successful (failed ++ [video]) w1)
        as (files' & s' & f' & w' & H1 & H2 & H3 & H4).
      exists files', s', f', w'. rewrite !length_app in *. simpl in *.
      repeat split; try assumption; lia.
Qed.

(** X23. Given the same items and the same (non-empty) list of names and no
    playlist folder, [batch_download] and the loop of [_perform_download]
    do the same to the world, and [batch_download] returns as many paths as
    the loop counts successes; the failures, which [batch_download] does not
    report, make up the rest of the paired items. *)
Theorem batch_download_matches_perform_download
    (videos : list VideoInfo) (first_title : pystr) (more_titles : list pystr)
    (w : World) :
  exists (files : list pystr) (successful failed : list VideoInfo) (w' : World),
    batch_download normalize_NFKD os_makedirs ydl_download dl videos
      (Some (first_title :: more_titles)) None w = (Returned files, w')
    /\ (let! pairs := zip_titles videos (Some (first_title :: more_titles)) in
        app_loop pairs [] []) w = (Returned (successful, failed), w')
    /\ length files = length successful
    /\ (length successful + length failed
        = Nat.min (length videos) (S (length more_titles)))%nat.
Proof.
  unfold batch_download, bind, zip_titles, ret.
  rewrite combine_firstn_length.
  destruct (batch_loops_agree (combine videos (first_title :: more_titles))
              [] [] [] w) as (files & s & f & w' & H1 & H2 & H3 & H4).
  exists files, s, f, w'. split; [exact H1|]. split; [exact H2|].
  rewrite length_combine in H4. simpl in *. split; lia.
Qed.

End TwoBatchLoops.
